(** * h-tautau: signal-jet selection and the derived-object cache of EventInfoBase

    A shallow embedding of [Analysis/src/EventInfo.cpp], followed by the
    scale factors of [McCorrections/src/TauIdWeight.cpp] and by the tuple
    store, the isolation, the jet identification and the leg indices of
    [Production/src/BaseTupleProducer.cc].

    Conventions of the embedding.
    - [size_t] values are binary naturals [N]; the sentinel used for an
      undefined jet index is the largest [size_t].
    - [double] and [float] quantities (transverse momenta, pseudorapidities,
      tag scores, invariant masses) are rationals [Q]; rounding and overflow
      are outside the model.  The initial value
      [-std::numeric_limits<double>::infinity()] of the VBF scan gets a
      constructor of its own.  Where a comparison on a floating-point value
      is all that guards an exception or a rejection (the eta bins of the
      scale factors, the jet identification), the value is a [float]: a
      rational or not-a-number, on which every comparison is false.
    - [std::vector] columns of the event record are lists and [.at(n)] is a
      lookup that raises [std::out_of_range] outside the bounds.
    - a C++ exception is a value of type [exception]; code that may throw
      lives in an error monad, and member functions of an EventInfoBase
      thread the instance through a state-and-error monad in which the state
      reached before a throw is kept.
    - the cache of an EventInfoBase is modelled twice: by value, each member
      a slot that is empty or holds what the pointer designates, for what
      the accessors compute; and as shared objects in a store (module
      [Shared]), for what a member function writes and what two instances
      may share. *)

From Stdlib Require Import QArith Qabs Lqa.
From stdpp Require Import base option list gmap strings.

Local Open Scope N_scope.

(** ** Exceptions and the error monad *)

Inductive exception : Type :=
| analysis_exception (what : string)
| analysis_exception_arg (what : string) (arg : N)
| std_out_of_range
| null_dereference.

Definition result (A : Type) : Type := exception + A.

Definition throw {A : Type} (what : string) : result A :=
  inl (analysis_exception what).

Definition rbind {A B : Type} (m : result A) (f : A -> result B) : result B :=
  match m with
  | inl e => inl e
  | inr a => f a
  end.

#[global] Instance result_ret : MRet result := fun A a => inr a.
#[global] Instance result_bind : MBind result := fun A B f m => rbind m f.

(** [v.at(n)] of a [std::vector]. *)
Definition at_ {A : Type} (v : list A) (n : N) : result A :=
  match v !! N.to_nat n with
  | Some a => inr a
  | None => inl std_out_of_range
  end.

(** [v.size()] *)
Definition size {A : Type} (v : list A) : N := N.of_nat (length v).

(** ** Comparisons on the rationals standing for doubles *)

Definition Qltb (x y : Q) : bool := negb (Qle_bool y x).

(** The running maximum of the VBF scan: minus infinity or a finite mass. *)
Inductive ereal : Type :=
| NegInf
| Fin (q : Q).

(** [m > max_mjj] *)
Definition gt_max (m : Q) (max_mjj : ereal) : bool :=
  match max_mjj with
  | NegInf => true
  | Fin x => Qltb x m
  end.

(** ** Kinematics: the operations of a Lorentz vector the code calls *)

Class Kinematics := {
  LorentzVector : Type;
  Pt : LorentzVector -> Q;
  eta : LorentzVector -> Q;
  E : LorentzVector -> Q;
  M : LorentzVector -> Q;
  p4_add : LorentzVector -> LorentzVector -> LorentzVector;
}.

(** ** The event record (the columns read by EventInfo.cpp) *)

Section EventRecord.
Context `{Kin : Kinematics}.

Record Event := {
  jets_p4 : list LorentzVector;
  jets_csv : list Q;
  jets_deepCsv_BvsAll : list Q;
  jets_deepFlavour_b : list Q;
  jets_deepFlavour_bb : list Q;
  jets_deepFlavour_lepb : list Q;
  jets_pu_id : list Z;
  jets_resolution : list Q;
  other_jets_p4 : list LorentzVector;
  fatJets_p4 : list LorentzVector;
  pfMET_p4 : LorentzVector;
  pfMET_cov : Q * Q * Q * Q;
  lep_p4 : list LorentzVector;
  lep_iso : list Q;
  kinFit_jetPairId : list N;
  kinFit_m : list Q;
  kinFit_chi2 : list Q;
  kinFit_convergence : list Z;
  first_daughter_indexes : list N;
  second_daughter_indexes : list N;
}.

End EventRecord.

Arguments Event {Kin}.

(** ** Collaborators outside EventInfo.cpp

    [BTagger], [PassEcalNoiceVetoJets] and the VBF thresholds of
    [cuts::hh_bbtautau_2017::jetID] are declared in headers that are not part
    of the sources at hand; the selection is parametric in them. *)

Class JetTools `{Kin : Kinematics} := {
  Period : Type;
  JetOrdering : Type;
  (** [BTagger(period, jet_ordering).PtCut()] and [.EtaCut()] *)
  PtCut : Period -> JetOrdering -> Q;
  EtaCut : Period -> JetOrdering -> Q;
  (** [bTagger.BTag(event, n)] *)
  BTag : Period -> JetOrdering -> Event -> N -> Q;
  (** [bTagger.Pass(event, n)], at the default (medium) working point *)
  Pass : Period -> JetOrdering -> Event -> N -> bool;
  PassEcalNoiceVetoJets : LorentzVector -> Period -> Z -> bool;
  vbf_pt_cut : Q;
  vbf_eta_cut : Q;
}.

Section Selection.
Context `{JT : JetTools}.

(** ** jet_ordering::JetInfo *)

Record JetInfo := mkJetInfo {
  p4 : LorentzVector;
  index : N;
  tag : Q;
}.

(** Modelled from the spec: the hard cut of [jet_ordering::OrderJets], which
    is defined in a header that is not part of the sources.  The spec
    describes a ranking and filtering utility over (momentum, index, tag
    score) triples subject to pt/eta thresholds, every returned element
    passing the supplied filters. *)
Definition PassCuts (pt_cut eta_cut : Q) (j : JetInfo) : bool :=
  Qltb pt_cut (Pt (p4 j)) && Qltb (Qabs (eta (p4 j))) eta_cut.

(** Modelled from the spec: the comparator of [jet_ordering::OrderJets];
    the result is sorted descending by the tag, ties by pt. *)
Definition CompareJets (jet_1 jet_2 : JetInfo) : bool :=
  if negb (Qeq_bool (tag jet_1) (tag jet_2))
  then Qltb (tag jet_2) (tag jet_1)
  else Qltb (Pt (p4 jet_2)) (Pt (p4 jet_1)).

(** Modelled from the spec: the sort of [jet_ordering::OrderJets], by
    insertion; jets that tie on tag and pt keep their relative order. *)
Fixpoint insert_jet (j : JetInfo) (l : list JetInfo) : list JetInfo :=
  match l with
  | [] => [j]
  | x :: l' => if CompareJets x j then x :: insert_jet j l' else j :: x :: l'
  end.

Fixpoint sort_jets (l : list JetInfo) : list JetInfo :=
  match l with
  | [] => []
  | j :: l' => insert_jet j (sort_jets l')
  end.

(** Modelled from the spec: the jets that pass the thresholds. *)
Definition FilterJets (jet_info_vector : list JetInfo) (pt_cut eta_cut : Q)
  : list JetInfo :=
  List.filter (PassCuts pt_cut eta_cut) jet_info_vector.

(** Modelled from the spec: [jet_ordering::OrderJets(jet_info_vector,
    apply_hard_cut, pt_cut, eta_cut)], the ranking and filtering utility of
    the spec.  Every call in EventInfo.cpp applies the hard cut; without it
    the whole vector is ranked. *)
Definition OrderJets (jet_info_vector : list JetInfo) (apply_hard_cut : bool)
    (pt_cut eta_cut : Q) : list JetInfo :=
  sort_jets (if apply_hard_cut
             then FilterJets jet_info_vector pt_cut eta_cut
             else jet_info_vector).

(** ** EventInfoBase::SelectedSignalJets *)

Definition JetPair : Type := N * N.

(** [std::numeric_limits<size_t>::max()] *)
Definition size_t_max : N := 18446744073709551615.

(** Modelled from the spec: [ntuple::UndefinedJetPair()] is declared outside
    the sources; an undefined pair holds no valid position of the jet array.
    Both members are the largest [size_t]. *)
Definition UndefinedJetPair : JetPair := (size_t_max, size_t_max).

Record SelectedSignalJets := mkSelected {
  selectedBjetPair : JetPair;
  selectedVBFjetPair : JetPair;
  n_bjets : N;
}.

Definition SelectedSignalJets_default : SelectedSignalJets :=
  {| selectedBjetPair := UndefinedJetPair;
     selectedVBFjetPair := UndefinedJetPair;
     n_bjets := 0 |}.

Definition HasBjetPair (s : SelectedSignalJets) (njets : N) : bool :=
  ((selectedBjetPair s).1 <? njets) && ((selectedBjetPair s).2 <? njets).

Definition HasVBFPair (s : SelectedSignalJets) (njets : N) : bool :=
  ((selectedVBFjetPair s).1 <? njets) && ((selectedVBFjetPair s).2 <? njets).

Definition isSelectedBjet (s : SelectedSignalJets) (n : N) : bool :=
  ((selectedBjetPair s).1 =? n) || ((selectedBjetPair s).2 =? n).

Definition isSelectedVBFjet (s : SelectedSignalJets) (n : N) : bool :=
  ((selectedVBFjetPair s).1 =? n) || ((selectedVBFjetPair s).2 =? n).

Definition set_n_bjets (s : SelectedSignalJets) (k : N) : SelectedSignalJets :=
  {| selectedBjetPair := selectedBjetPair s;
     selectedVBFjetPair := selectedVBFjetPair s;
     n_bjets := k |}.

Definition set_bjet_first (s : SelectedSignalJets) (i : N) : SelectedSignalJets :=
  {| selectedBjetPair := (i, (selectedBjetPair s).2);
     selectedVBFjetPair := selectedVBFjetPair s;
     n_bjets := n_bjets s |}.

Definition set_bjet_second (s : SelectedSignalJets) (i : N) : SelectedSignalJets :=
  {| selectedBjetPair := ((selectedBjetPair s).1, i);
     selectedVBFjetPair := selectedVBFjetPair s;
     n_bjets := n_bjets s |}.

Definition set_vbf_pair (s : SelectedSignalJets) (p : JetPair) : SelectedSignalJets :=
  {| selectedBjetPair := selectedBjetPair s;
     selectedVBFjetPair := p;
     n_bjets := n_bjets s |}.

(** ** EventInfoBase::SelectSignalJets *)

Section SelectSignalJets.
Variable event : Event.
Variable period : Period.
Variable jet_ordering : JetOrdering.

(** One turn of the loop of the lambda [CreateJetInfo]: [None] stands for
    [continue]. *)
Definition CreateJetInfo_body (selected_signal_jets : SelectedSignalJets)
    (useBTag : bool) (n : N) : result (option JetInfo) :=
  if isSelectedBjet selected_signal_jets n then mret None
  else if isSelectedVBFjet selected_signal_jets n then mret None
  else
    p ← at_ (jets_p4 event) n;
    pu ← at_ (jets_pu_id event) n;
    if negb (PassEcalNoiceVetoJets p period pu) then mret None
    else if (Z.land pu 2 =? 0)%Z then mret None
    else
      let tag := if useBTag then BTag period jet_ordering event n else Pt p in
      mret (Some (mkJetInfo p n tag)).

Fixpoint CreateJetInfo_loop (selected_signal_jets : SelectedSignalJets)
    (useBTag : bool) (ns : list nat) (jet_info_vector : list JetInfo)
  : result (list JetInfo) :=
  match ns with
  | [] => mret jet_info_vector
  | n :: ns' =>
      o ← CreateJetInfo_body selected_signal_jets useBTag (N.of_nat n);
      CreateJetInfo_loop selected_signal_jets useBTag ns'
        (match o with
         | Some j => jet_info_vector ++ [j]
         | None => jet_info_vector
         end)
  end.

Definition CreateJetInfo (selected_signal_jets : SelectedSignalJets)
    (useBTag : bool) : result (list JetInfo) :=
  CreateJetInfo_loop selected_signal_jets useBTag
    (seq 0 (length (jets_p4 event))) [].

(** Lines 87-98: the b-tag ranking and the first two slots. *)
Definition select_bjets (bjets_ordered : list JetInfo)
    (s : SelectedSignalJets) : SelectedSignalJets :=
  let s := set_n_bjets s (size bjets_ordered) in
  let s := match bjets_ordered with
           | j0 :: _ => set_bjet_first s (index j0)
           | [] => s
           end in
  match bjets_ordered with
  | _ :: j1 :: _ =>
      if Pass period jet_ordering event (index j1)
      then set_bjet_second s (index j1)
      else s
  | _ => s
  end.

(** Lines 105-117: the scan over the pairs of the VBF ranking. *)
Definition vbf_inner (jet_1 : JetInfo) (rest : list JetInfo)
    (st : ereal * SelectedSignalJets) : ereal * SelectedSignalJets :=
  fold_left
    (fun st jet_2 =>
       let jet_12 := p4_add (p4 jet_1) (p4 jet_2) in
       if gt_max (M jet_12) st.1
       then (Fin (M jet_12), set_vbf_pair st.2 (index jet_1, index jet_2))
       else st)
    rest st.

Fixpoint vbf_scan (vbf_jets_ordered : list JetInfo)
    (st : ereal * SelectedSignalJets) : ereal * SelectedSignalJets :=
  match vbf_jets_ordered with
  | [] => st
  | jet_1 :: rest => vbf_scan rest (vbf_inner jet_1 rest st)
  end.

Definition select_vbf_pair (vbf_jets_ordered : list JetInfo)
    (s : SelectedSignalJets) : SelectedSignalJets :=
  (vbf_scan vbf_jets_ordered (NegInf, s)).2.

(** Lines 87-89. *)
Definition bjets_ranking : result (list JetInfo) :=
  jet_info_vector ← CreateJetInfo SelectedSignalJets_default true;
  mret (OrderJets jet_info_vector true
          (PtCut period jet_ordering) (EtaCut period jet_ordering)).

(** Lines 100-103, from the selection reached after line 98. *)
Definition vbf_ranking (s : SelectedSignalJets) : result (list JetInfo) :=
  jet_info_vector_vbf ← CreateJetInfo s false;
  mret (OrderJets jet_info_vector_vbf true vbf_pt_cut vbf_eta_cut).

(** Lines 120-131. *)
Definition fallback (bjets_ordered : list JetInfo) (s : SelectedSignalJets)
  : result SelectedSignalJets :=
  if HasBjetPair s (size (jets_p4 event)) then mret s
  else
    jet_info_vector_new ← CreateJetInfo s true;
    let new_bjets_ordered :=
      OrderJets jet_info_vector_new true
        (PtCut period jet_ordering) (EtaCut period jet_ordering) in
    match new_bjets_ordered with
    | j0 :: _ => mret (set_bjet_second s (index j0))
    | [] =>
        let s := set_vbf_pair s UndefinedJetPair in
        match bjets_ordered with
        | _ :: j1 :: _ => mret (set_bjet_second s (index j1))
        | _ => mret s
        end
    end.

Definition SelectSignalJets : result SelectedSignalJets :=
  bjets_ordered ← bjets_ranking;
  let s := select_bjets bjets_ordered SelectedSignalJets_default in
  vbf_jets_ordered ← vbf_ranking s;
  let s := select_vbf_pair vbf_jets_ordered s in
  fallback bjets_ordered s.

(** *** The loop of [CreateJetInfo] on a record whose jet columns agree *)

(** The record is well formed when the pile-up-id column covers the jet
    column and the jet count is a [size_t].  The producer fills both columns
    in one loop (BaseTupleProducer.cc, lines 852-873). *)
Definition wf_event : Prop :=
  (length (jets_p4 event) <= length (jets_pu_id event))%nat /\
  size (jets_p4 event) <= size_t_max.

Definition jet_candidate (s : SelectedSignalJets) (useBTag : bool) (n : nat)
  : option JetInfo :=
  p ← jets_p4 event !! n;
  pu ← jets_pu_id event !! n;
  if isSelectedBjet s (N.of_nat n) || isSelectedVBFjet s (N.of_nat n)
     || negb (PassEcalNoiceVetoJets p period pu) || (Z.land pu 2 =? 0)%Z
  then None
  else Some (mkJetInfo p (N.of_nat n)
               (if useBTag then BTag period jet_ordering event (N.of_nat n)
                else Pt p)).

Definition candidates (s : SelectedSignalJets) (useBTag : bool) : list JetInfo :=
  omap (jet_candidate s useBTag) (seq 0 (length (jets_p4 event))).

(** The jet at position [n] passes the noise veto, the pile-up-id bit and
    the thresholds of the b-tag ranking. *)
Definition passes_bjet_cuts (n : nat) : bool :=
  match jets_p4 event !! n, jets_pu_id event !! n with
  | Some p, Some pu =>
      PassEcalNoiceVetoJets p period pu && negb (Z.land pu 2 =? 0)%Z
      && Qltb (PtCut period jet_ordering) (Pt p)
      && Qltb (Qabs (eta p)) (EtaCut period jet_ordering)
  | _, _ => false
  end.

(** The b-tag ranking of line 88 and the VBF ranking of line 101. *)
Definition ranked_bjets : list JetInfo :=
  OrderJets (candidates SelectedSignalJets_default true) true
    (PtCut period jet_ordering) (EtaCut period jet_ordering).

Definition ranked_vbf (s : SelectedSignalJets) : list JetInfo :=
  OrderJets (candidates s false) true vbf_pt_cut vbf_eta_cut.

Definition reranked_bjets (s : SelectedSignalJets) : list JetInfo :=
  OrderJets (candidates s true) true
    (PtCut period jet_ordering) (EtaCut period jet_ordering).

(** The selection after line 98 and after line 117. *)
Definition stage1 : SelectedSignalJets :=
  select_bjets ranked_bjets SelectedSignalJets_default.

Definition stage2 : SelectedSignalJets :=
  select_vbf_pair (ranked_vbf stage1) stage1.

(** The number of jets that pass the noise veto, the pile-up-id bit and the
    thresholds of the b-tag ranking. *)
Definition n_passing : nat :=
  length (List.filter passes_bjet_cuts (seq 0 (length (jets_p4 event)))).

End SelectSignalJets.

(** The invariant mass of the sum of two ranked jets. *)
Definition mjj (jet_1 jet_2 : JetInfo) : Q :=
  M (p4_add (p4 jet_1) (p4 jet_2)).

(** Position pairs in the order the two nested loops visit them. *)
Definition visited_before (p q : nat * nat) : Prop :=
  (p.1 < q.1)%nat \/ (p.1 = q.1 /\ (p.2 < q.2)%nat).

(** A pair of jet indices is fully defined when both are distinct positions
    of the jet array, and fully undefined when neither is a position. *)
Definition pair_defined (p : JetPair) (n : N) : Prop :=
  p.1 < n /\ p.2 < n /\ p.1 <> p.2.

Definition pair_undefined (p : JetPair) (n : N) : Prop :=
  ~ p.1 < n /\ ~ p.2 < n.

End Selection.

(** * The derived-object cache of EventInfoBase *)

(** ** Analysis objects built from the record *)

Section AnalysisObjects.
Context `{Kin : Kinematics}.

Definition MetCovMatrix : Type := (Q * Q * Q * Q)%type.

Record TupleLepton := mkTupleLepton { leg_id : N }.

Record LepCandidate := mkLepCandidate {
  lep_tuple : TupleLepton;
  lep_momentum : LorentzVector;
  lep_isolation : Q;
}.

Record TupleJet := mkTupleJet { jet_id : N }.

Record JetCandidate := mkJetCandidate {
  jet_tuple : TupleJet;
  jet_momentum : LorentzVector;
}.

Definition JetCollection : Type := list JetCandidate.

Record TupleFatJet := mkTupleFatJet { fatjet_id : N }.

Record FatJetCandidate := mkFatJetCandidate {
  fatjet_tuple : TupleFatJet;
  fatjet_momentum : LorentzVector;
}.

Definition FatJetCollection : Type := list FatJetCandidate.

Inductive MetType : Type := PF.

Record TupleMet := mkTupleMet { met_type : MetType }.

Record MET := mkMET {
  met_tuple : TupleMet;
  met_momentum : LorentzVector;
  met_covariance : MetCovMatrix;
}.

(** The composite of the two selected b-jets; its momentum is the sum of
    the momenta of its daughters. *)
Record HiggsBBCandidate := mkHiggsBB {
  first_daughter : JetCandidate;
  second_daughter : JetCandidate;
}.

Definition HiggsBB_momentum (h : HiggsBBCandidate) : LorentzVector :=
  p4_add (jet_momentum (first_daughter h)) (jet_momentum (second_daughter h)).

(** kin_fit::FitResults *)
Record FitResults := mkFitResults {
  convergence : Z;
  chi2 : Q;
  probability : Q;
  mass : Q;
}.

Definition set_convergence (r : FitResults) (v : Z) : FitResults :=
  {| convergence := v; chi2 := chi2 r; probability := probability r;
     mass := mass r |}.
Definition set_chi2 (r : FitResults) (v : Q) : FitResults :=
  {| convergence := convergence r; chi2 := v; probability := probability r;
     mass := mass r |}.
Definition set_probability (r : FitResults) (v : Q) : FitResults :=
  {| convergence := convergence r; chi2 := chi2 r; probability := v;
     mass := mass r |}.
Definition set_mass (r : FitResults) (v : Q) : FitResults :=
  {| convergence := convergence r; chi2 := chi2 r;
     probability := probability r; mass := v |}.

End AnalysisObjects.

(** ** Collaborators of the cache

    The accessors of the tuple objects (TupleObjects.h declares them, their
    bodies are not part of the sources), the canonical pair index, the
    kinematic-fit solver, [TMath::Prob], [Calculate_MT2], the jet-energy
    corrector and the virtual [GetHiggsTTMomentum] are parameters. *)

Class Collaborators `{JT : JetTools} := {
  TupleLepton_p4 : Event -> N -> LorentzVector;
  TupleLepton_iso : Event -> N -> Q;
  TupleJet_p4 : Event -> N -> LorentzVector;
  TupleJet_resolution : Event -> N -> Q;
  TupleFatJet_p4 : Event -> N -> LorentzVector;
  TupleMet_p4 : Event -> MetType -> LorentzVector;
  TupleMet_cov : Event -> MetType -> MetCovMatrix;
  (** [ntuple::CombinationPairToIndex(pair, n_jets)] *)
  CombinationPairToIndex : JetPair -> N -> N;
  (** a default-constructed [kin_fit::FitResults] *)
  FitResults_default : FitResults;
  (** [kin_fit::FitProducer::Fit] *)
  Fit : LorentzVector -> LorentzVector -> LorentzVector -> LorentzVector ->
        MET -> Q -> Q -> FitResults;
  TMath_Prob : Q -> Z -> Q;
  Calculate_MT2 : LorentzVector -> LorentzVector -> LorentzVector ->
                  LorentzVector -> LorentzVector -> Q;
  UncertaintySource : Type;
  UncertaintyScale : Type;
  JECUncertaintiesWrapper : Type;
  (** [jecUncertainties.ApplyShift(jets, source, scale, &other_jets_p4,
      &shifted_met_p4)]: the corrected jets and the value left in
      [shifted_met_p4] *)
  JEC_ApplyShift : JECUncertaintiesWrapper -> JetCollection ->
                   UncertaintySource -> UncertaintyScale ->
                   list LorentzVector -> LorentzVector ->
                   JetCollection * LorentzVector;
  (** the virtual [GetHiggsTTMomentum(useSVfit)] of the instance built on
      a record and a leg-pair index *)
  HiggsTTMomentum : Event -> N -> bool -> result LorentzVector;
}.

Section EventInfo.
Context `{Col : Collaborators}.

Record SummaryInfo := mkSummaryInfo {
  jecUncertainties : option JECUncertaintiesWrapper;
}.

(** [SummaryInfo::GetJecUncertainties] *)
Definition GetJecUncertainties (s : SummaryInfo) : result JECUncertaintiesWrapper :=
  match jecUncertainties s with
  | None => throw "Jec Uncertainties not stored."
  | Some j => mret j
  end.

(** ** The instance

    The members of EventInfoBase read by EventInfo.cpp.  A null
    [shared_ptr] or an uninitialised [boost::optional] is [None]; an
    instance owns the objects of its cache.  The mutex, the trigger results,
    the event identifier and the mva score play no part in what follows and
    are left out; member functions run one at a time. *)

Record EventInfoBase := mkEventInfoBase {
  event : Event;
  summaryInfo : option SummaryInfo;
  selected_htt_index : N;
  selected_signal_jets : SelectedSignalJets;
  period : Period;
  jet_ordering : JetOrdering;
  tuple_leg1 : option TupleLepton;
  leg1 : option LepCandidate;
  tuple_leg2 : option TupleLepton;
  leg2 : option LepCandidate;
  tuple_jets : option (list TupleJet);
  jets : option JetCollection;
  tuple_fatJets : option (list TupleFatJet);
  fatJets : option FatJetCollection;
  higgs_bb : option HiggsBBCandidate;
  tuple_met : option TupleMet;
  met : option MET;
  kinfit_results : option FitResults;
  mt2 : option Q;
}.

(** Assignments to the members of the cache. *)
Definition set_tuple_leg1 (this : EventInfoBase) (v : option TupleLepton)
  : EventInfoBase :=
  mkEventInfoBase (event this) (summaryInfo this) (selected_htt_index this)
    (selected_signal_jets this) (period this) (jet_ordering this) v
    (leg1 this) (tuple_leg2 this) (leg2 this) (tuple_jets this) (jets this)
    (tuple_fatJets this) (fatJets this) (higgs_bb this) (tuple_met this)
    (met this) (kinfit_results this) (mt2 this).

Definition set_leg1 (this : EventInfoBase) (v : option LepCandidate)
  : EventInfoBase :=
  mkEventInfoBase (event this) (summaryInfo this) (selected_htt_index this)
    (selected_signal_jets this) (period this) (jet_ordering this)
    (tuple_leg1 this) v (tuple_leg2 this) (leg2 this) (tuple_jets this)
    (jets this) (tuple_fatJets this) (fatJets this) (higgs_bb this)
    (tuple_met this) (met this) (kinfit_results this) (mt2 this).

Definition set_tuple_leg2 (this : EventInfoBase) (v : option TupleLepton)
  : EventInfoBase :=
  mkEventInfoBase (event this) (summaryInfo this) (selected_htt_index this)
    (selected_signal_jets this) (period this) (jet_ordering this)
    (tuple_leg1 this) (leg1 this) v (leg2 this) (tuple_jets this)
    (jets this) (tuple_fatJets this) (fatJets this) (higgs_bb this)
    (tuple_met this) (met this) (kinfit_results this) (mt2 this).

Definition set_leg2 (this : EventInfoBase) (v : option LepCandidate)
  : EventInfoBase :=
  mkEventInfoBase (event this) (summaryInfo this) (selected_htt_index this)
    (selected_signal_jets this) (period this) (jet_ordering this)
    (tuple_leg1 this) (leg1 this) (tuple_leg2 this) v (tuple_jets this)
    (jets this) (tuple_fatJets this) (fatJets this) (higgs_bb this)
    (tuple_met this) (met this) (kinfit_results this) (mt2 this).

Definition set_tuple_jets (this : EventInfoBase) (v : option (list TupleJet))
  : EventInfoBase :=
  mkEventInfoBase (event this) (summaryInfo this) (selected_htt_index this)
    (selected_signal_jets this) (period this) (jet_ordering this)
    (tuple_leg1 this) (leg1 this) (tuple_leg2 this) (leg2 this) v
    (jets this) (tuple_fatJets this) (fatJets this) (higgs_bb this)
    (tuple_met this) (met this) (kinfit_results this) (mt2 this).

Definition set_jets (this : EventInfoBase) (v : option JetCollection)
  : EventInfoBase :=
  mkEventInfoBase (event this) (summaryInfo this) (selected_htt_index this)
    (selected_signal_jets this) (period this) (jet_ordering this)
    (tuple_leg1 this) (leg1 this) (tuple_leg2 this) (leg2 this)
    (tuple_jets this) v (tuple_fatJets this) (fatJets this) (higgs_bb this)
    (tuple_met this) (met this) (kinfit_results this) (mt2 this).

Definition set_tuple_fatJets (this : EventInfoBase) (v : option (list TupleFatJet))
  : EventInfoBase :=
  mkEventInfoBase (event this) (summaryInfo this) (selected_htt_index this)
    (selected_signal_jets this) (period this) (jet_ordering this)
    (tuple_leg1 this) (leg1 this) (tuple_leg2 this) (leg2 this)
    (tuple_jets this) (jets this) v (fatJets this) (higgs_bb this)
    (tuple_met this) (met this) (kinfit_results this) (mt2 this).

Definition set_fatJets (this : EventInfoBase) (v : option FatJetCollection)
  : EventInfoBase :=
  mkEventInfoBase (event this) (summaryInfo this) (selected_htt_index this)
    (selected_signal_jets this) (period this) (jet_ordering this)
    (tuple_leg1 this) (leg1 this) (tuple_leg2 this) (leg2 this)
    (tuple_jets this) (jets this) (tuple_fatJets this) v (higgs_bb this)
    (tuple_met this) (met this) (kinfit_results this) (mt2 this).

Definition set_higgs_bb (this : EventInfoBase) (v : option HiggsBBCandidate)
  : EventInfoBase :=
  mkEventInfoBase (event this) (summaryInfo this) (selected_htt_index this)
    (selected_signal_jets this) (period this) (jet_ordering this)
    (tuple_leg1 this) (leg1 this) (tuple_leg2 this) (leg2 this)
    (tuple_jets this) (jets this) (tuple_fatJets this) (fatJets this) v
    (tuple_met this) (met this) (kinfit_results this) (mt2 this).

Definition set_tuple_met (this : EventInfoBase) (v : option TupleMet)
  : EventInfoBase :=
  mkEventInfoBase (event this) (summaryInfo this) (selected_htt_index this)
    (selected_signal_jets this) (period this) (jet_ordering this)
    (tuple_leg1 this) (leg1 this) (tuple_leg2 this) (leg2 this)
    (tuple_jets this) (jets this) (tuple_fatJets this) (fatJets this)
    (higgs_bb this) v (met this) (kinfit_results this) (mt2 this).

Definition set_met (this : EventInfoBase) (v : option MET)
  : EventInfoBase :=
  mkEventInfoBase (event this) (summaryInfo this) (selected_htt_index this)
    (selected_signal_jets this) (period this) (jet_ordering this)
    (tuple_leg1 this) (leg1 this) (tuple_leg2 this) (leg2 this)
    (tuple_jets this) (jets this) (tuple_fatJets this) (fatJets this)
    (higgs_bb this) (tuple_met this) v (kinfit_results this) (mt2 this).

Definition set_kinfit_results (this : EventInfoBase) (v : option FitResults)
  : EventInfoBase :=
  mkEventInfoBase (event this) (summaryInfo this) (selected_htt_index this)
    (selected_signal_jets this) (period this) (jet_ordering this)
    (tuple_leg1 this) (leg1 this) (tuple_leg2 this) (leg2 this)
    (tuple_jets this) (jets this) (tuple_fatJets this) (fatJets this)
    (higgs_bb this) (tuple_met this) (met this) v (mt2 this).

Definition set_mt2 (this : EventInfoBase) (v : option Q)
  : EventInfoBase :=
  mkEventInfoBase (event this) (summaryInfo this) (selected_htt_index this)
    (selected_signal_jets this) (period this) (jet_ordering this)
    (tuple_leg1 this) (leg1 this) (tuple_leg2 this) (leg2 this)
    (tuple_jets this) (jets this) (tuple_fatJets this) (fatJets this)
    (higgs_bb this) (tuple_met this) (met this) (kinfit_results this) v.

(** Member functions: the instance is threaded through, and the state
    reached before an exception is thrown is kept. *)
Definition Method (A : Type) : Type :=
  EventInfoBase -> result A * EventInfoBase.

#[global] Instance Method_ret : MRet Method := fun A a this => (inr a, this).
#[global] Instance Method_bind : MBind Method := fun A B f m this =>
  match m this with
  | (inr a, this') => f a this'
  | (inl e, this') => (inl e, this')
  end.

Definition mthrow {A : Type} (what : string) : Method A :=
  fun this => (throw what, this).

Definition lift {A : Type} (r : result A) : Method A :=
  fun this => (r, this).

Definition get {A : Type} (f : EventInfoBase -> A) : Method A :=
  fun this => (inr (f this), this).

Definition modify (f : EventInfoBase -> EventInfoBase) : Method unit :=
  fun this => (inr tt, f this).

(** Modelled from the spec: the copy constructor of EventInfoBase is declared
    in EventInfo.h, which is not part of the sources.  By the spec an
    EventInfo has value semantics, copying yields an independent cache, and
    the clone made by the shift starts with an entirely empty derived-field
    cache while the record reference, the selection, the period and the
    ordering policy carry over.  The leg-pair index and the run summary,
    which the shift reads from the clone, are construction arguments like
    those four and are kept with them. *)
Definition EventInfoBase_copy (other : EventInfoBase) : EventInfoBase :=
  {| event := event other;
     summaryInfo := summaryInfo other;
     selected_htt_index := selected_htt_index other;
     selected_signal_jets := selected_signal_jets other;
     period := period other;
     jet_ordering := jet_ordering other;
     tuple_leg1 := None; leg1 := None; tuple_leg2 := None; leg2 := None;
     tuple_jets := None; jets := None;
     tuple_fatJets := None; fatJets := None;
     higgs_bb := None; tuple_met := None; met := None;
     kinfit_results := None; mt2 := None |}.

(** [event->jets_p4.size()] *)
Definition instance_njets (this : EventInfoBase) : N :=
  size (jets_p4 (event this)).

Definition GetNJets : Method N := get instance_njets.
Definition GetNFatJets : Method N :=
  get (fun this => size (fatJets_p4 (event this))).

Definition GetSummaryInfo : Method SummaryInfo :=
  s ← get summaryInfo;
  match s with
  | None => mthrow "SummaryInfo was not provided for this event."
  | Some s => mret s
  end.

Definition EventInfoBase_HasBjetPair : Method bool :=
  njets ← GetNJets;
  get (fun this => HasBjetPair (selected_signal_jets this) njets).

Definition EventInfoBase_HasVBFjetPair : Method bool :=
  njets ← GetNJets;
  get (fun this => HasVBFPair (selected_signal_jets this) njets).

Definition GetLegIndex (leg_id : N) : Method N :=
  if leg_id =? 1 then
    i ← get selected_htt_index;
    ev ← get event;
    lift (at_ (first_daughter_indexes ev) i)
  else if leg_id =? 2 then
    i ← get selected_htt_index;
    ev ← get event;
    lift (at_ (second_daughter_indexes ev) i)
  else lift (inl (analysis_exception_arg "Invalid leg id = %1%." leg_id)).

Definition new_LepCandidate (ev : Event) (t : TupleLepton) : LepCandidate :=
  mkLepCandidate t (TupleLepton_p4 ev (leg_id t)) (TupleLepton_iso ev (leg_id t)).

Definition GetFirstLeg : Method LepCandidate :=
  l ← get leg1;
  match l with
  | Some l => mret l
  | None =>
      i ← GetLegIndex 1;
      ev ← get event;
      modify (fun this => set_tuple_leg1 this (Some (mkTupleLepton i)));;
      let l := new_LepCandidate ev (mkTupleLepton i) in
      modify (fun this => set_leg1 this (Some l));;
      mret l
  end.

Definition GetSecondLeg : Method LepCandidate :=
  l ← get leg2;
  match l with
  | Some l => mret l
  | None =>
      i ← GetLegIndex 2;
      ev ← get event;
      modify (fun this => set_tuple_leg2 this (Some (mkTupleLepton i)));;
      let l := new_LepCandidate ev (mkTupleLepton i) in
      modify (fun this => set_leg2 this (Some l));;
      mret l
  end.

(** Modelled from the spec: [GetLeg] is a virtual member declared in
    EventInfo.h, which is not part of the sources.  By the spec the two legs
    are built from the fixed per-event leg indices, and a leg index outside
    1 and 2 is an error. *)
Definition GetLeg (leg_id : N) : Method LepCandidate :=
  if leg_id =? 1 then GetFirstLeg
  else if leg_id =? 2 then GetSecondLeg
  else lift (inl (analysis_exception_arg "Invalid leg id = %1%." leg_id)).

Definition new_JetCandidate (ev : Event) (t : TupleJet) : JetCandidate :=
  mkJetCandidate t (TupleJet_p4 ev (jet_id t)).

Fixpoint GetJets_loop (ev : Event) (ns : list nat)
    (tuple_jets : list TupleJet) (jets : JetCollection)
  : list TupleJet * JetCollection :=
  match ns with
  | [] => (tuple_jets, jets)
  | n :: ns' =>
      let t := mkTupleJet (N.of_nat n) in
      GetJets_loop ev ns' (tuple_jets ++ [t]) (jets ++ [new_JetCandidate ev t])
  end.

Definition GetJets : Method JetCollection :=
  js ← get jets;
  match js with
  | Some js => mret js
  | None =>
      ev ← get event;
      let r := GetJets_loop ev (seq 0 (length (jets_p4 ev))) [] [] in
      modify (fun this => set_jets this (Some []));;
      modify (fun this => set_tuple_jets this (Some r.1));;
      modify (fun this => set_jets this (Some r.2));;
      mret r.2
  end.

Definition SetJets (new_jets : JetCollection) : Method unit :=
  modify (fun this => set_jets this (Some new_jets)).

Definition new_FatJetCandidate (ev : Event) (t : TupleFatJet) : FatJetCandidate :=
  mkFatJetCandidate t (TupleFatJet_p4 ev (fatjet_id t)).

Fixpoint GetFatJets_loop (ev : Event) (ns : list nat)
    (tuple_fatJets : list TupleFatJet) (fatJets : FatJetCollection)
  : list TupleFatJet * FatJetCollection :=
  match ns with
  | [] => (tuple_fatJets, fatJets)
  | n :: ns' =>
      let t := mkTupleFatJet (N.of_nat n) in
      GetFatJets_loop ev ns' (tuple_fatJets ++ [t])
        (fatJets ++ [new_FatJetCandidate ev t])
  end.

Definition GetFatJets : Method FatJetCollection :=
  js ← get fatJets;
  match js with
  | Some js => mret js
  | None =>
      ev ← get event;
      let r := GetFatJets_loop ev (seq 0 (length (fatJets_p4 ev))) [] [] in
      modify (fun this => set_fatJets this (Some []));;
      modify (fun this => set_tuple_fatJets this (Some r.1));;
      modify (fun this => set_fatJets this (Some r.2));;
      mret r.2
  end.

Definition GetVBFJet (index : N) : Method JetCandidate :=
  has ← EventInfoBase_HasVBFjetPair;
  if negb has || (negb (index =? 1) && negb (index =? 2))
  then mthrow "VBF jet not found."
  else
    js ← GetJets;
    s ← get selected_signal_jets;
    if index =? 1 then lift (at_ js (selectedVBFjetPair s).1)
    else lift (at_ js (selectedVBFjetPair s).2).

Definition GetBJet (index : N) : Method JetCandidate :=
  has ← EventInfoBase_HasBjetPair;
  if negb has || (negb (index =? 1) && negb (index =? 2))
  then mthrow "B jet not found."
  else
    js ← GetJets;
    s ← get selected_signal_jets;
    if index =? 1 then lift (at_ js (selectedBjetPair s).1)
    else lift (at_ js (selectedBjetPair s).2).

Definition GetHiggsBB : Method HiggsBBCandidate :=
  has ← EventInfoBase_HasBjetPair;
  if negb has then mthrow "Can't create H->bb candidate."
  else
    h ← get higgs_bb;
    match h with
    | Some h => mret h
    | None =>
        js ← GetJets;
        s ← get selected_signal_jets;
        j1 ← lift (at_ js (selectedBjetPair s).1);
        j2 ← lift (at_ js (selectedBjetPair s).2);
        modify (fun this => set_higgs_bb this (Some (mkHiggsBB j1 j2)));;
        mret (mkHiggsBB j1 j2)
    end.

Definition GetMET : Method MET :=
  m ← get met;
  match m with
  | Some m => mret m
  | None =>
      ev ← get event;
      modify (fun this => set_tuple_met this (Some (mkTupleMet PF)));;
      let m := mkMET (mkTupleMet PF) (TupleMet_p4 ev PF) (TupleMet_cov ev PF) in
      modify (fun this => set_met this (Some m));;
      mret m
  end.

(** Modelled from the spec: [SetMetMomentum] is defined in EventInfo.h,
    which is not part of the sources.  By the spec the shifted
    missing-energy vector overwrites the corresponding field of the clone:
    the missing-energy candidate gets the new momentum. *)
Definition SetMetMomentum (new_met_p4 : LorentzVector) : Method unit :=
  m ← GetMET;
  modify (fun this =>
            set_met this
              (Some (mkMET (met_tuple m) new_met_p4 (met_covariance m)))).

(** [std::find] over a column, as the distance from its begin. *)
Fixpoint find_index (x : N) (l : list N) : option nat :=
  match l with
  | [] => None
  | y :: l' => if y =? x then Some 0%nat else S <$> find_index x l'
  end.

Definition update_kinfit (f : FitResults -> FitResults) : Method unit :=
  modify (fun this => set_kinfit_results this (f <$> kinfit_results this)).

(** The branch of GetKinFitResults taken when the pair is not in the side
    table (lines 372-381): the arguments are evaluated from left to right. *)
Definition GetKinFitResults_fit (ev : Event) : Method unit :=
  b1 ← GetBJet 1; b1' ← GetBJet 1;
  let energy_resolution_1 :=
    (TupleJet_resolution ev (jet_id (jet_tuple b1)) * E (jet_momentum b1'))%Q in
  b2 ← GetBJet 2; b2' ← GetBJet 2;
  let energy_resolution_2 :=
    (TupleJet_resolution ev (jet_id (jet_tuple b2)) * E (jet_momentum b2'))%Q in
  l1 ← GetLeg 1; l2 ← GetLeg 2;
  j1 ← GetBJet 1; j2 ← GetBJet 2;
  m ← GetMET;
  let result :=
    Fit (lep_momentum l1) (lep_momentum l2)
      (jet_momentum j1) (jet_momentum j2) m
      energy_resolution_1 energy_resolution_2 in
  update_kinfit (fun r => set_convergence r (convergence result));;
  update_kinfit (fun r => set_chi2 r (chi2 result));;
  update_kinfit (fun r => set_probability r (TMath_Prob (chi2 result) 2));;
  update_kinfit (fun r => set_mass r (mass result)).

(** The branch taken when the pair is found at [index] (lines 384-388). *)
Definition GetKinFitResults_stored (ev : Event) (index : nat) : Method unit :=
  c ← lift (at_ (kinFit_convergence ev) (N.of_nat index));
  update_kinfit (fun r => set_convergence r c);;
  x ← lift (at_ (kinFit_chi2 ev) (N.of_nat index));
  update_kinfit (fun r => set_chi2 r x);;
  update_kinfit (fun r => set_probability r (TMath_Prob (chi2 r) 2));;
  m ← lift (at_ (kinFit_m ev) (N.of_nat index));
  update_kinfit (fun r => set_mass r m).

Definition GetKinFitResults : Method FitResults :=
  has ← EventInfoBase_HasBjetPair;
  if negb has then mthrow "Can't retrieve KinFit results."
  else
    k ← get kinfit_results;
    match k with
    | Some r => mret r
    | None =>
        s ← get selected_signal_jets;
        njets ← GetNJets;
        ev ← get event;
        let pairId := CombinationPairToIndex (selectedBjetPair s) njets in
        let iter := find_index pairId (kinFit_jetPairId ev) in
        modify (fun this => set_kinfit_results this (Some FitResults_default));;
        match iter with
        | None => GetKinFitResults_fit ev
        | Some index => GetKinFitResults_stored ev index
        end;;
        k ← get kinfit_results;
        match k with
        | Some r => mret r
        | None => lift (inl null_dereference)
        end
    end.

Definition GetResonanceMomentum (useSVfit addMET : bool) : Method LorentzVector :=
  if useSVfit && addMET then mthrow "Can't add MET and with SVfit applied."
  else
    ev ← get event;
    i ← get selected_htt_index;
    htt ← lift (HiggsTTMomentum ev i useSVfit);
    hbb ← GetHiggsBB;
    let p4 := p4_add htt (HiggsBB_momentum hbb) in
    if addMET then
      m ← GetMET;
      mret (p4_add p4 (met_momentum m))
    else mret p4.

Definition GetMT2 : Method Q :=
  v ← get mt2;
  match v with
  | Some v => mret v
  | None =>
      l1 ← GetLeg 1; l2 ← GetLeg 2;
      h1 ← GetHiggsBB; h2 ← GetHiggsBB;
      ev ← get event;
      let v := Calculate_MT2 (lep_momentum l1) (lep_momentum l2)
                 (jet_momentum (first_daughter h1))
                 (jet_momentum (second_daughter h2)) (pfMET_p4 ev) in
      modify (fun this => set_mt2 this (Some v));;
      mret v
  end.

(** [EventInfoBase::ApplyShift]: the clone is a local of the member
    function and is returned by value; [this] is only read. *)
Definition ApplyShift_body (other_jets_p4 : list LorentzVector)
    (uncertainty_source : UncertaintySource) (scale : UncertaintyScale)
  : Method unit :=
  summaryInfo ← GetSummaryInfo;
  jecUncertainties ← lift (GetJecUncertainties summaryInfo);
  jets ← GetJets;
  m ← GetMET;
  let shifted_met_p4 := met_momentum m in
  let r := JEC_ApplyShift jecUncertainties jets uncertainty_source scale
             other_jets_p4 shifted_met_p4 in
  SetJets r.1;;
  SetMetMomentum r.2.

Definition ApplyShift (uncertainty_source : UncertaintySource)
    (scale : UncertaintyScale) : Method EventInfoBase :=
  fun this =>
    let shifted_event_info := EventInfoBase_copy this in
    match ApplyShift_body (other_jets_p4 (event this)) uncertainty_source scale
            shifted_event_info with
    | (inr _, shifted_event_info) => (inr shifted_event_info, this)
    | (inl e, _) => (inl e, this)
    end.

(** The memoized derived fields, the accessor of each and the member that
    stores it. *)
Inductive memoized_field : Type :=
| Leg1 | Leg2 | Jets | FatJets | Met | HiggsBB | KinFit | MT2.

Inductive derived : Type :=
| DLeg (l : LepCandidate)
| DJets (js : JetCollection)
| DFatJets (js : FatJetCollection)
| DMet (m : MET)
| DHiggsBB (h : HiggsBBCandidate)
| DKinFit (r : FitResults)
| DMT2 (v : Q).


Definition slot (f : memoized_field) (this : EventInfoBase) : option derived :=
  match f with
  | Leg1 => DLeg <$> leg1 this
  | Leg2 => DLeg <$> leg2 this
  | Jets => DJets <$> jets this
  | FatJets => DFatJets <$> fatJets this
  | Met => DMet <$> met this
  | HiggsBB => DHiggsBB <$> higgs_bb this
  | KinFit => DKinFit <$> kinfit_results this
  | MT2 => DMT2 <$> mt2 this
  end.

(** The constructor: the selection is computed once, the cache is empty.
    The trigger results it fills are left out, and with them the reading of
    [trigger_matches.at(selected_htt_index)]. *)
Definition new_EventInfoBase (_event : Event) (_selected_hh_index : N)
    (_period : Period) (_jet_ordering : JetOrdering)
    (_summaryInfo : option SummaryInfo) : result EventInfoBase :=
  s ← SelectSignalJets _event _period _jet_ordering;
  mret {| event := _event; summaryInfo := _summaryInfo;
          selected_htt_index := _selected_hh_index;
          selected_signal_jets := s;
          period := _period; jet_ordering := _jet_ordering;
          tuple_leg1 := None; leg1 := None; tuple_leg2 := None; leg2 := None;
          tuple_jets := None; jets := None;
          tuple_fatJets := None; fatJets := None;
          higgs_bb := None; tuple_met := None; met := None;
          kinfit_results := None; mt2 := None |}.

(** ** What an instance shows

    Definitions used to state what member functions keep. *)

(** The members fixed at construction. *)
Definition immutables (this : EventInfoBase) :=
  (event this, summaryInfo this, selected_htt_index this,
   selected_signal_jets this, period this, jet_ordering this).

Definition keeps {A B : Type} (f : EventInfoBase -> B) (m : Method A) : Prop :=
  forall this, f (m this).2 = f this.

(** What the accessors used by the kinematic fit return on an instance. *)
Definition observe (this : EventInfoBase) :=
  ((GetFirstLeg this).1, (GetSecondLeg this).1, (GetJets this).1,
   (GetMET this).1, immutables this).

(** The jets and the missing-energy candidate an instance builds from its
    record when its cache is empty. *)
Definition record_jets (ev : Event) : JetCollection :=
  (GetJets_loop ev (seq 0 (length (jets_p4 ev))) [] []).2.

Definition record_met (ev : Event) : MET :=
  mkMET (mkTupleMet PF) (TupleMet_p4 ev PF) (TupleMet_cov ev PF).

(** ** What the first call of an accessor needs

    Definitions used to state when an accessor computes its field. *)






End EventInfo.

(** * Jet selection on an instance and the scalar pt sum *)

Section SelectJets.
Context `{Col : Collaborators}.

(** [BTagger::Pass(event, n, wp)] with an explicit working point, the
    enumerators [DiscriminatorWP::Medium] and [JetOrdering::DeepCSV] and the
    default value of the parameter [low_eta_cut] of SelectJets are declared
    in headers that are not part of the sources. *)
Variable DiscriminatorWP : Type.
Variable Medium : DiscriminatorWP.
Variable PassWP : Period -> JetOrdering -> Event -> N -> DiscriminatorWP -> bool.
Variable DeepCSV : JetOrdering.
Variable low_eta_cut_default : Q.

(** [EventInfoBase::GetSelectedBjetIndices] *)
Definition GetSelectedBjetIndices : Method (N * N) :=
  s ← get selected_signal_jets;
  mret ((selectedBjetPair s).1, (selectedBjetPair s).2).

(** [EventInfoBase::GetSelectedBjetIndicesSet] *)
Definition GetSelectedBjetIndicesSet : Method (gset N) :=
  s ← get selected_signal_jets;
  let bjet_indexes : gset N := ∅ in
  let bjet_indexes := {[ (selectedBjetPair s).1 ]} ∪ bjet_indexes in
  let bjet_indexes := {[ (selectedBjetPair s).2 ]} ∪ bjet_indexes in
  mret bjet_indexes.

(** One turn of the first loop of SelectJets: [None] stands for
    [continue]. *)
Definition SelectJets_body (ev : Event) (period : Period)
    (jet_ordering : JetOrdering) (all_jets : JetCollection)
    (applyPu passBtag : bool) (jet_to_exclude_indexes : gset N)
    (low_eta_cut : Q) (n : N) : result (option JetInfo) :=
  jet ← at_ all_jets n;
  pu ← at_ (jets_pu_id ev) n;
  if negb (PassEcalNoiceVetoJets (jet_momentum jet) period pu) then mret None
  else if bool_decide (n ∈ jet_to_exclude_indexes) then mret None
  else if applyPu && (Z.land pu 2 =? 0)%Z then mret None
  else if Qltb (Qabs (eta (jet_momentum jet))) low_eta_cut then mret None
  else if passBtag && negb (PassWP period jet_ordering ev n Medium)
  then mret None
  else mret (Some (mkJetInfo (jet_momentum jet) n
                     (BTag period jet_ordering ev n))).

Fixpoint SelectJets_loop (ev : Event) (period : Period)
    (jet_ordering : JetOrdering) (all_jets : JetCollection)
    (applyPu passBtag : bool) (jet_to_exclude_indexes : gset N)
    (low_eta_cut : Q) (ns : list nat) (jet_info_vector : list JetInfo)
  : result (list JetInfo) :=
  match ns with
  | [] => mret jet_info_vector
  | n :: ns' =>
      o ← SelectJets_body ev period jet_ordering all_jets applyPu passBtag
            jet_to_exclude_indexes low_eta_cut (N.of_nat n);
      SelectJets_loop ev period jet_ordering all_jets applyPu passBtag
        jet_to_exclude_indexes low_eta_cut ns'
        (match o with
         | Some j => jet_info_vector ++ [j]
         | None => jet_info_vector
         end)
  end.

(** The second loop of SelectJets: the jets at the ranked indices. *)
Fixpoint SelectJets_collect (all_jets : JetCollection)
    (jets_ordered : list JetInfo) (selected_jets : JetCollection)
  : result JetCollection :=
  match jets_ordered with
  | [] => mret selected_jets
  | j :: jets_ordered' =>
      jet ← at_ all_jets (index j);
      SelectJets_collect all_jets jets_ordered' (selected_jets ++ [jet])
  end.

(** [EventInfoBase::SelectJets]; the tagger is built on the period of the
    instance and on the ordering passed to the call. *)
Definition SelectJets (pt_cut eta_cut : Q) (applyPu passBtag : bool)
    (jet_ordering : JetOrdering) (jet_to_exclude_indexes : gset N)
    (low_eta_cut : Q) : Method JetCollection :=
  all_jets ← GetJets;
  ev ← get event;
  period ← get period;
  jet_info_vector ← lift (SelectJets_loop ev period jet_ordering all_jets
                            applyPu passBtag jet_to_exclude_indexes low_eta_cut
                            (seq 0 (length all_jets)) []);
  let jets_ordered := OrderJets jet_info_vector true pt_cut eta_cut in
  lift (SelectJets_collect all_jets jets_ordered []).

(** [EventInfoBase::GetHT] *)
Definition GetHT (includeHbbJets apply_eta_cut : bool) : Method Q :=
  let other_jets_min_pt : Q := 20%Q in
  let other_jets_max_eta : Q := 4.7%Q in
  let eta_cut := if apply_eta_cut then other_jets_max_eta else 5%Q in
  jets_to_exclude ← (if includeHbbJets then mret (∅ : gset N)
                     else GetSelectedBjetIndicesSet);
  jets ← SelectJets other_jets_min_pt eta_cut false false DeepCSV
           jets_to_exclude low_eta_cut_default;
  mret (fold_left (fun ht jet => (ht + Pt (jet_momentum jet))%Q) jets 0%Q).

(** The jet at position [n] of [all_jets] as the first loop of SelectJets
    sees it, and the positions the loop keeps. *)
Definition select_candidate (ev : Event) (period : Period)
    (jet_ordering : JetOrdering) (all_jets : list JetCandidate)
    (applyPu passBtag : bool) (jet_to_exclude_indexes : gset N)
    (low_eta_cut : Q) (n : nat) : option JetInfo :=
  jet ← all_jets !! n;
  pu ← jets_pu_id ev !! n;
  if negb (PassEcalNoiceVetoJets (jet_momentum jet) period pu)
     || bool_decide (N.of_nat n ∈ jet_to_exclude_indexes)
     || (applyPu && (Z.land pu 2 =? 0)%Z)
     || Qltb (Qabs (eta (jet_momentum jet))) low_eta_cut
     || (passBtag && negb (PassWP period jet_ordering ev (N.of_nat n) Medium))
  then None
  else Some (mkJetInfo (jet_momentum jet) (N.of_nat n)
               (BTag period jet_ordering ev (N.of_nat n))).

(** The sum of the transverse momenta of a collection, as GetHT adds it
    up. *)
Definition sum_pt (jets : JetCollection) : Q :=
  fold_left (fun ht jet => (ht + Pt (jet_momentum jet))%Q) jets 0%Q.

Definition sumQ (l : list Q) : Q := fold_right Qplus 0%Q l.

(** The collection GetHT adds up, by the value of [includeHbbJets]. *)
Definition HT_jets (includeHbbJets apply_eta_cut : bool) : Method JetCollection :=
  fun this =>
    SelectJets 20%Q (if apply_eta_cut then 4.7%Q else 5%Q) false false DeepCSV
      (if includeHbbJets then ∅
       else {[ (selectedBjetPair (selected_signal_jets this)).2 ]}
            ∪ ({[ (selectedBjetPair (selected_signal_jets this)).1 ]} ∪ ∅))
      low_eta_cut_default this.

End SelectJets.

(** * Tau identification scale factors (TauIdWeight.cpp) *)

(** [x <= y] on the rationals standing for doubles *)
Definition Qleb (x y : Q) : bool := Qle_bool x y.

(** ** Floating-point values that decide a branch

    A [float] or [double] read by a comparison is a number or not-a-number;
    every comparison with a not-a-number is false, and [std::abs] of one is
    one.  An infinity compares like a number beyond every constant of the
    code and is not told apart from one. *)
Inductive float : Type :=
| NaN
| Num (q : Q).

(** [std::abs(x)] *)
Definition std_abs (x : float) : float :=
  match x with
  | NaN => NaN
  | Num q => Num (Qabs q)
  end.

(** [x < y], [x <= y], [x > y] and [x >= y] *)
Definition float_lt (x y : float) : bool :=
  match x, y with
  | Num a, Num b => Qltb a b
  | _, _ => false
  end.

Definition float_le (x y : float) : bool :=
  match x, y with
  | Num a, Num b => Qleb a b
  | _, _ => false
  end.

Definition float_gt (x y : float) : bool := float_lt y x.

Definition float_ge (x y : float) : bool := float_le y x.

Module TauIdWeight.

(** The enumerators of [DiscriminatorWP] and [GenMatch] that TauIdWeight.cpp
    names; the enumerations are declared in a header that is not part of the
    sources, and their remaining enumerators are kept apart by a number. *)
Inductive DiscriminatorWP : Type :=
| VLoose | Loose | Medium | Tight | VTight | VVTight
| OtherWP (id : nat).

Inductive GenMatch : Type :=
| Electron | Muon | TauElectron | TauMuon | Tau
| OtherMatch (id : nat).

#[global] Instance DiscriminatorWP_eq_dec : EqDecision DiscriminatorWP.
Proof. solve_decision. Defined.

#[global] Instance GenMatch_eq_dec : EqDecision GenMatch.
Proof. solve_decision. Defined.

(** [exception("...")] and [exception("WP %1% is not supported.") % iso_wp] *)
Inductive error : Type :=
| exception (what : string)
| exception_wp (what : string) (iso_wp : DiscriminatorWP).

(** A [PhysicalValue] as its constructor gets it: value and statistical
    error. *)
Record PhysicalValue := mkPhysicalValue {
  GetValue : Q;
  GetStatisticalError : Q;
}.

Section Weights.
(** [LorentzVectorM_Float] and its [eta()], a [float]. *)
Variable LorentzVectorM_Float : Type.
Variable eta : LorentzVectorM_Float -> float.

(** [PhysicalValue::GetRelativeStatisticalError] belongs to a library
    outside the sources. *)
Variable GetRelativeStatisticalError : PhysicalValue -> Q.

Definition TauIdWeight2016_GetIdIsoSF (p4 : LorentzVectorM_Float)
    (gen_match : GenMatch) (decay_mode : Z)
    (anti_ele_wp anti_mu_wp iso_wp : DiscriminatorWP) : Q := 1.

Definition TauIdWeight2016_GetTauIdEfficiencyUncertainty
    (iso_wp : DiscriminatorWP) (gen_match : GenMatch) : Q := 0.

Definition TauIdWeight2016_GetMuonMissIdUncertainty (p4 : LorentzVectorM_Float)
    (gen_match : GenMatch) (anti_mu_wp : DiscriminatorWP) : Q := 0.

Definition TauIdWeight2016_GetEleMissIdUncertainty (p4 : LorentzVectorM_Float)
    (gen_match : GenMatch) (anti_ele_wp : DiscriminatorWP) : Q := 0.

(** [TauIdWeight2017::getMuonMissId] *)
Definition getMuonMissId (p4 : LorentzVectorM_Float) (gen_match : GenMatch)
    (iso_wp : DiscriminatorWP) : error + PhysicalValue :=
  if negb (bool_decide (gen_match = Muon) || bool_decide (gen_match = TauMuon))
  then inr (mkPhysicalValue 1 0)
  else if negb (bool_decide (iso_wp = Loose) || bool_decide (iso_wp = Tight))
  then inl (exception_wp "WP %1% is not supported." iso_wp)
  else if float_lt (std_abs (eta p4)) (Num 0.4)
  then inr (if bool_decide (iso_wp = Loose) then mkPhysicalValue 1.06 0.05
            else mkPhysicalValue 1.17 0.12)
  else if float_ge (std_abs (eta p4)) (Num 0.4)
          && float_lt (std_abs (eta p4)) (Num 0.8)
  then inr (if bool_decide (iso_wp = Loose) then mkPhysicalValue 1.02 0.04
            else mkPhysicalValue 1.29 0.30)
  else if float_ge (std_abs (eta p4)) (Num 0.8)
          && float_lt (std_abs (eta p4)) (Num 1.2)
  then inr (if bool_decide (iso_wp = Loose) then mkPhysicalValue 1.10 0.04
            else mkPhysicalValue 1.14 0.05)
  else if float_ge (std_abs (eta p4)) (Num 1.2)
          && float_lt (std_abs (eta p4)) (Num 1.7)
  then inr (if bool_decide (iso_wp = Loose) then mkPhysicalValue 1.03 0.18
            else mkPhysicalValue 0.93 0.60)
  else if float_ge (std_abs (eta p4)) (Num 1.7)
          && float_lt (std_abs (eta p4)) (Num 2.3)
  then inr (if bool_decide (iso_wp = Loose) then mkPhysicalValue 1.94 0.35
            else mkPhysicalValue 1.61 0.60)
  else inl (exception "eta out of range").

(** [TauIdWeight2017::getEleMissId] *)
Definition getEleMissId (p4 : LorentzVectorM_Float) (gen_match : GenMatch)
    (iso_wp : DiscriminatorWP) : error + PhysicalValue :=
  if negb (bool_decide (gen_match = Electron)
           || bool_decide (gen_match = TauElectron))
  then inr (mkPhysicalValue 1 0)
  else if float_lt (std_abs (eta p4)) (Num 1.460) then
    if bool_decide (iso_wp = VLoose) then inr (mkPhysicalValue 1.09 0.01)
    else if bool_decide (iso_wp = Loose) then inr (mkPhysicalValue 1.17 0.04)
    else if bool_decide (iso_wp = Medium) then inr (mkPhysicalValue 1.40 0.12)
    else if bool_decide (iso_wp = Tight) then inr (mkPhysicalValue 1.80 0.20)
    else if bool_decide (iso_wp = VTight) then inr (mkPhysicalValue 1.96 0.27)
    else inl (exception_wp "WP %1% is not supported." iso_wp)
  else if float_gt (std_abs (eta p4)) (Num 1.558) then
    if bool_decide (iso_wp = VLoose) then inr (mkPhysicalValue 1.19 0.01)
    else if bool_decide (iso_wp = Loose) then inr (mkPhysicalValue 1.25 0.06)
    else if bool_decide (iso_wp = Medium) then inr (mkPhysicalValue 1.21 0.26)
    else if bool_decide (iso_wp = Tight) then inr (mkPhysicalValue 1.53 0.60)
    else if bool_decide (iso_wp = VTight) then inr (mkPhysicalValue 1.66 0.80)
    else inl (exception_wp "WP %1% is not supported." iso_wp)
  else if float_ge (std_abs (eta p4)) (Num 1.460)
          && float_le (std_abs (eta p4)) (Num 1.558)
  then inr (mkPhysicalValue 1 0)
  else inl (exception "eta out of range").

(** [TauIdWeight2017::getTauIso] *)
Definition getTauIso (iso_wp : DiscriminatorWP) (gen_match : GenMatch)
  : error + PhysicalValue :=
  if bool_decide (gen_match = Tau) then
    if bool_decide (iso_wp = VLoose) then inr (mkPhysicalValue 0.88 0.03)
    else if bool_decide (iso_wp = Loose) || bool_decide (iso_wp = Medium)
            || bool_decide (iso_wp = Tight)
    then inr (mkPhysicalValue 0.89 0.03)
    else if bool_decide (iso_wp = VTight) then inr (mkPhysicalValue 0.86 0.03)
    else if bool_decide (iso_wp = VVTight) then inr (mkPhysicalValue 0.84 0.03)
    else inl (exception_wp "WP %1% is not supported." iso_wp)
  else inr (mkPhysicalValue 1 0).

(** [TauIdWeight2017::getDmDependentTauIso]: [decay_SF_map[decay_mode]]
    value-initialises the entry of a decay mode that is not in the map. *)
Definition decay_SF_map : gmap Z Q :=
  <[10%Z := 0.90%Q]> (<[1%Z := 1.01%Q]> (<[0%Z := 1.06%Q]> ∅)).

Definition getDmDependentTauIso (gen_match : GenMatch) (decay_mode : Z)
  : PhysicalValue :=
  if bool_decide (gen_match = Tau)
  then mkPhysicalValue (default 0%Q (decay_SF_map !! decay_mode)) 0
  else mkPhysicalValue 1 0.

(** [TauIdWeight2017::GetIdIsoSF] *)
Definition GetIdIsoSF (p4 : LorentzVectorM_Float) (gen_match : GenMatch)
    (decay_mode : Z) (anti_ele_wp anti_mu_wp iso_wp : DiscriminatorWP)
  : error + Q :=
  match getTauIso iso_wp gen_match with
  | inl e => inl e
  | inr tau =>
      let tauSF := GetValue tau in
      match getMuonMissId p4 gen_match anti_mu_wp with
      | inl e => inl e
      | inr muon =>
          let muonSF := GetValue muon in
          match getEleMissId p4 gen_match anti_ele_wp with
          | inl e => inl e
          | inr ele =>
              let eleSF := GetValue ele in
              inr (tauSF * muonSF * eleSF)%Q
          end
      end
  end.

(** [TauIdWeight2017::GetTauIdEfficiencyUncertainty] *)
Definition GetTauIdEfficiencyUncertainty (iso_wp : DiscriminatorWP)
    (gen_match : GenMatch) : error + Q :=
  match getTauIso iso_wp gen_match with
  | inl e => inl e
  | inr v => inr (GetRelativeStatisticalError v)
  end.

(** [TauIdWeight2017::GetMuonMissIdUncertainty] *)
Definition GetMuonMissIdUncertainty (p4 : LorentzVectorM_Float)
    (gen_match : GenMatch) (anti_mu_wp : DiscriminatorWP) : error + Q :=
  match getMuonMissId p4 gen_match anti_mu_wp with
  | inl e => inl e
  | inr v => inr (GetRelativeStatisticalError v)
  end.

(** [TauIdWeight2017::GetEleMissIdUncertainty] *)
Definition GetEleMissIdUncertainty (p4 : LorentzVectorM_Float)
    (gen_match : GenMatch) (anti_ele_wp : DiscriminatorWP) : error + Q :=
  match getEleMissId p4 gen_match anti_ele_wp with
  | inl e => inl e
  | inr v => inr (GetRelativeStatisticalError v)
  end.

End Weights.

End TauIdWeight.

(** * The tuple producer (BaseTupleProducer.cc) *)

(** ** TupleStore: the event tuple shared by the producers *)

Module TupleStore.

(** What the store does to the output file. *)
Inductive effect : Type :=
| CreateEventTuple
| Write.

(** [++] and [--] on a [std::atomic<int>] wrap around. *)
Definition int_max : Z := 2147483647.

Definition wrap_int (z : Z) : Z := ((z + 2 ^ 31) mod 2 ^ 32 - 2 ^ 31)%Z.

Section Store.
(** The tuple [CreateEventTuple] returns; its contents play no part. *)
Variable EventTuple : Type.
Variable new_EventTuple : EventTuple.

(** The static members, and the creations and writes so far. *)
Record state := mkState {
  tuple_counter : Z;
  eventTuple_ptr : option EventTuple;
  effects : list effect;
}.

Definition initial : state :=
  {| tuple_counter := 0; eventTuple_ptr := None; effects := [] |}.

(** [TupleStore::GetTuple] *)
Definition GetTuple (s : state) : result EventTuple * state :=
  let s :=
    if (tuple_counter s =? 0)%Z
    then {| tuple_counter := tuple_counter s;
            eventTuple_ptr := Some new_EventTuple;
            effects := effects s ++ [CreateEventTuple] |}
    else s in
  let s := {| tuple_counter := wrap_int (tuple_counter s + 1);
              eventTuple_ptr := eventTuple_ptr s;
              effects := effects s |} in
  match eventTuple_ptr s with
  | Some t => (inr t, s)
  | None => (inl null_dereference, s)
  end.

(** [TupleStore::ReleaseEventTuple] *)
Definition ReleaseEventTuple (s : state) : result unit * state :=
  if (tuple_counter s =? 0)%Z
  then (throw "Tuple Counter equals zero.", s)
  else
    let s := {| tuple_counter := wrap_int (tuple_counter s - 1);
                eventTuple_ptr := eventTuple_ptr s;
                effects := effects s |} in
    if (tuple_counter s =? 0)%Z then
      match eventTuple_ptr s with
      | Some _ =>
          (inr tt, {| tuple_counter := tuple_counter s;
                      eventTuple_ptr := None;
                      effects := effects s ++ [Write] |})
      | None => (inl null_dereference, s)
      end
    else (inr tt, s).

(** The calls of the producers: the constructor of a producer gets the
    tuple, its [endJob] releases it. *)
Inductive call : Type :=
| Get
| Release.

Definition step (s : state) (c : call) : state :=
  match c with
  | Get => (GetTuple s).2
  | Release => (ReleaseEventTuple s).2
  end.

Definition run (cs : list call) (s : state) : state := fold_left step cs s.

(** [k] tuples created and written, one after the other. *)
Definition cycles (k : nat) : list effect :=
  concat (replicate k [CreateEventTuple; Write]).

(** The state after at most [n] calls: the counter is the number of
    producers that hold the tuple, the tuple exists exactly while the
    counter is not zero, and every tuple created before the current one has
    been written. *)
Definition store_inv (n : Z) (s : state) : Prop :=
  (0 <= tuple_counter s <= n)%Z /\
  (eventTuple_ptr s = None <-> tuple_counter s = 0%Z) /\
  exists k,
    effects s
    = cycles k ++ match eventTuple_ptr s with
       | Some _ => [CreateEventTuple]
       | None => []
       end.

End Store.

End TupleStore.

(** ** Relative isolation, identification of jets, leg indices *)

Module BaseTupleProducer.

(** The isolation sums of a [pat::Electron] ([pfIsolationVariables()]) or
    of a [pat::Muon] ([pfIsolationR04()]), and the pt of the lepton. *)
Record PFIsolation := mkPFIsolation {
  sumNeutralHadronEt : Q;
  sumPhotonEt : Q;
  sumPUPt : Q;
  sumChargedHadronPt : Q;
  lepton_pt : Q;
}.

(** [std::max(a, b)] *)
Definition std_max (a b : Q) : Q := if Qltb a b then b else a.

(** [BaseTupleProducer::Isolation], the same for both overloads *)
Definition Isolation (lepton : PFIsolation) : Q :=
  let sum_neutral := (sumNeutralHadronEt lepton + sumPhotonEt lepton
                      - 0.5 * sumPUPt lepton)%Q in
  let abs_iso := (sumChargedHadronPt lepton + std_max sum_neutral 0.0)%Q in
  (abs_iso / lepton_pt lepton)%Q.

(** The members of the uncorrected [pat::Jet] read by PassPFTightId: eta
    and the energy fractions are floating-point values, the multiplicities
    are integers. *)
Record PatJet := mkPatJet {
  jet_eta : float;
  neutralHadronEnergyFraction : float;
  neutralEmEnergyFraction : float;
  chargedHadronEnergyFraction : float;
  chargedEmEnergyFraction : float;
  nConstituents : Z;
  chargedMultiplicity : Z;
  neutralMultiplicity : Z;
}.

(** The enumerators of [analysis::Period] that the producer names; the
    enumeration is declared in a header that is not part of the sources. *)
Inductive Period : Type :=
| Run2016 | Run2017 | Run2018
| OtherPeriod (id : nat).

(** [BaseTupleProducer::PassPFTightId], on the jet that
    [pat_jet.correctedJet("Uncorrected")] returns *)
Definition PassPFTightId (patJet : PatJet) (period : Period) : result bool :=
  let abs_eta := std_abs (jet_eta patJet) in
  match period with
  | Run2016 =>
      if float_le abs_eta (Num 2.7)
         && (float_ge (neutralHadronEnergyFraction patJet) (Num 0.9)
             || float_ge (neutralEmEnergyFraction patJet) (Num 0.9)
             || (nConstituents patJet <=? 1)%Z) then mret false
      else if float_le abs_eta (Num 2.4)
         && (float_le (chargedHadronEnergyFraction patJet) (Num 0)
             || (chargedMultiplicity patJet <=? 0)%Z
             || float_ge (chargedEmEnergyFraction patJet) (Num 0.99))
      then mret false
      else if float_gt abs_eta (Num 2.7) && float_le abs_eta (Num 3.0)
         && (float_le (neutralEmEnergyFraction patJet) (Num 0.01)
             || float_ge (neutralHadronEnergyFraction patJet) (Num 0.98)
             || (neutralMultiplicity patJet <=? 2)%Z) then mret false
      else if float_gt abs_eta (Num 3.0)
         && (float_ge (neutralEmEnergyFraction patJet) (Num 0.9)
             || (neutralMultiplicity patJet <=? 10)%Z) then mret false
      else mret true
  | Run2017 =>
      if float_le abs_eta (Num 2.7)
         && (float_ge (neutralHadronEnergyFraction patJet) (Num 0.9)
             || float_ge (neutralEmEnergyFraction patJet) (Num 0.9)
             || (nConstituents patJet <=? 1)%Z) then mret false
      else if float_le abs_eta (Num 2.4)
         && (float_le (chargedHadronEnergyFraction patJet) (Num 0)
             || (chargedMultiplicity patJet <=? 0)%Z) then mret false
      else if float_gt abs_eta (Num 2.7) && float_le abs_eta (Num 3.0)
         && (float_le (neutralEmEnergyFraction patJet) (Num 0.02)
             || float_ge (neutralEmEnergyFraction patJet) (Num 0.99)
             || (neutralMultiplicity patJet <=? 2)%Z) then mret false
      else if float_gt abs_eta (Num 3.0)
         && (float_ge (neutralEmEnergyFraction patJet) (Num 0.9)
             || float_le (neutralHadronEnergyFraction patJet) (Num 0.02)
             || (neutralMultiplicity patJet <=? 10)%Z) then mret false
      else mret true
  | Run2018 =>
      if float_le abs_eta (Num 2.6)
         && (float_ge (neutralHadronEnergyFraction patJet) (Num 0.9)
             || float_ge (neutralEmEnergyFraction patJet) (Num 0.9)
             || (nConstituents patJet <=? 1)%Z
             || float_le (chargedHadronEnergyFraction patJet) (Num 0)
             || (chargedMultiplicity patJet <=? 0)%Z) then mret false
      else if float_gt abs_eta (Num 2.6) && float_le abs_eta (Num 2.7)
         && (float_ge (neutralHadronEnergyFraction patJet) (Num 0.9)
             || float_ge (neutralEmEnergyFraction patJet) (Num 0.99)
             || (chargedMultiplicity patJet <=? 0)%Z) then mret false
      else if float_gt abs_eta (Num 2.7) && float_le abs_eta (Num 3.0)
         && (float_le (neutralEmEnergyFraction patJet) (Num 0.02)
             || float_ge (neutralEmEnergyFraction patJet) (Num 0.99)
             || (neutralMultiplicity patJet <=? 2)%Z) then mret false
      else if float_gt abs_eta (Num 3.0)
         && (float_ge (neutralEmEnergyFraction patJet) (Num 0.9)
             || float_le (neutralHadronEnergyFraction patJet) (Num 0.2)
             || (neutralMultiplicity patJet <=? 10)%Z) then mret false
      else mret true
  | OtherPeriod _ => throw "PassPFTightId: period is not supported."
  end.

(** [size_t] addition *)
Definition size_t_add (a b : N) : N := (a + b) mod 2 ^ 64.

(** [BaseTupleProducer::FillHiggsDaughtersIndexes], on the two columns of
    the event tuple it appends to; the loop counter is an [unsigned], so the
    pairs are fewer than 2^32 *)
Definition FillHiggsDaughtersIndexes (higgses_pair_indexes : list (N * N))
    (shift : N) (columns : list N * list N) : list N * list N :=
  fold_left
    (fun columns higgs_pair =>
       (columns.1 ++ [higgs_pair.1],
        columns.2 ++ [size_t_add shift higgs_pair.2]))
    higgses_pair_indexes columns.

End BaseTupleProducer.

(** * The run summary (SummaryInfo) *)

Module Summary.

(** [exception("Information for channel %1% not found.") % channel], next
    to the exceptions of the calls made on the way. *)
Inductive error : Type :=
| thrown (e : exception)
| exception_channel (what : string) (channel : Z).

Section Summary.
Context `{Col : Collaborators}.

(** The members of [ProdSummary] read by the constructor. *)
Record ProdSummary := mkProdSummary {
  triggers_channel : list Z;
  triggers_pattern : list string;
}.

(** [TriggerDescriptorCollection] and the constructor of
    [jec::JECUncertaintiesWrapper] belong to code outside the sources; either
    may throw. *)
Variable TriggerDescriptorCollection : Type.
Variable new_TriggerDescriptorCollection : TriggerDescriptorCollection.
Variable Add :
  TriggerDescriptorCollection -> string -> result TriggerDescriptorCollection.
Variable new_JECUncertaintiesWrapper : string -> result JECUncertaintiesWrapper.

(** A channel is the integer it is cast from. *)
Abbreviation Channel := Z (only parsing).

Record SummaryInfo := mkSummaryInfo {
  summary : ProdSummary;
  triggerDescriptors : gmap Channel TriggerDescriptorCollection;
  jecUncertainties : option JECUncertaintiesWrapper;
}.

(** One turn of the loop of the constructor. *)
Definition add_trigger (summary : ProdSummary)
    (triggerDescriptors : gmap Channel TriggerDescriptorCollection) (n : N)
  : result (gmap Channel TriggerDescriptorCollection) :=
  channel_id ← at_ (triggers_channel summary) n;
  let channel : Channel := channel_id in
  let triggerDescriptors :=
    match triggerDescriptors !! channel with
    | None => <[channel := new_TriggerDescriptorCollection]> triggerDescriptors
    | Some _ => triggerDescriptors
    end in
  pattern ← at_ (triggers_pattern summary) n;
  match triggerDescriptors !! channel with
  | None => inl null_dereference
  | Some d =>
      d' ← Add d pattern;
      mret (<[channel := d']> triggerDescriptors)
  end.

Fixpoint add_triggers (summary : ProdSummary) (ns : list nat)
    (triggerDescriptors : gmap Channel TriggerDescriptorCollection)
  : result (gmap Channel TriggerDescriptorCollection) :=
  match ns with
  | [] => mret triggerDescriptors
  | n :: ns' =>
      triggerDescriptors ← add_trigger summary triggerDescriptors (N.of_nat n);
      add_triggers summary ns' triggerDescriptors
  end.

(** [SummaryInfo::SummaryInfo] *)
Definition new_SummaryInfo (_summary : ProdSummary)
    (_uncertainties_source : string) : result SummaryInfo :=
  triggerDescriptors ←
    add_triggers _summary (seq 0 (length (triggers_channel _summary))) ∅;
  jecUncertainties ←
    (if bool_decide (_uncertainties_source = EmptyString) then mret None
     else jec ← new_JECUncertaintiesWrapper _uncertainties_source;
          mret (Some jec));
  mret {| summary := _summary;
          triggerDescriptors := triggerDescriptors;
          jecUncertainties := jecUncertainties |}.

(** [SummaryInfo::GetTriggerDescriptors] *)
Definition GetTriggerDescriptors (this : SummaryInfo) (channel : Channel)
  : error + TriggerDescriptorCollection :=
  match triggerDescriptors this !! channel with
  | None => inl (exception_channel "Information for channel %1% not found."
                   channel)
  | Some d => inr d
  end.

(** [SummaryInfo::GetJecUncertainties] *)
Definition GetJecUncertainties (this : SummaryInfo)
  : result JECUncertaintiesWrapper :=
  match jecUncertainties this with
  | None => throw "Jec Uncertainties not stored."
  | Some j => mret j
  end.

(** The patterns that a list of (channel, pattern) pairs holds for a
    channel, and the patterns registered for a channel, in the order of the
    summary. *)
Definition patterns_of (channel : Channel) (cps : list (Z * string))
  : list string :=
  omap (fun cp : Z * string =>
          if bool_decide (cp.1 = channel) then Some cp.2 else None) cps.

Definition channel_patterns (summary : ProdSummary) (channel : Channel)
  : list string :=
  patterns_of channel
    (zip (triggers_channel summary) (triggers_pattern summary)).

(** [Add] over a list of patterns. *)
Fixpoint add_all (d : TriggerDescriptorCollection) (patterns : list string)
  : result TriggerDescriptorCollection :=
  match patterns with
  | [] => mret d
  | pattern :: patterns' => d' ← Add d pattern; add_all d' patterns'
  end.

End Summary.

End Summary.

(** * The cache as shared objects

    The cache members of EventInfoBase are [std::shared_ptr]s: an instance
    holds addresses, the objects live in a store common to all instances,
    and a copied pointer designates the object of the original.  The member
    functions of EventInfo.cpp are modelled here at that level, with the
    allocations ([make_shared], [new]), the writes through a pointer
    ([jets->push_back(...)], [kinfit_results->chi2 = ...]) and the reads
    through a pointer told apart.  No object is freed: an object that lost its
    last pointer stays in the store.  The mutex is left out, member functions
    run one at a time. *)

Module Shared.

Definition address : Type := positive.

(** The members of EventInfoBase that are shared pointers. *)
Inductive member : Type :=
| tuple_leg1 | leg1 | tuple_leg2 | leg2
| tuple_jets | jets | tuple_fatJets | fatJets
| higgs_bb | tuple_met | met | kinfit_results.

#[global] Instance member_eq_dec : EqDecision member.
Proof. solve_decision. Defined.

#[global] Instance member_countable : Countable member.
Proof.
  refine (inj_countable'
            (fun m =>
               match m with
               | tuple_leg1 => 0 | leg1 => 1 | tuple_leg2 => 2 | leg2 => 3
               | tuple_jets => 4 | jets => 5 | tuple_fatJets => 6
               | fatJets => 7 | higgs_bb => 8 | tuple_met => 9 | met => 10
               | kinfit_results => 11
               end%nat)
            (fun n =>
               match n with
               | 0 => tuple_leg1 | 1 => leg1 | 2 => tuple_leg2 | 3 => leg2
               | 4 => tuple_jets | 5 => jets | 6 => tuple_fatJets
               | 7 => fatJets | 8 => higgs_bb | 9 => tuple_met | 10 => met
               | _ => kinfit_results
               end%nat) _).
  by intros [].
Defined.

Section Shared.
Context `{Col : Collaborators}.

(** What a pointer of the cache designates. *)
Inductive object : Type :=
| a_TupleLepton (t : TupleLepton)
| a_LepCandidate (l : LepCandidate)
| a_TupleJets (ts : list TupleJet)
| a_JetCollection (js : JetCollection)
| a_TupleFatJets (ts : list TupleFatJet)
| a_FatJetCollection (js : FatJetCollection)
| a_HiggsBBCandidate (h : HiggsBBCandidate)
| a_TupleMet (t : TupleMet)
| a_MET (m : MET)
| a_FitResults (r : FitResults).

(** The types of the objects: [shared_ptr<A>] holds an [A]. *)
Class Stored (A : Type) := {
  to_object : A -> object;
  of_object : object -> option A;
}.

#[export] Instance TupleLepton_stored : Stored TupleLepton :=
  {| to_object := a_TupleLepton;
     of_object o := match o with a_TupleLepton t => Some t | _ => None end |}.

#[export] Instance LepCandidate_stored : Stored LepCandidate :=
  {| to_object := a_LepCandidate;
     of_object o := match o with a_LepCandidate l => Some l | _ => None end |}.

#[export] Instance TupleJets_stored : Stored (list TupleJet) :=
  {| to_object := a_TupleJets;
     of_object o := match o with a_TupleJets ts => Some ts | _ => None end |}.

#[export] Instance JetCollection_stored : Stored JetCollection :=
  {| to_object := a_JetCollection;
     of_object o := match o with a_JetCollection js => Some js | _ => None end |}.

#[export] Instance TupleFatJets_stored : Stored (list TupleFatJet) :=
  {| to_object := a_TupleFatJets;
     of_object o := match o with a_TupleFatJets ts => Some ts | _ => None end |}.

#[export] Instance FatJetCollection_stored : Stored FatJetCollection :=
  {| to_object := a_FatJetCollection;
     of_object o :=
       match o with a_FatJetCollection js => Some js | _ => None end |}.

#[export] Instance HiggsBBCandidate_stored : Stored HiggsBBCandidate :=
  {| to_object := a_HiggsBBCandidate;
     of_object o :=
       match o with a_HiggsBBCandidate h => Some h | _ => None end |}.

#[export] Instance TupleMet_stored : Stored TupleMet :=
  {| to_object := a_TupleMet;
     of_object o := match o with a_TupleMet t => Some t | _ => None end |}.

#[export] Instance MET_stored : Stored MET :=
  {| to_object := a_MET;
     of_object o := match o with a_MET m => Some m | _ => None end |}.

#[export] Instance FitResults_stored : Stored FitResults :=
  {| to_object := a_FitResults;
     of_object o := match o with a_FitResults r => Some r | _ => None end |}.

(** The objects allocated so far. *)
Abbreviation heap := (gmap address object) (only parsing).

(** An instance: the members fixed at construction, the pointers that are
    not null, and the [boost::optional] that holds MT2 by value. *)
Record EventInfoBase := mkEventInfoBase {
  event : Event;
  summaryInfo : option SummaryInfo;
  selected_htt_index : N;
  selected_signal_jets : SelectedSignalJets;
  period : Period;
  jet_ordering : JetOrdering;
  pointers : gmap member address;
  mt2 : option Q;
}.

Definition set_pointer (this : EventInfoBase) (m : member) (l : address)
  : EventInfoBase :=
  mkEventInfoBase (event this) (summaryInfo this) (selected_htt_index this)
    (selected_signal_jets this) (period this) (jet_ordering this)
    (<[m := l]> (pointers this)) (mt2 this).

Definition set_mt2 (this : EventInfoBase) (v : option Q) : EventInfoBase :=
  mkEventInfoBase (event this) (summaryInfo this) (selected_htt_index this)
    (selected_signal_jets this) (period this) (jet_ordering this)
    (pointers this) v.

(** Member functions: the instance and the store are threaded through, and
    the state reached before an exception is thrown is kept. *)
Definition state : Type := EventInfoBase * heap.

Definition Method (A : Type) : Type := state -> result A * state.

#[export] Instance Method_ret : MRet Method := fun A a s => (inr a, s).
#[export] Instance Method_bind : MBind Method := fun A B f m s =>
  match m s with
  | (inr a, s') => f a s'
  | (inl e, s') => (inl e, s')
  end.

Definition mthrow {A : Type} (what : string) : Method A :=
  fun s => (throw what, s).

Definition lift {A : Type} (r : result A) : Method A :=
  fun s => (r, s).

Definition get {A : Type} (f : EventInfoBase -> A) : Method A :=
  fun s => (inr (f s.1), s).

(** [m], a pointer that is null or not *)
Definition pointer (m : member) : Method (option address) :=
  get (fun this => pointers this !! m).

(** [m = std::make_shared<A>(a)]: a new object, at an address no object
    had so far *)
Definition make_shared {A : Type} `{Stored A} (m : member) (a : A)
  : Method unit :=
  fun s =>
    let l := fresh (dom s.2) in
    (inr tt, (set_pointer s.1 m l, <[l := to_object a]> s.2)).

(** [*m] *)
Definition deref {A : Type} `{Stored A} (m : member) : Method A :=
  fun s =>
    match l ← pointers s.1 !! m; o ← s.2 !! l; of_object o with
    | Some a => (inr a, s)
    | None => (inl null_dereference, s)
    end.

(** A write through [m]: the object [m] designates is changed where it
    is, for every pointer that designates it. *)
Definition update {A : Type} `{Stored A} (m : member) (f : A -> A)
  : Method unit :=
  fun s =>
    match pointers s.1 !! m with
    | Some l =>
        match o ← s.2 !! l; of_object o with
        | Some a => (inr tt, (s.1, <[l := to_object (f a)]> s.2))
        | None => (inl null_dereference, s)
        end
    | None => (inl null_dereference, s)
    end.

(** [mt2 = v] *)
Definition assign_mt2 (v : Q) : Method unit :=
  fun s => (inr tt, (set_mt2 s.1 (Some v), s.2)).

(** A loop over the indices [ns]. *)
Fixpoint for_each (ns : list nat) (body : nat -> Method unit) : Method unit :=
  match ns with
  | [] => mret tt
  | n :: ns' => body n;; for_each ns' body
  end.

(** Modelled from the spec: the copy constructor of EventInfoBase is declared
    in EventInfo.h, which is not part of the sources.  By the spec an
    EventInfo has value semantics, copying yields an independent cache, and
    the clone made by the shift starts with an entirely empty derived-field
    cache while the record reference, the selection, the period and the
    ordering policy carry over: every pointer of the clone is null.  The
    leg-pair index and the run summary, which the shift reads from the clone,
    are construction arguments like those four and are kept with them. *)
Definition EventInfoBase_copy (other : EventInfoBase) : EventInfoBase :=
  {| event := event other;
     summaryInfo := summaryInfo other;
     selected_htt_index := selected_htt_index other;
     selected_signal_jets := selected_signal_jets other;
     period := period other;
     jet_ordering := jet_ordering other;
     pointers := ∅;
     mt2 := None |}.

Definition GetNJets : Method N :=
  get (fun this => size (jets_p4 (event this))).

Definition GetNFatJets : Method N :=
  get (fun this => size (fatJets_p4 (event this))).

Definition GetSummaryInfo : Method SummaryInfo :=
  s ← get summaryInfo;
  match s with
  | None => mthrow "SummaryInfo was not provided for this event."
  | Some s => mret s
  end.

Definition EventInfoBase_HasBjetPair : Method bool :=
  njets ← GetNJets;
  get (fun this => HasBjetPair (selected_signal_jets this) njets).

Definition EventInfoBase_HasVBFjetPair : Method bool :=
  njets ← GetNJets;
  get (fun this => HasVBFPair (selected_signal_jets this) njets).

Definition GetLegIndex (leg_id : N) : Method N :=
  if leg_id =? 1 then
    i ← get selected_htt_index;
    ev ← get event;
    lift (at_ (first_daughter_indexes ev) i)
  else if leg_id =? 2 then
    i ← get selected_htt_index;
    ev ← get event;
    lift (at_ (second_daughter_indexes ev) i)
  else lift (inl (analysis_exception_arg "Invalid leg id = %1%." leg_id)).

Definition GetFirstLeg : Method LepCandidate :=
  p ← pointer leg1;
  match p with
  | Some _ => mret tt
  | None =>
      i ← GetLegIndex 1;
      ev ← get event;
      make_shared tuple_leg1 (mkTupleLepton i);;
      make_shared leg1 (new_LepCandidate ev (mkTupleLepton i))
  end;;
  deref leg1.

Definition GetSecondLeg : Method LepCandidate :=
  p ← pointer leg2;
  match p with
  | Some _ => mret tt
  | None =>
      i ← GetLegIndex 2;
      ev ← get event;
      make_shared tuple_leg2 (mkTupleLepton i);;
      make_shared leg2 (new_LepCandidate ev (mkTupleLepton i))
  end;;
  deref leg2.

(** Modelled from the spec: [GetLeg] is a virtual member declared in
    EventInfo.h, which is not part of the sources.  By the spec the two legs
    are built from the fixed per-event leg indices, and a leg index outside
    1 and 2 is an error. *)
Definition GetLeg (leg_id : N) : Method LepCandidate :=
  if leg_id =? 1 then GetFirstLeg
  else if leg_id =? 2 then GetSecondLeg
  else lift (inl (analysis_exception_arg "Invalid leg id = %1%." leg_id)).

Definition GetJets : Method JetCollection :=
  p ← pointer jets;
  match p with
  | Some _ => mret tt
  | None =>
      make_shared jets ([] : JetCollection);;
      make_shared tuple_jets ([] : list TupleJet);;
      ev ← get event;
      for_each (seq 0 (length (jets_p4 ev)))
        (fun n =>
           let t := mkTupleJet (N.of_nat n) in
           update tuple_jets (fun ts => ts ++ [t]);;
           update jets (fun js : JetCollection => js ++ [new_JetCandidate ev t]))
  end;;
  deref jets.

Definition SetJets (new_jets : JetCollection) : Method unit :=
  make_shared jets new_jets.

Definition GetFatJets : Method FatJetCollection :=
  p ← pointer fatJets;
  match p with
  | Some _ => mret tt
  | None =>
      make_shared fatJets ([] : FatJetCollection);;
      make_shared tuple_fatJets ([] : list TupleFatJet);;
      ev ← get event;
      for_each (seq 0 (length (fatJets_p4 ev)))
        (fun n =>
           let t := mkTupleFatJet (N.of_nat n) in
           update tuple_fatJets (fun ts => ts ++ [t]);;
           update fatJets
             (fun js : FatJetCollection => js ++ [new_FatJetCandidate ev t]))
  end;;
  deref fatJets.

Definition GetVBFJet (index : N) : Method JetCandidate :=
  has ← EventInfoBase_HasVBFjetPair;
  if negb has || (negb (index =? 1) && negb (index =? 2))
  then mthrow "VBF jet not found."
  else
    js ← GetJets;
    s ← get selected_signal_jets;
    if index =? 1 then lift (at_ js (selectedVBFjetPair s).1)
    else lift (at_ js (selectedVBFjetPair s).2).

Definition GetBJet (index : N) : Method JetCandidate :=
  has ← EventInfoBase_HasBjetPair;
  if negb has || (negb (index =? 1) && negb (index =? 2))
  then mthrow "B jet not found."
  else
    js ← GetJets;
    s ← get selected_signal_jets;
    if index =? 1 then lift (at_ js (selectedBjetPair s).1)
    else lift (at_ js (selectedBjetPair s).2).

Definition GetHiggsBB : Method HiggsBBCandidate :=
  has ← EventInfoBase_HasBjetPair;
  if negb has then mthrow "Can't create H->bb candidate."
  else
    p ← pointer higgs_bb;
    match p with
    | Some _ => mret tt
    | None =>
        js ← GetJets;
        s ← get selected_signal_jets;
        j1 ← lift (at_ js (selectedBjetPair s).1);
        j2 ← lift (at_ js (selectedBjetPair s).2);
        make_shared higgs_bb (mkHiggsBB j1 j2)
    end;;
    deref higgs_bb.

Definition GetMET : Method MET :=
  p ← pointer met;
  match p with
  | Some _ => mret tt
  | None =>
      ev ← get event;
      make_shared tuple_met (mkTupleMet PF);;
      make_shared met
        (mkMET (mkTupleMet PF) (TupleMet_p4 ev PF) (TupleMet_cov ev PF))
  end;;
  deref met.

(** Modelled from the spec: [SetMetMomentum] is defined in EventInfo.h,
    which is not part of the sources.  By the spec the shifted
    missing-energy vector overwrites the corresponding field of the clone:
    the missing-energy candidate the instance points to gets the new
    momentum where it is.  (A member function that allocated a new
    candidate instead would write to no object at all.) *)
Definition SetMetMomentum (new_met_p4 : LorentzVector) : Method unit :=
  GetMET;;
  update met
    (fun m => mkMET (met_tuple m) new_met_p4 (met_covariance m)).

(** The branch of GetKinFitResults taken when the pair is not in the side
    table (lines 372-381): the arguments are evaluated from left to right. *)
Definition GetKinFitResults_fit (ev : Event) : Method unit :=
  b1 ← GetBJet 1; b1' ← GetBJet 1;
  let energy_resolution_1 :=
    (TupleJet_resolution ev (jet_id (jet_tuple b1)) * E (jet_momentum b1'))%Q in
  b2 ← GetBJet 2; b2' ← GetBJet 2;
  let energy_resolution_2 :=
    (TupleJet_resolution ev (jet_id (jet_tuple b2)) * E (jet_momentum b2'))%Q in
  l1 ← GetLeg 1; l2 ← GetLeg 2;
  j1 ← GetBJet 1; j2 ← GetBJet 2;
  m ← GetMET;
  let result :=
    Fit (lep_momentum l1) (lep_momentum l2)
      (jet_momentum j1) (jet_momentum j2) m
      energy_resolution_1 energy_resolution_2 in
  update kinfit_results (fun r => set_convergence r (convergence result));;
  update kinfit_results (fun r => set_chi2 r (chi2 result));;
  update kinfit_results
    (fun r => set_probability r (TMath_Prob (chi2 result) 2));;
  update kinfit_results (fun r => set_mass r (mass result)).

(** The branch taken when the pair is found at [index] (lines 384-388). *)
Definition GetKinFitResults_stored (ev : Event) (index : nat) : Method unit :=
  c ← lift (at_ (kinFit_convergence ev) (N.of_nat index));
  update kinfit_results (fun r => set_convergence r c);;
  x ← lift (at_ (kinFit_chi2 ev) (N.of_nat index));
  update kinfit_results (fun r => set_chi2 r x);;
  update kinfit_results
    (fun r => set_probability r (TMath_Prob (chi2 r) 2));;
  m ← lift (at_ (kinFit_m ev) (N.of_nat index));
  update kinfit_results (fun r => set_mass r m).

Definition GetKinFitResults : Method FitResults :=
  has ← EventInfoBase_HasBjetPair;
  if negb has then mthrow "Can't retrieve KinFit results."
  else
    p ← pointer kinfit_results;
    match p with
    | Some _ => mret tt
    | None =>
        s ← get selected_signal_jets;
        njets ← GetNJets;
        ev ← get event;
        let pairId := CombinationPairToIndex (selectedBjetPair s) njets in
        let iter := find_index pairId (kinFit_jetPairId ev) in
        make_shared kinfit_results FitResults_default;;
        match iter with
        | None => GetKinFitResults_fit ev
        | Some index => GetKinFitResults_stored ev index
        end
    end;;
    deref kinfit_results.

Definition GetResonanceMomentum (useSVfit addMET : bool)
  : Method LorentzVector :=
  if useSVfit && addMET then mthrow "Can't add MET and with SVfit applied."
  else
    ev ← get event;
    i ← get selected_htt_index;
    htt ← lift (HiggsTTMomentum ev i useSVfit);
    hbb ← GetHiggsBB;
    let p4 := p4_add htt (HiggsBB_momentum hbb) in
    if addMET then
      m ← GetMET;
      mret (p4_add p4 (met_momentum m))
    else mret p4.

Definition GetMT2 : Method Q :=
  v ← get mt2;
  match v with
  | Some v => mret v
  | None =>
      l1 ← GetLeg 1; l2 ← GetLeg 2;
      h1 ← GetHiggsBB; h2 ← GetHiggsBB;
      ev ← get event;
      let v := Calculate_MT2 (lep_momentum l1) (lep_momentum l2)
                 (jet_momentum (first_daughter h1))
                 (jet_momentum (second_daughter h2)) (pfMET_p4 ev) in
      assign_mt2 v;;
      mret v
  end.

(** [EventInfoBase::ApplyShift]: the clone is a local of the member
    function and is returned by value; [this] is only read. *)
Definition ApplyShift_body (other_jets_p4 : list LorentzVector)
    (uncertainty_source : UncertaintySource) (scale : UncertaintyScale)
  : Method unit :=
  summaryInfo ← GetSummaryInfo;
  jecUncertainties ← lift (GetJecUncertainties summaryInfo);
  jets ← GetJets;
  m ← GetMET;
  let shifted_met_p4 := met_momentum m in
  let r := JEC_ApplyShift jecUncertainties jets uncertainty_source scale
             other_jets_p4 shifted_met_p4 in
  SetJets r.1;;
  SetMetMomentum r.2.

Definition ApplyShift (uncertainty_source : UncertaintySource)
    (scale : UncertaintyScale) : Method EventInfoBase :=
  fun s =>
    let shifted_event_info := EventInfoBase_copy s.1 in
    match ApplyShift_body (other_jets_p4 (event s.1)) uncertainty_source scale
            (shifted_event_info, s.2) with
    | (inr _, (shifted_event_info, h)) => (inr shifted_event_info, (s.1, h))
    | (inl e, (_, h)) => (inl e, (s.1, h))
    end.

(** The constructor: the selection is computed once, every pointer is null.
    The trigger results it fills are left out, and with them the reading of
    [trigger_matches.at(selected_htt_index)]. *)
Definition new_EventInfoBase (_event : Event) (_selected_hh_index : N)
    (_period : Period) (_jet_ordering : JetOrdering)
    (_summaryInfo : option SummaryInfo) : result EventInfoBase :=
  s ← SelectSignalJets _event _period _jet_ordering;
  mret {| event := _event; summaryInfo := _summaryInfo;
          selected_htt_index := _selected_hh_index;
          selected_signal_jets := s;
          period := _period; jet_ordering := _jet_ordering;
          pointers := ∅; mt2 := None |}.

(** ** Instances in memory

    Instances live at addresses of their own; a member function runs on the
    instance at [this] and on the store of objects, and writes both back,
    whether it returns or throws.  A call through a dangling address has no
    outcome. *)

Record memory := mkMemory {
  instances : gmap positive EventInfoBase;
  objects : heap;
}.

Definition call {A : Type} (this : positive) (m : Method A) (μ : memory)
  : option (result A * memory) :=
  match instances μ !! this with
  | Some e =>
      let r := m (e, objects μ) in
      Some (r.1, mkMemory (<[this := r.2.1]> (instances μ)) r.2.2)
  | None => None
  end.

(** [shifted = original.ApplyShift(uncertainty_source, scale)] *)
Definition assign_ApplyShift (shifted original : positive)
    (uncertainty_source : UncertaintySource) (scale : UncertaintyScale)
    (μ : memory) : option (result unit * memory) :=
  match call original (ApplyShift uncertainty_source scale) μ with
  | Some (inr v, μ') =>
      Some (inr tt, mkMemory (<[shifted := v]> (instances μ')) (objects μ'))
  | Some (inl e, μ') => Some (inl e, μ')
  | None => None
  end.

(** The member functions of EventInfo.cpp that read or fill the cache, with
    their arguments. *)
Inductive member_function : Type :=
| call_GetFirstLeg
| call_GetSecondLeg
| call_GetLeg (leg_id : N)
| call_GetJets
| call_SetJets (new_jets : JetCollection)
| call_GetFatJets
| call_GetVBFJet (index : N)
| call_GetBJet (index : N)
| call_GetHiggsBB
| call_GetMET
| call_SetMetMomentum (new_met_p4 : LorentzVector)
| call_GetKinFitResults
| call_GetResonanceMomentum (useSVfit addMET : bool)
| call_GetMT2
| call_ApplyShift (uncertainty_source : UncertaintySource)
    (scale : UncertaintyScale).

(** The call of a member function, its result dropped. *)
Definition invoke (c : member_function) : Method unit :=
  match c with
  | call_GetFirstLeg => GetFirstLeg;; mret tt
  | call_GetSecondLeg => GetSecondLeg;; mret tt
  | call_GetLeg leg_id => GetLeg leg_id;; mret tt
  | call_GetJets => GetJets;; mret tt
  | call_SetJets new_jets => SetJets new_jets
  | call_GetFatJets => GetFatJets;; mret tt
  | call_GetVBFJet index => GetVBFJet index;; mret tt
  | call_GetBJet index => GetBJet index;; mret tt
  | call_GetHiggsBB => GetHiggsBB;; mret tt
  | call_GetMET => GetMET;; mret tt
  | call_SetMetMomentum new_met_p4 => SetMetMomentum new_met_p4
  | call_GetKinFitResults => GetKinFitResults;; mret tt
  | call_GetResonanceMomentum useSVfit addMET =>
      GetResonanceMomentum useSVfit addMET;; mret tt
  | call_GetMT2 => GetMT2;; mret tt
  | call_ApplyShift uncertainty_source scale =>
      ApplyShift uncertainty_source scale;; mret tt
  end.

(** A sequence of calls on one instance; an exception thrown by a call is
    caught by the caller, who goes on with the next call. *)
Fixpoint run_calls (this : positive) (cs : list member_function)
    (μ : memory) : option memory :=
  match cs with
  | [] => Some μ
  | c :: cs' =>
      match call this (invoke c) μ with
      | Some (_, μ') => run_calls this cs' μ'
      | None => None
      end
  end.

(** The object a member of an instance designates, if any. *)
Definition cached (h : heap) (this : EventInfoBase) (m : member)
  : option object :=
  l ← pointers this !! m; h !! l.

(** Since the store was [h0], no object of [h0] has been written, and the
    members in [W] of the instance have been given new objects or are
    null: none of them designates an object of [h0]. *)
Definition new_since (h0 : heap) (W : member -> Prop) (s : state) : Prop :=
  h0 ⊆ s.2 /\
  forall m l, W m -> pointers s.1 !! m = Some l -> h0 !! l = None.

(** [W] and the member [m] *)
Definition and_member (W : member -> Prop) (m : member) : member -> Prop :=
  fun m' => W m' \/ m' = m.

(** A member function writes only through the members in [W], and through
    those it has given a new object itself. *)
Definition writes_new {A : Type} (W : member -> Prop) (f : Method A) : Prop :=
  forall h0 s, new_since h0 W s -> new_since h0 W (f s).2.

End Shared.

End Shared.

(** * A small instance

    Concrete collaborators and records on which the definitions evaluate.
    The kinematics is a stand-in: a vector is given by its pt, eta, energy
    and mass, and the mass of a sum grows with the separation in eta. *)

Record PtEtaEM := mkP4 { v_pt : Q; v_eta : Q; v_e : Q; v_m : Q }.

Definition toy_kinematics : Kinematics :=
  {| LorentzVector := PtEtaEM;
     Pt := v_pt; eta := v_eta; E := v_e; M := v_m;
     p4_add := fun a b =>
       mkP4 (v_pt a + v_pt b) 0 (v_e a + v_e b)
         (v_m a + v_m b + (v_pt a + v_pt b) * Qabs (v_eta a - v_eta b)) |}.

Section Toy.
#[local] Existing Instance toy_kinematics.

Definition column_at (c : list Q) (n : N) : Q := default 0%Q (c !! N.to_nat n).

(** A tagger on the sum of the three DeepFlavour b scores, medium working
    point at 3/10, thresholds pt > 20 and |eta| < 12/5; no noise veto; VBF
    thresholds pt > 30 and |eta| < 47/10. *)
Definition toy_BTag (ev : Event) (n : N) : Q :=
  (column_at (jets_deepFlavour_b ev) n + column_at (jets_deepFlavour_bb ev) n
   + column_at (jets_deepFlavour_lepb ev) n)%Q.

Definition toy_jet_tools : JetTools :=
  {| Period := unit;
     JetOrdering := unit;
     PtCut := fun _ _ => 20%Q;
     EtaCut := fun _ _ => (12 # 5)%Q;
     BTag := fun _ _ => toy_BTag;
     Pass := fun _ _ ev n => Qltb (3 # 10) (toy_BTag ev n);
     PassEcalNoiceVetoJets := fun _ _ _ => true;
     vbf_pt_cut := 30%Q;
     vbf_eta_cut := (47 # 10)%Q |}.

#[local] Existing Instance toy_jet_tools.

Definition p4_at (c : list PtEtaEM) (n : N) : PtEtaEM :=
  default (mkP4 0 0 0 0) (c !! N.to_nat n).

Definition scale_p4 (k : Q) (v : PtEtaEM) : PtEtaEM :=
  mkP4 (k * v_pt v) (v_eta v) (k * v_e v) (k * v_m v).

Definition toy_collaborators : Collaborators :=
  {| TupleLepton_p4 := fun ev n => p4_at (lep_p4 ev) n;
     TupleLepton_iso := fun ev n => column_at (lep_iso ev) n;
     TupleJet_p4 := fun ev n => p4_at (jets_p4 ev) n;
     TupleJet_resolution := fun ev n => column_at (jets_resolution ev) n;
     TupleFatJet_p4 := fun ev n => p4_at (fatJets_p4 ev) n;
     TupleMet_p4 := fun ev _ => pfMET_p4 ev;
     TupleMet_cov := fun ev _ => pfMET_cov ev;
     CombinationPairToIndex := fun p n => p.1 * n + p.2;
     FitResults_default := mkFitResults 0 0 0 0;
     Fit := fun l1 l2 b1 b2 m r1 r2 =>
       mkFitResults 0 (r1 + r2) 0
         (v_m (p4_add (p4_add l1 l2) (p4_add b1 b2)));
     TMath_Prob := fun x ndf => (1 / (1 + x))%Q;
     Calculate_MT2 := fun l1 l2 b1 b2 m =>
       (v_pt l1 + v_pt l2 + v_pt b1 + v_pt b2 + v_pt m)%Q;
     UncertaintySource := unit;
     UncertaintyScale := Z;
     JECUncertaintiesWrapper := Q;
     JEC_ApplyShift := fun jec js _ scale _ met_p4 =>
       let k := (1 + inject_Z scale * jec)%Q in
       (List.map
          (fun j => mkJetCandidate (jet_tuple j) (scale_p4 k (jet_momentum j)))
          js,
        scale_p4 (2 - k) met_p4);
     HiggsTTMomentum := fun ev i _ =>
       inr (p4_add (p4_at (lep_p4 ev) 0) (p4_at (lep_p4 ev) 1)) |}.

#[local] Existing Instance toy_collaborators.

(** A record with the given jets (momentum, DeepFlavour b score, pile-up
    id), two legs and the given kinematic-fit side table. *)
Definition toy_event (js : list (PtEtaEM * Q * Z))
    (fit : list (N * Q * Q * Z)) : Event :=
  {| jets_p4 := (fun j => j.1.1) <$> js;
     jets_csv := (fun _ => 0%Q) <$> js;
     jets_deepCsv_BvsAll := (fun _ => 0%Q) <$> js;
     jets_deepFlavour_b := (fun j => j.1.2) <$> js;
     jets_deepFlavour_bb := (fun _ => 0%Q) <$> js;
     jets_deepFlavour_lepb := (fun _ => 0%Q) <$> js;
     jets_pu_id := (fun j => j.2) <$> js;
     jets_resolution := (fun _ => (1 # 10)%Q) <$> js;
     other_jets_p4 := [];
     fatJets_p4 := [];
     pfMET_p4 := mkP4 35 0 35 0;
     pfMET_cov := (1, 0, 0, 1)%Q;
     lep_p4 := [mkP4 45 (1 # 5) 46 (1 # 10); mkP4 38 (- (3 # 10)) 40 (9 # 5)];
     lep_iso := [(1 # 20)%Q; (9 # 10)%Q];
     kinFit_jetPairId := (fun f => f.1.1.1) <$> fit;
     kinFit_m := (fun f => f.1.1.2) <$> fit;
     kinFit_chi2 := (fun f => f.1.2) <$> fit;
     kinFit_convergence := (fun f => f.2) <$> fit;
     first_daughter_indexes := [0];
     second_daughter_indexes := [1] |}.

Definition central_b : PtEtaEM * Q * Z := (mkP4 50 (1 # 2) 60 5, 9 # 10, 7%Z).
Definition central_b2 : PtEtaEM * Q * Z := (mkP4 40 (- 1) 65 4, 1 # 2, 7%Z).
Definition central_light : PtEtaEM * Q * Z := (mkP4 40 (- 1) 65 4, 1 # 5, 7%Z).
Definition soft_jet : PtEtaEM * Q * Z := (mkP4 15 0 15 2, 1 # 10, 7%Z).
Definition forward_1 : PtEtaEM * Q * Z := (mkP4 60 3 600 6, 1 # 20, 7%Z).
Definition forward_2 : PtEtaEM * Q * Z := (mkP4 45 (- (7 # 2)) 700 5, 1 # 20, 7%Z).
Definition forward_3 : PtEtaEM * Q * Z := (mkP4 35 4 900 3, 1 # 20, 7%Z).

(** One jet passing all cuts. *)
Definition event_one_jet : Event := toy_event [central_b] [].

(** One jet passing the cuts of the b-tag ranking, two forward jets. *)
Definition event_one_b : Event := toy_event [central_b; forward_1; forward_2] [].

(** Two jets passing all cuts, the second below the medium working point. *)
Definition event_fallback : Event := toy_event [central_b; central_light] [].

(** Two tagged jets and a third jet below the pt cut. *)
Definition event_three_jets : Event :=
  toy_event [central_b; central_b2; soft_jet] [].

(** Two tagged jets, three forward jets, and a side table that holds the
    key of the pair (0, 1) at its second position. *)
Definition event_vbf : Event :=
  toy_event [central_b; central_b2; forward_1; forward_2; forward_3]
    [(7, 300%Q, 5%Q, 0%Z); (1, 350%Q, 3%Q, 1%Z)].

Definition toy_summary : SummaryInfo := {| jecUncertainties := Some (1 # 20)%Q |}.

(** The instance the constructor builds on a record, with the first
    leg pair and the run summary. *)
Definition construct (ev : Event) : result EventInfoBase :=
  new_EventInfoBase ev 0 tt tt (Some toy_summary).

Definition instance_of (ev : Event) : EventInfoBase :=
  match construct ev with
  | inr this => this
  | inl _ =>
      {| event := ev; summaryInfo := Some toy_summary;
         selected_htt_index := 0;
         selected_signal_jets := SelectedSignalJets_default;
         period := tt; jet_ordering := tt;
         tuple_leg1 := None; leg1 := None; tuple_leg2 := None; leg2 := None;
         tuple_jets := None; jets := None;
         tuple_fatJets := None; fatJets := None;
         higgs_bb := None; tuple_met := None; met := None;
         kinfit_results := None; mt2 := None |}
  end.

(** The same instance with its cache as shared objects, none allocated. *)
Definition shared_instance_of (ev : Event) : Shared.EventInfoBase :=
  match Shared.new_EventInfoBase ev 0 tt tt (Some toy_summary) with
  | inr this => this
  | inl _ =>
      {| Shared.event := ev; Shared.summaryInfo := Some toy_summary;
         Shared.selected_htt_index := 0;
         Shared.selected_signal_jets := SelectedSignalJets_default;
         Shared.period := tt; Shared.jet_ordering := tt;
         Shared.pointers := ∅; Shared.mt2 := None |}
  end.

(** The result of the solver on the record with three jets. *)
Definition fit_three_jets : FitResults :=
  let ev := event_three_jets in
  let l1 := new_LepCandidate ev (mkTupleLepton 0) in
  let l2 := new_LepCandidate ev (mkTupleLepton 1) in
  let b1 := new_JetCandidate ev (mkTupleJet 0) in
  let b2 := new_JetCandidate ev (mkTupleJet 1) in
  let r := Fit (lep_momentum l1) (lep_momentum l2)
             (jet_momentum b1) (jet_momentum b2) (record_met ev)
             (TupleJet_resolution ev 0 * E (jet_momentum b1))
             (TupleJet_resolution ev 1 * E (jet_momentum b2)) in
  mkFitResults (convergence r) (chi2 r) (TMath_Prob (chi2 r) 2) (mass r).

(** No jet passing the cuts of the b-tag ranking: a soft jet and two
    forward jets. *)
Definition event_no_b : Event := toy_event [soft_jet; forward_1; forward_2] [].

(** A record with another pile-up-id column. *)
Definition with_pu_id (ev : Event) (pu_id : list Z) : Event :=
  {| jets_p4 := jets_p4 ev;
     jets_csv := jets_csv ev;
     jets_deepCsv_BvsAll := jets_deepCsv_BvsAll ev;
     jets_deepFlavour_b := jets_deepFlavour_b ev;
     jets_deepFlavour_bb := jets_deepFlavour_bb ev;
     jets_deepFlavour_lepb := jets_deepFlavour_lepb ev;
     jets_pu_id := pu_id;
     jets_resolution := jets_resolution ev;
     other_jets_p4 := other_jets_p4 ev;
     fatJets_p4 := fatJets_p4 ev;
     pfMET_p4 := pfMET_p4 ev;
     pfMET_cov := pfMET_cov ev;
     lep_p4 := lep_p4 ev;
     lep_iso := lep_iso ev;
     kinFit_jetPairId := kinFit_jetPairId ev;
     kinFit_m := kinFit_m ev;
     kinFit_chi2 := kinFit_chi2 ev;
     kinFit_convergence := kinFit_convergence ev;
     first_daughter_indexes := first_daughter_indexes ev;
     second_daughter_indexes := second_daughter_indexes ev |}.

(** A record with another convergence column in the side table. *)
Definition with_convergence (ev : Event) (c : list Z) : Event :=
  {| jets_p4 := jets_p4 ev;
     jets_csv := jets_csv ev;
     jets_deepCsv_BvsAll := jets_deepCsv_BvsAll ev;
     jets_deepFlavour_b := jets_deepFlavour_b ev;
     jets_deepFlavour_bb := jets_deepFlavour_bb ev;
     jets_deepFlavour_lepb := jets_deepFlavour_lepb ev;
     jets_pu_id := jets_pu_id ev;
     jets_resolution := jets_resolution ev;
     other_jets_p4 := other_jets_p4 ev;
     fatJets_p4 := fatJets_p4 ev;
     pfMET_p4 := pfMET_p4 ev;
     pfMET_cov := pfMET_cov ev;
     lep_p4 := lep_p4 ev;
     lep_iso := lep_iso ev;
     kinFit_jetPairId := kinFit_jetPairId ev;
     kinFit_m := kinFit_m ev;
     kinFit_chi2 := kinFit_chi2 ev;
     kinFit_convergence := c;
     first_daughter_indexes := first_daughter_indexes ev;
     second_daughter_indexes := second_daughter_indexes ev |}.

(** One jet without a pile-up id. *)
Definition event_ragged : Event := with_pu_id event_one_jet [].

(** The record with five jets, the convergence column of its side table
    empty. *)
Definition event_short_fit : Event := with_convergence event_vbf [].

(** The tagger at an explicit working point, standing for the medium one. *)
Definition toy_PassWP (_ _ : unit) (ev : Event) (n : N) (_ : unit) : bool :=
  Qltb (3 # 10) (toy_BTag ev n).

(** A production summary with two channels, and collections that are the
    lists of the patterns added. *)
Definition toy_prod_summary : Summary.ProdSummary :=
  {| Summary.triggers_channel := [1%Z; 2%Z; 1%Z];
     Summary.triggers_pattern := ["HLT_a"; "HLT_b"; "HLT_c"]%string |}.

Definition toy_Add (d : list string) (pattern : string) : result (list string) :=
  inr (d ++ [pattern]).

Definition toy_new_JEC (source : string) : result Q := inr (1 # 20)%Q.

(** A lepton whose pile-up correction exceeds its neutral sums. *)
Definition toy_lepton : BaseTupleProducer.PFIsolation :=
  BaseTupleProducer.mkPFIsolation 1 2 8 3 30.

End Toy.

(** * Properties of the selection *)

Lemma Qltb_lt (x y : Q) : Qltb x y = true <-> (x < y)%Q.
Proof.
  unfold Qltb. rewrite negb_true_iff.
  destruct (Qle_bool y x) eqn:Hle.
  - apply Qle_bool_iff in Hle. split; [discriminate | intros; lra].
  - split; [intros _ | reflexivity].
    destruct (Qlt_le_dec x y) as [Hlt | Hge]; [exact Hlt |].
    apply Qle_bool_iff in Hge. congruence.
Qed.

Lemma Qltb_ge (x y : Q) : Qltb x y = false <-> (y <= x)%Q.
Proof.
  unfold Qltb. rewrite negb_false_iff. apply Qle_bool_iff.
Qed.

Section SelectionFacts.
Context `{JT : JetTools}.

Lemma at_of_nat {A : Type} (v : list A) (n : nat) (a : A) :
  v !! n = Some a -> at_ v (N.of_nat n) = inr a.
Proof. intros H. unfold at_. rewrite Nat2N.id, H. reflexivity. Qed.

(** ** Ranking *)

Lemma insert_jet_perm (j : JetInfo) (l : list JetInfo) :
  insert_jet j l ≡ₚ j :: l.
Proof.
  induction l as [| x l IH]; simpl; [reflexivity |].
  destruct (CompareJets x j); [| reflexivity].
  rewrite IH. apply Permutation_swap.
Qed.

Lemma sort_jets_perm (l : list JetInfo) : sort_jets l ≡ₚ l.
Proof.
  induction l as [| j l IH]; simpl; [reflexivity |].
  rewrite insert_jet_perm. by rewrite IH.
Qed.

Lemma OrderJets_perm (l : list JetInfo) (pt_cut eta_cut : Q) :
  OrderJets l true pt_cut eta_cut ≡ₚ List.filter (PassCuts pt_cut eta_cut) l.
Proof. apply sort_jets_perm. Qed.

Lemma elem_of_OrderJets (l : list JetInfo) (pt_cut eta_cut : Q) (j : JetInfo) :
  j ∈ OrderJets l true pt_cut eta_cut <-> j ∈ l /\ PassCuts pt_cut eta_cut j = true.
Proof.
  rewrite OrderJets_perm, !list_elem_of_In. apply filter_In.
Qed.

Lemma list_filter_sublist {A : Type} (f : A -> bool) (l : list A) :
  List.filter f l `sublist_of` l.
Proof.
  induction l as [| x l IH]; simpl; [constructor |].
  destruct (f x); by constructor.
Qed.

Lemma OrderJets_NoDup_index (l : list JetInfo) (pt_cut eta_cut : Q) :
  NoDup (index <$> l) -> NoDup (index <$> OrderJets l true pt_cut eta_cut).
Proof.
  intros Hnd. rewrite OrderJets_perm.
  eapply sublist_NoDup; [exact Hnd | apply fmap_sublist, list_filter_sublist].
Qed.

Lemma OrderJets_length (l : list JetInfo) (pt_cut eta_cut : Q) :
  length (OrderJets l true pt_cut eta_cut)
  = length (List.filter (PassCuts pt_cut eta_cut) l).
Proof. apply Permutation_length, OrderJets_perm. Qed.

(** ** The candidate list *)

Section Candidates.
Variable event : Event.
Variable period : Period.
Variable jet_ordering : JetOrdering.

Abbreviation wf := (wf_event event).
Abbreviation njets := (size (jets_p4 event)).

Lemma CreateJetInfo_body_ok s useBTag (n : nat) :
  (n < length (jets_p4 event))%nat -> (n < length (jets_pu_id event))%nat ->
  CreateJetInfo_body event period jet_ordering s useBTag (N.of_nat n)
  = inr (jet_candidate event period jet_ordering s useBTag n).
Proof.
  intros Hn Hpu.
  destruct (lookup_lt_is_Some_2 (jets_p4 event) n Hn) as [p Hp].
  destruct (lookup_lt_is_Some_2 (jets_pu_id event) n Hpu) as [pu Hq].
  unfold CreateJetInfo_body, jet_candidate.
  rewrite Hp, Hq. simpl.
  destruct (isSelectedBjet s (N.of_nat n)); [reflexivity |].
  destruct (isSelectedVBFjet s (N.of_nat n)); [reflexivity |].
  rewrite (at_of_nat _ _ _ Hp), (at_of_nat _ _ _ Hq). simpl.
  unfold mbind, result_bind, rbind.
  destruct (PassEcalNoiceVetoJets p period pu); simpl; [| reflexivity].
  destruct (Z.land pu 2 =? 0)%Z; reflexivity.
Qed.

Lemma CreateJetInfo_loop_ok s useBTag (ns : list nat) (acc : list JetInfo) :
  Forall (fun n => (n < length (jets_p4 event))%nat
                   /\ (n < length (jets_pu_id event))%nat) ns ->
  CreateJetInfo_loop event period jet_ordering s useBTag ns acc
  = inr (acc ++ omap (jet_candidate event period jet_ordering s useBTag) ns).
Proof.
  intros Hns. revert acc.
  induction Hns as [| n ns [Hn Hpu] Hns IH]; intros acc; simpl.
  - by rewrite app_nil_r.
  - rewrite (CreateJetInfo_body_ok _ _ _ Hn Hpu).
    unfold mbind, result_bind, rbind. rewrite IH.
    destruct (jet_candidate event period jet_ordering s useBTag n); [| reflexivity].
    by rewrite <- app_assoc.
Qed.

Lemma CreateJetInfo_ok s useBTag :
  wf ->
  CreateJetInfo event period jet_ordering s useBTag
  = inr (candidates event period jet_ordering s useBTag).
Proof.
  intros [Hpu _]. unfold CreateJetInfo, candidates.
  rewrite CreateJetInfo_loop_ok; [reflexivity |].
  apply Forall_forall. intros n Hn. apply elem_of_seq in Hn. lia.
Qed.

Lemma CreateJetInfo_loop_app s useBTag (ns1 ns2 : list nat) (acc : list JetInfo) :
  CreateJetInfo_loop event period jet_ordering s useBTag (ns1 ++ ns2) acc
  = rbind (CreateJetInfo_loop event period jet_ordering s useBTag ns1 acc)
      (CreateJetInfo_loop event period jet_ordering s useBTag ns2).
Proof.
  revert acc. induction ns1 as [| n ns1 IH]; intros acc; simpl; [reflexivity |].
  unfold mbind, result_bind.
  destruct (CreateJetInfo_body event period jet_ordering s useBTag (N.of_nat n));
    simpl; [reflexivity | apply IH].
Qed.

(** X1: Without a pile-up id for every jet the first pass over the jets runs
    into [std::out_of_range]: the record has to be well formed for
    SelectSignalJets to return. *)
Lemma SelectSignalJets_out_of_range :
  (length (jets_pu_id event) < length (jets_p4 event))%nat ->
  size (jets_p4 event) <= size_t_max ->
  SelectSignalJets event period jet_ordering = inl std_out_of_range.
Proof.
  intros Hshort Hmax. unfold size in Hmax.
  set (k := length (jets_pu_id event)) in *.
  assert (CreateJetInfo event period jet_ordering SelectedSignalJets_default true
          = inl std_out_of_range) as Hfirst.
  { unfold CreateJetInfo.
    replace (length (jets_p4 event))
      with (k + S (length (jets_p4 event) - S k))%nat by lia.
    rewrite seq_app, CreateJetInfo_loop_app, CreateJetInfo_loop_ok.
    2: { apply Forall_forall. intros n Hn. apply elem_of_seq in Hn. lia. }
    simpl.
    destruct (lookup_lt_is_Some_2 (jets_p4 event) k Hshort) as [p Hp].
    unfold CreateJetInfo_body, isSelectedBjet, isSelectedVBFjet,
      SelectedSignalJets_default, UndefinedJetPair.
    cbn [selectedBjetPair selectedVBFjetPair fst snd].
    assert ((size_t_max =? N.of_nat k) = false) as -> by (apply N.eqb_neq; lia).
    simpl. rewrite (at_of_nat _ _ _ Hp).
    unfold at_. rewrite Nat2N.id.
    rewrite (lookup_ge_None_2 (jets_pu_id event) k) by (subst k; lia).
    reflexivity. }
  unfold SelectSignalJets, bjets_ranking. by rewrite Hfirst.
Qed.

Lemma jet_candidate_Some s useBTag n j :
  jet_candidate event period jet_ordering s useBTag n = Some j ->
  exists p pu,
    jets_p4 event !! n = Some p /\ jets_pu_id event !! n = Some pu /\
    isSelectedBjet s (N.of_nat n) = false /\
    isSelectedVBFjet s (N.of_nat n) = false /\
    PassEcalNoiceVetoJets p period pu = true /\
    (Z.land pu 2 =? 0)%Z = false /\
    p4 j = p /\ index j = N.of_nat n.
Proof.
  unfold jet_candidate. intros H.
  destruct (jets_p4 event !! n) as [p |]; [| discriminate].
  destruct (jets_pu_id event !! n) as [pu |]; [| discriminate].
  simpl in H.
  destruct (isSelectedBjet s (N.of_nat n)) eqn:Hb; [discriminate |].
  destruct (isSelectedVBFjet s (N.of_nat n)) eqn:Hv; [discriminate |].
  destruct (PassEcalNoiceVetoJets p period pu) eqn:He; [| discriminate].
  destruct (Z.land pu 2 =? 0)%Z eqn:Hpu; [discriminate |].
  simpl in H. injection H as <-. exists p, pu. simpl. repeat split; assumption.
Qed.

Lemma elem_of_candidates s useBTag j :
  j ∈ candidates event period jet_ordering s useBTag ->
  exists n, (n < length (jets_p4 event))%nat /\
    jet_candidate event period jet_ordering s useBTag n = Some j.
Proof.
  unfold candidates. intros H.
  apply list_elem_of_omap in H as (n & Hn & Hj).
  apply elem_of_seq in Hn. exists n. split; [lia | exact Hj].
Qed.

Lemma candidates_index_lt s useBTag j :
  j ∈ candidates event period jet_ordering s useBTag -> index j < njets.
Proof.
  intros H. apply elem_of_candidates in H as (n & Hn & Hj).
  apply jet_candidate_Some in Hj as (? & ? & _ & _ & _ & _ & _ & _ & _ & ->).
  unfold size. lia.
Qed.

Lemma candidates_not_selected s useBTag j :
  j ∈ candidates event period jet_ordering s useBTag ->
  isSelectedBjet s (index j) = false /\ isSelectedVBFjet s (index j) = false.
Proof.
  intros H. apply elem_of_candidates in H as (n & Hn & Hj).
  apply jet_candidate_Some in Hj as (? & ? & _ & _ & Hb & Hv & _ & _ & _ & ->).
  by split.
Qed.

Lemma omap_index_sublist (f : nat -> option JetInfo) (ns : list nat) :
  (forall n j, f n = Some j -> index j = N.of_nat n) ->
  (index <$> omap f ns) `sublist_of` (N.of_nat <$> ns).
Proof.
  intros Hf. induction ns as [| n ns IH]; simpl; [constructor |].
  destruct (f n) as [j |] eqn:Hj; simpl.
  - rewrite (Hf _ _ Hj). by constructor.
  - by constructor.
Qed.

Lemma candidates_NoDup s useBTag :
  NoDup (index <$> candidates event period jet_ordering s useBTag).
Proof.
  eapply sublist_NoDup.
  - apply (NoDup_fmap_2 N.of_nat), NoDup_seq.
  - apply omap_index_sublist. intros n j Hj.
    by apply jet_candidate_Some in Hj as (? & ? & _ & _ & _ & _ & _ & _ & _ & ->).
Qed.

End Candidates.

(** ** The scan for the VBF pair *)

Lemma gt_max_Fin (m x : Q) : gt_max m (Fin x) = true <-> (x < m)%Q.
Proof. apply Qltb_lt. Qed.

Lemma gt_max_Fin_false (m x : Q) : gt_max m (Fin x) = false <-> (m <= x)%Q.
Proof. apply Qltb_ge. Qed.

Lemma gt_max_trans (m0 m : Q) (mx : ereal) :
  gt_max m0 mx = true -> (m0 < m)%Q -> gt_max m mx = true.
Proof.
  destruct mx as [| x]; [reflexivity |].
  rewrite !gt_max_Fin. intros; lra.
Qed.

Lemma gt_max_false_lt (m' m : Q) (mx : ereal) :
  gt_max m' mx = false -> gt_max m mx = true -> (m' < m)%Q.
Proof.
  destruct mx as [| x]; [discriminate |].
  rewrite gt_max_Fin_false, gt_max_Fin. intros; lra.
Qed.

Lemma set_vbf_pair_twice (s : SelectedSignalJets) (p q : JetPair) :
  set_vbf_pair (set_vbf_pair s p) q = set_vbf_pair s q.
Proof. reflexivity. Qed.

Lemma vbf_inner_cons (a b : JetInfo) (rest : list JetInfo)
    (st : ereal * SelectedSignalJets) :
  vbf_inner a (b :: rest) st
  = vbf_inner a rest
      (if gt_max (mjj a b) st.1
       then (Fin (mjj a b), set_vbf_pair st.2 (index a, index b))
       else st).
Proof. reflexivity. Qed.

Lemma vbf_inner_spec (a : JetInfo) (rest : list JetInfo)
    (mx : ereal) (s : SelectedSignalJets) :
  (vbf_inner a rest (mx, s) = (mx, s) /\
   forall h b, rest !! h = Some b -> gt_max (mjj a b) mx = false)
  \/
  (exists h b,
     rest !! h = Some b /\
     vbf_inner a rest (mx, s)
     = (Fin (mjj a b), set_vbf_pair s (index a, index b)) /\
     gt_max (mjj a b) mx = true /\
     (forall h' b', rest !! h' = Some b' -> (mjj a b' <= mjj a b)%Q) /\
     (forall h' b', (h' < h)%nat -> rest !! h' = Some b' ->
                    (mjj a b' < mjj a b)%Q)).
Proof.
  revert mx s. induction rest as [| b0 r IH]; intros mx s.
  - left. split; [reflexivity |]. intros h b Hh. by destruct h.
  - rewrite vbf_inner_cons. simpl fst; simpl snd.
    destruct (gt_max (mjj a b0) mx) eqn:Hgt.
    + destruct (IH (Fin (mjj a b0)) (set_vbf_pair s (index a, index b0)))
        as [[Heq Hall] | (h & b & Hb & Heq & Hgt' & Hle & Hlt)].
      * right. exists 0%nat, b0. split; [reflexivity |].
        split; [exact Heq |]. split; [exact Hgt |]. split.
        -- intros [| h'] b' Hb'; simpl in Hb'.
           ++ injection Hb' as <-. lra.
           ++ apply gt_max_Fin_false. by eapply Hall.
        -- intros h' b' Hh'. lia.
      * right. exists (S h), b. split; [exact Hb |].
        apply gt_max_Fin in Hgt'.
        split; [by rewrite Heq, set_vbf_pair_twice |].
        split; [by eapply gt_max_trans |]. split.
        -- intros [| h'] b' Hb'; simpl in Hb'.
           ++ injection Hb' as <-. lra.
           ++ by eapply Hle.
        -- intros [| h'] b' Hh' Hb'; simpl in Hb'.
           ++ by injection Hb' as <-.
           ++ eapply Hlt; [| exact Hb']. lia.
    + destruct (IH mx s) as [[Heq Hall] | (h & b & Hb & Heq & Hgt' & Hle & Hlt)].
      * left. split; [exact Heq |].
        intros [| h'] b' Hb'; simpl in Hb'.
        -- by injection Hb' as <-.
        -- by eapply Hall.
      * right. exists (S h), b. split; [exact Hb |].
        split; [exact Heq |]. split; [exact Hgt' |].
        pose proof (gt_max_false_lt _ _ _ Hgt Hgt') as Hb0.
        split.
        -- intros [| h'] b' Hb'; simpl in Hb'.
           ++ injection Hb' as <-. lra.
           ++ by eapply Hle.
        -- intros [| h'] b' Hh' Hb'; simpl in Hb'.
           ++ by injection Hb' as <-.
           ++ eapply Hlt; [| exact Hb']. lia.
Qed.

Lemma vbf_scan_spec (l : list JetInfo) (mx : ereal) (s : SelectedSignalJets) :
  (vbf_scan l (mx, s) = (mx, s) /\
   forall n h a b, (n < h)%nat -> l !! n = Some a -> l !! h = Some b ->
                   gt_max (mjj a b) mx = false)
  \/
  (exists n h a b,
     (n < h)%nat /\ l !! n = Some a /\ l !! h = Some b /\
     vbf_scan l (mx, s) = (Fin (mjj a b), set_vbf_pair s (index a, index b)) /\
     gt_max (mjj a b) mx = true /\
     (forall n' h' a' b', (n' < h')%nat ->
        l !! n' = Some a' -> l !! h' = Some b' -> (mjj a' b' <= mjj a b)%Q) /\
     (forall n' h' a' b', (n' < h')%nat -> visited_before (n', h') (n, h) ->
        l !! n' = Some a' -> l !! h' = Some b' -> (mjj a' b' < mjj a b)%Q)).
Proof.
  revert mx s. induction l as [| x r IH]; intros mx s.
  - left. split; [reflexivity |]. intros n h a b _ Hn. by destruct n.
  - simpl vbf_scan.
    destruct (vbf_inner_spec x r mx s)
      as [[Hin Hall0] | (h0 & b0 & Hb0 & Hin & Hgt0 & Hle0 & Hlt0)];
      rewrite Hin.
    + destruct (IH mx s)
        as [[Heq Hall] | (n & h & a & b & Hnh & Ha & Hb & Heq & Hgt & Hle & Hlt)].
      * left. split; [exact Heq |].
        intros [| n'] [| h'] a' b' Hlt' Ha' Hb'; simpl in Ha', Hb'; try lia.
        -- injection Ha' as <-. by eapply Hall0.
        -- eapply (Hall n' h'); [lia | done | done].
      * right. exists (S n), (S h), a, b.
        split; [lia |]. split; [exact Ha |]. split; [exact Hb |].
        split; [exact Heq |]. split; [exact Hgt |]. split.
        -- intros [| n'] [| h'] a' b' Hlt' Ha' Hb'; simpl in Ha', Hb'; try lia.
           ++ injection Ha' as <-.
              pose proof (gt_max_false_lt _ _ _ (Hall0 _ _ Hb') Hgt). lra.
           ++ eapply (Hle n' h'); [lia | done | done].
        -- intros [| n'] [| h'] a' b' Hlt' Hvb Ha' Hb'; simpl in Ha', Hb'; try lia.
           ++ injection Ha' as <-.
              exact (gt_max_false_lt _ _ _ (Hall0 _ _ Hb') Hgt).
           ++ eapply (Hlt n' h'); [lia | | done | done].
              unfold visited_before in *; simpl in *. lia.
    + destruct (IH (Fin (mjj x b0)) (set_vbf_pair s (index x, index b0)))
        as [[Heq Hall] | (n & h & a & b & Hnh & Ha & Hb & Heq & Hgt & Hle & Hlt)].
      * right. exists 0%nat, (S h0), x, b0.
        split; [lia |]. split; [reflexivity |]. split; [exact Hb0 |].
        split; [exact Heq |]. split; [exact Hgt0 |]. split.
        -- intros [| n'] [| h'] a' b' Hlt' Ha' Hb'; simpl in Ha', Hb'; try lia.
           ++ injection Ha' as <-. by eapply Hle0.
           ++ apply gt_max_Fin_false. eapply (Hall n' h'); [lia | done | done].
        -- intros [| n'] [| h'] a' b' Hlt' Hvb Ha' Hb'; simpl in Ha', Hb';
             unfold visited_before in Hvb; simpl in Hvb; try lia.
           injection Ha' as <-. eapply Hlt0; [| exact Hb']. lia.
      * right. exists (S n), (S h), a, b.
        apply gt_max_Fin in Hgt.
        split; [lia |]. split; [exact Ha |]. split; [exact Hb |].
        split; [by rewrite Heq, set_vbf_pair_twice |].
        split; [by eapply gt_max_trans |]. split.
        -- intros [| n'] [| h'] a' b' Hlt' Ha' Hb'; simpl in Ha', Hb'; try lia.
           ++ injection Ha' as <-. pose proof (Hle0 _ _ Hb'). lra.
           ++ eapply (Hle n' h'); [lia | done | done].
        -- intros [| n'] [| h'] a' b' Hlt' Hvb Ha' Hb'; simpl in Ha', Hb'; try lia.
           ++ injection Ha' as <-. pose proof (Hle0 _ _ Hb'). lra.
           ++ eapply (Hlt n' h'); [lia | | done | done].
              unfold visited_before in *; simpl in *. lia.
Qed.

Lemma select_vbf_pair_spec (l : list JetInfo) (s : SelectedSignalJets) :
  ((length l < 2)%nat /\ select_vbf_pair l s = s)
  \/
  (exists n h a b,
     (n < h)%nat /\ l !! n = Some a /\ l !! h = Some b /\
     select_vbf_pair l s = set_vbf_pair s (index a, index b) /\
     (forall n' h' a' b', (n' < h')%nat ->
        l !! n' = Some a' -> l !! h' = Some b' -> (mjj a' b' <= mjj a b)%Q) /\
     (forall n' h' a' b', (n' < h')%nat -> visited_before (n', h') (n, h) ->
        l !! n' = Some a' -> l !! h' = Some b' -> (mjj a' b' < mjj a b)%Q)).
Proof.
  unfold select_vbf_pair.
  destruct (vbf_scan_spec l NegInf s)
    as [[Heq Hall] | (n & h & a & b & Hnh & Ha & Hb & Heq & _ & Hle & Hlt)].
  - left. rewrite Heq. split; [| reflexivity].
    destruct l as [| a [| b r]]; simpl; try lia.
    specialize (Hall 0%nat 1%nat a b). simpl in Hall.
    discriminate Hall; [lia | reflexivity | reflexivity].
  - right. exists n, h, a, b. rewrite Heq. by repeat split.
Qed.

(** ** The stages of SelectSignalJets on a well-formed record *)

Section Stages.
Variable event : Event.
Variable period : Period.
Variable jet_ordering : JetOrdering.

Abbreviation wf := (wf_event event).
Abbreviation njets := (size (jets_p4 event)).
Abbreviation cands := (candidates event period jet_ordering).
Abbreviation passes_bjet_cuts := (passes_bjet_cuts event period jet_ordering).
Abbreviation ranked_bjets := (ranked_bjets event period jet_ordering).
Abbreviation ranked_vbf := (ranked_vbf event period jet_ordering).
Abbreviation reranked_bjets := (reranked_bjets event period jet_ordering).
Abbreviation stage1 := (stage1 event period jet_ordering).
Abbreviation stage2 := (stage2 event period jet_ordering).
Abbreviation n_passing := (n_passing event period jet_ordering).

Lemma bjets_ranking_ok :
  wf -> bjets_ranking event period jet_ordering = inr ranked_bjets.
Proof.
  intros Hwf. unfold bjets_ranking. by rewrite CreateJetInfo_ok.
Qed.

Lemma vbf_ranking_ok s :
  wf -> vbf_ranking event period jet_ordering s = inr (ranked_vbf s).
Proof.
  intros Hwf. unfold vbf_ranking. by rewrite CreateJetInfo_ok.
Qed.

Lemma fallback_ok (bjets_ordered : list JetInfo) (s : SelectedSignalJets) :
  wf ->
  fallback event period jet_ordering bjets_ordered s
  = inr (if HasBjetPair s njets then s
         else match reranked_bjets s with
              | j0 :: _ => set_bjet_second s (index j0)
              | [] =>
                  match bjets_ordered with
                  | _ :: j1 :: _ =>
                      set_bjet_second (set_vbf_pair s UndefinedJetPair) (index j1)
                  | _ => set_vbf_pair s UndefinedJetPair
                  end
              end).
Proof.
  intros Hwf. unfold fallback.
  destruct (HasBjetPair s njets); [reflexivity |].
  rewrite CreateJetInfo_ok by exact Hwf. simpl.
  fold (reranked_bjets s).
  destruct (reranked_bjets s); [| reflexivity].
  by destruct bjets_ordered as [| ? [| ? ?]].
Qed.

Lemma SelectSignalJets_ok :
  wf ->
  SelectSignalJets event period jet_ordering
  = fallback event period jet_ordering ranked_bjets
      (select_vbf_pair
         (ranked_vbf (select_bjets event period jet_ordering ranked_bjets
                        SelectedSignalJets_default))
         (select_bjets event period jet_ordering ranked_bjets
            SelectedSignalJets_default)).
Proof.
  intros Hwf. unfold SelectSignalJets.
  rewrite bjets_ranking_ok by exact Hwf. simpl.
  by rewrite vbf_ranking_ok by exact Hwf.
Qed.

(** Membership in a ranking. *)

Lemma ranked_index_lt s useBTag pt_cut eta_cut j :
  j ∈ OrderJets (cands s useBTag) true pt_cut eta_cut -> index j < njets.
Proof.
  intros [Hj _]%elem_of_OrderJets. by eapply candidates_index_lt.
Qed.

Lemma ranked_not_selected s useBTag pt_cut eta_cut j :
  j ∈ OrderJets (cands s useBTag) true pt_cut eta_cut ->
  isSelectedBjet s (index j) = false /\ isSelectedVBFjet s (index j) = false.
Proof.
  intros [Hj _]%elem_of_OrderJets. by eapply candidates_not_selected.
Qed.

Lemma ranked_NoDup s useBTag pt_cut eta_cut :
  NoDup (index <$> OrderJets (cands s useBTag) true pt_cut eta_cut).
Proof. apply OrderJets_NoDup_index, candidates_NoDup. Qed.

Lemma ranked_lookup_distinct s useBTag pt_cut eta_cut n h a b :
  n <> h ->
  OrderJets (cands s useBTag) true pt_cut eta_cut !! n = Some a ->
  OrderJets (cands s useBTag) true pt_cut eta_cut !! h = Some b ->
  index a <> index b.
Proof.
  intros Hnh Ha Hb Heq. apply Hnh.
  eapply (NoDup_lookup _ n h (index a)); [apply ranked_NoDup | |].
  - rewrite list_lookup_fmap, Ha. reflexivity.
  - rewrite list_lookup_fmap, Hb, Heq. reflexivity.
Qed.

Lemma ranked_passes s useBTag j :
  j ∈ OrderJets (cands s useBTag) true
        (PtCut period jet_ordering) (EtaCut period jet_ordering) ->
  exists n, index j = N.of_nat n /\ (n < length (jets_p4 event))%nat /\
            passes_bjet_cuts n = true.
Proof.
  intros [Hj Hcut]%elem_of_OrderJets.
  apply elem_of_candidates in Hj as (n & Hn & Hj).
  apply jet_candidate_Some in Hj
    as (p & pu & Hp & Hpu & _ & _ & Hveto & Hbit & Hp4 & Hidx).
  exists n. split; [exact Hidx |]. split; [exact Hn |].
  unfold passes_bjet_cuts. rewrite Hp, Hpu, Hveto, Hbit. simpl.
  unfold PassCuts in Hcut. by rewrite Hp4 in Hcut.
Qed.

(** Counting the jets that pass. *)

Lemma filter_omap_length {A B : Type} (f : B -> bool) (g : A -> option B)
    (h : A -> bool) (l : list A) :
  (forall x, x ∈ l -> h x = match g x with Some y => f y | None => false end) ->
  length (List.filter f (omap g l)) = length (List.filter h l).
Proof.
  induction l as [| x l IH]; intros Hh; [reflexivity |].
  assert (IH' := IH (fun y Hy => Hh y (list_elem_of_further _ _ _ Hy))).
  assert (Hx := Hh x (list_elem_of_here _ _)).
  cbn [omap list_omap List.filter]. rewrite Hx.
  destruct (g x) as [y |]; cbn [List.filter]; [| exact IH'].
  destruct (f y); cbn [length]; by rewrite IH'.
Qed.

Lemma default_not_selected (n : nat) :
  wf -> (n < length (jets_p4 event))%nat ->
  isSelectedBjet SelectedSignalJets_default (N.of_nat n) = false /\
  isSelectedVBFjet SelectedSignalJets_default (N.of_nat n) = false.
Proof.
  intros [_ Hmax] Hn. unfold size in Hmax.
  unfold isSelectedBjet, isSelectedVBFjet, SelectedSignalJets_default,
    UndefinedJetPair.
  cbn [selectedBjetPair selectedVBFjetPair fst snd].
  assert ((size_t_max =? N.of_nat n) = false) as -> by (apply N.eqb_neq; lia).
  by split.
Qed.

Lemma passes_bjet_cuts_candidate (n : nat) :
  wf -> (n < length (jets_p4 event))%nat ->
  passes_bjet_cuts n
  = match jet_candidate event period jet_ordering
            SelectedSignalJets_default true n with
    | Some j => PassCuts (PtCut period jet_ordering) (EtaCut period jet_ordering) j
    | None => false
    end.
Proof.
  intros Hwf Hn. destruct (default_not_selected n Hwf Hn) as [Hb Hv].
  unfold passes_bjet_cuts, jet_candidate. rewrite Hb, Hv.
  destruct (jets_p4 event !! n) as [p |]; [| reflexivity].
  destruct (jets_pu_id event !! n) as [pu |]; [| reflexivity].
  simpl. destruct (PassEcalNoiceVetoJets p period pu); [| reflexivity].
  simpl. destruct (Z.land pu 2 =? 0)%Z; reflexivity.
Qed.

Lemma ranked_bjets_length :
  wf ->
  length ranked_bjets
  = length (List.filter passes_bjet_cuts (seq 0 (length (jets_p4 event)))).
Proof.
  intros Hwf. unfold ranked_bjets. rewrite OrderJets_length.
  apply filter_omap_length. intros n Hn. apply elem_of_seq in Hn.
  apply passes_bjet_cuts_candidate; [exact Hwf | lia].
Qed.

Lemma SelectSignalJets_stages :
  wf ->
  SelectSignalJets event period jet_ordering
  = inr (if HasBjetPair stage2 njets then stage2
         else match reranked_bjets stage2 with
              | j0 :: _ => set_bjet_second stage2 (index j0)
              | [] =>
                  match ranked_bjets with
                  | _ :: j1 :: _ =>
                      set_bjet_second (set_vbf_pair stage2 UndefinedJetPair)
                        (index j1)
                  | _ => set_vbf_pair stage2 UndefinedJetPair
                  end
              end).
Proof.
  intros Hwf. rewrite SelectSignalJets_ok by exact Hwf.
  by rewrite fallback_ok by exact Hwf.
Qed.

Lemma stage1_vbf : selectedVBFjetPair stage1 = UndefinedJetPair.
Proof.
  unfold stage1, select_bjets.
  destruct ranked_bjets as [| j0 [| j1 r]]; simpl; try reflexivity.
  by destruct (Pass period jet_ordering event (index j1)).
Qed.

Lemma stage1_bjets :
  selectedBjetPair stage1
  = match ranked_bjets with
    | [] => UndefinedJetPair
    | [j0] => (index j0, size_t_max)
    | j0 :: j1 :: _ =>
        (index j0,
         if Pass period jet_ordering event (index j1)
         then index j1 else size_t_max)
    end.
Proof.
  unfold stage1, select_bjets.
  destruct ranked_bjets as [| j0 [| j1 r]]; simpl; try reflexivity.
  by destruct (Pass period jet_ordering event (index j1)).
Qed.

Lemma stage1_n_bjets : n_bjets stage1 = size ranked_bjets.
Proof.
  unfold stage1, select_bjets.
  destruct ranked_bjets as [| j0 [| j1 r]]; simpl; try reflexivity.
  by destruct (Pass period jet_ordering event (index j1)).
Qed.

Lemma stage2_cases :
  ((length (ranked_vbf stage1) < 2)%nat /\ stage2 = stage1)
  \/
  (exists n h a b,
     (n < h)%nat /\ ranked_vbf stage1 !! n = Some a /\
     ranked_vbf stage1 !! h = Some b /\
     stage2 = set_vbf_pair stage1 (index a, index b) /\
     (forall n' h' a' b', (n' < h')%nat ->
        ranked_vbf stage1 !! n' = Some a' -> ranked_vbf stage1 !! h' = Some b' ->
        (mjj a' b' <= mjj a b)%Q) /\
     (forall n' h' a' b', (n' < h')%nat -> visited_before (n', h') (n, h) ->
        ranked_vbf stage1 !! n' = Some a' -> ranked_vbf stage1 !! h' = Some b' ->
        (mjj a' b' < mjj a b)%Q)).
Proof. apply select_vbf_pair_spec. Qed.

Lemma stage2_bjets : selectedBjetPair stage2 = selectedBjetPair stage1.
Proof.
  destruct stage2_cases as [[_ ->] | (n & h & a & b & _ & _ & _ & -> & _)];
    reflexivity.
Qed.

Lemma stage2_n_bjets : n_bjets stage2 = n_bjets stage1.
Proof.
  destruct stage2_cases as [[_ ->] | (n & h & a & b & _ & _ & _ & -> & _)];
    reflexivity.
Qed.

Lemma undefined_not_valid : wf -> (size_t_max <? njets) = false.
Proof. intros [_ Hmax]. apply N.ltb_ge. exact Hmax. Qed.

(** The shape of the b-jet pair after line 98: nothing, a first jet alone,
    or two distinct jets of the array. *)
Lemma stage1_bjets_shape :
  selectedBjetPair stage1 = UndefinedJetPair /\ ranked_bjets = []
  \/ (exists j0, j0 ∈ ranked_bjets /\
        selectedBjetPair stage1 = (index j0, size_t_max))
  \/ (exists j0 j1, j0 ∈ ranked_bjets /\ j1 ∈ ranked_bjets /\
        index j0 <> index j1 /\
        selectedBjetPair stage1 = (index j0, index j1)).
Proof.
  rewrite stage1_bjets.
  destruct ranked_bjets as [| j0 [| j1 r]] eqn:Hl.
  - by left.
  - right; left. exists j0. split; [left | reflexivity].
  - destruct (Pass period jet_ordering event (index j1)).
    + right; right. exists j0, j1.
      split; [left |]. split; [right; left |]. split; [| reflexivity].
      unfold ranked_bjets in Hl.
      eapply (ranked_lookup_distinct _ _ _ _ 0%nat 1%nat); [lia | |];
        by rewrite Hl.
    + right; left. exists j0. split; [left | reflexivity].
Qed.

Lemma isSelectedBjet_false (s : SelectedSignalJets) (i : N) :
  isSelectedBjet s i = false <->
  (selectedBjetPair s).1 <> i /\ (selectedBjetPair s).2 <> i.
Proof.
  unfold isSelectedBjet. rewrite orb_false_iff, !N.eqb_neq. tauto.
Qed.

Lemma isSelectedVBFjet_false (s : SelectedSignalJets) (i : N) :
  isSelectedVBFjet s i = false <->
  (selectedVBFjetPair s).1 <> i /\ (selectedVBFjetPair s).2 <> i.
Proof.
  unfold isSelectedVBFjet. rewrite orb_false_iff, !N.eqb_neq. tauto.
Qed.

(** The VBF pair after line 117: still undefined, or two distinct ranked
    jets, neither of them a b-jet chosen so far. *)
Lemma stage2_vbf_shape :
  selectedVBFjetPair stage2 = UndefinedJetPair
  \/ (exists a b, a ∈ ranked_vbf stage1 /\ b ∈ ranked_vbf stage1 /\
        index a <> index b /\
        selectedVBFjetPair stage2 = (index a, index b)).
Proof.
  destruct stage2_cases as [[_ ->] | (n & h & a & b & Hnh & Ha & Hb & -> & _)].
  - left. apply stage1_vbf.
  - right. exists a, b.
    split; [by eapply list_elem_of_lookup_2 |].
    split; [by eapply list_elem_of_lookup_2 |].
    split; [| reflexivity].
    unfold ranked_vbf in Ha, Hb.
    eapply (ranked_lookup_distinct _ _ _ _ n h); [lia | done | done].
Qed.

Lemma ranked_vbf_not_bjet (j : JetInfo) :
  j ∈ ranked_vbf stage1 ->
  index j < njets /\
  (selectedBjetPair stage2).1 <> index j /\
  (selectedBjetPair stage2).2 <> index j.
Proof.
  intros Hj. split; [by eapply ranked_index_lt |].
  rewrite stage2_bjets. apply isSelectedBjet_false.
  by eapply ranked_not_selected.
Qed.

(** Without a ranked b-jet candidate the second ranking is empty as well. *)
Lemma reranked_passes_ranked (s : SelectedSignalJets) (j : JetInfo) :
  wf -> j ∈ reranked_bjets s -> ranked_bjets <> [].
Proof.
  intros Hwf Hj Hnil.
  apply ranked_passes in Hj as (n & _ & Hn & Hpass).
  assert (Hlen := ranked_bjets_length Hwf). rewrite Hnil in Hlen. simpl in Hlen.
  assert (n ∈ List.filter passes_bjet_cuts (seq 0 (length (jets_p4 event)))) as Hin.
  { apply list_elem_of_In, filter_In. split; [| exact Hpass].
    apply list_elem_of_In, elem_of_seq. lia. }
  destruct (List.filter passes_bjet_cuts (seq 0 (length (jets_p4 event))));
    [by apply elem_of_nil in Hin | discriminate].
Qed.

Lemma SelectSignalJets_cases :
  wf ->
  exists sel,
    SelectSignalJets event period jet_ordering = inr sel /\
    ((HasBjetPair stage2 njets = true /\ sel = stage2)
     \/ (HasBjetPair stage2 njets = false /\
          exists j0 r, reranked_bjets stage2 = j0 :: r /\
                       sel = set_bjet_second stage2 (index j0))
     \/ (HasBjetPair stage2 njets = false /\ reranked_bjets stage2 = [] /\
          sel = match ranked_bjets with
                | _ :: j1 :: _ =>
                    set_bjet_second (set_vbf_pair stage2 UndefinedJetPair)
                      (index j1)
                | _ => set_vbf_pair stage2 UndefinedJetPair
                end)).
Proof.
  intros Hwf. eexists. split; [by apply SelectSignalJets_stages |].
  destruct (HasBjetPair stage2 njets); [by left |].
  destruct (reranked_bjets stage2) as [| j0 r].
  - right; right. by repeat split.
  - right; left. split; [reflexivity |]. by exists j0, r.
Qed.

Lemma filter_singleton_unique {A : Type} (f : A -> bool) (l : list A) (x y : A) :
  length (List.filter f l) = 1%nat ->
  x ∈ l -> y ∈ l -> f x = true -> f y = true -> x = y.
Proof.
  intros Hlen Hx Hy Hfx Hfy.
  assert (x ∈ List.filter f l) as Hx'
    by (apply list_elem_of_In, filter_In; by rewrite <- list_elem_of_In).
  assert (y ∈ List.filter f l) as Hy'
    by (apply list_elem_of_In, filter_In; by rewrite <- list_elem_of_In).
  destruct (List.filter f l) as [| z [| ? ?]]; try discriminate.
  apply list_elem_of_singleton in Hx', Hy'. congruence.
Qed.

(** With a single ranked b-jet candidate the second ranking is empty. *)
Lemma reranked_single (j0 : JetInfo) :
  wf -> ranked_bjets = [j0] -> reranked_bjets stage2 = [].
Proof.
  intros Hwf Hl.
  destruct (reranked_bjets stage2) as [| j r] eqn:Hre; [reflexivity |].
  exfalso.
  assert (j ∈ reranked_bjets stage2) as Hj by (rewrite Hre; left).
  assert (j0 ∈ ranked_bjets) as Hj0 by (rewrite Hl; left).
  destruct (ranked_not_selected _ _ _ _ _ Hj) as [Hnb _].
  apply isSelectedBjet_false in Hnb as [Hne _].
  rewrite stage2_bjets, stage1_bjets, Hl in Hne. simpl in Hne.
  apply ranked_passes in Hj as (n & Hn & Hlt & Hp).
  apply ranked_passes in Hj0 as (n0 & Hn0 & Hlt0 & Hp0).
  assert (Hlen := ranked_bjets_length Hwf). rewrite Hl in Hlen. simpl in Hlen.
  assert (n0 = n) as Heq.
  { eapply (filter_singleton_unique passes_bjet_cuts
              (seq 0 (length (jets_p4 event)))); try done.
    - apply elem_of_seq. lia.
    - apply elem_of_seq. lia. }
  congruence.
Qed.

Lemma HasBjetPair_second_undefined (s : SelectedSignalJets) :
  wf -> (selectedBjetPair s).2 = size_t_max -> HasBjetPair s njets = false.
Proof.
  intros Hwf Hs. unfold HasBjetPair. rewrite Hs, (undefined_not_valid Hwf).
  apply andb_false_r.
Qed.

(** The outcome by the number of ranked b-jet candidates. *)

Lemma SelectSignalJets_no_candidate :
  wf -> ranked_bjets = [] ->
  SelectSignalJets event period jet_ordering
  = inr (set_vbf_pair stage2 UndefinedJetPair) /\
  selectedBjetPair stage2 = UndefinedJetPair.
Proof.
  intros Hwf Hl.
  assert (selectedBjetPair stage2 = UndefinedJetPair) as Hb
    by (by rewrite stage2_bjets, stage1_bjets, Hl).
  split; [| exact Hb].
  rewrite (SelectSignalJets_stages Hwf).
  rewrite HasBjetPair_second_undefined by (by rewrite ?Hb).
  destruct (reranked_bjets stage2) as [| j r] eqn:Hre.
  - by rewrite Hl.
  - exfalso. eapply (reranked_passes_ranked stage2 j); [done | | done].
    rewrite Hre. left.
Qed.

Lemma SelectSignalJets_one_candidate (j0 : JetInfo) :
  wf -> ranked_bjets = [j0] ->
  SelectSignalJets event period jet_ordering
  = inr (set_vbf_pair stage2 UndefinedJetPair) /\
  selectedBjetPair stage2 = (index j0, size_t_max).
Proof.
  intros Hwf Hl.
  assert (selectedBjetPair stage2 = (index j0, size_t_max)) as Hb
    by (by rewrite stage2_bjets, stage1_bjets, Hl).
  split; [| exact Hb].
  rewrite (SelectSignalJets_stages Hwf).
  rewrite HasBjetPair_second_undefined by (by rewrite ?Hb).
  by rewrite (reranked_single j0 Hwf Hl), Hl.
Qed.

Lemma SelectSignalJets_two_candidates (j0 j1 : JetInfo) (r : list JetInfo) :
  wf -> ranked_bjets = j0 :: j1 :: r ->
  exists sel,
    SelectSignalJets event period jet_ordering = inr sel /\
    (selectedBjetPair sel).1 = index j0 /\
    (selectedBjetPair sel).1 < njets /\
    (selectedBjetPair sel).2 < njets /\
    (selectedBjetPair sel).1 <> (selectedBjetPair sel).2.
Proof.
  intros Hwf Hl.
  assert (index j0 < njets) as H0.
  { apply (ranked_index_lt SelectedSignalJets_default true
             (PtCut period jet_ordering) (EtaCut period jet_ordering)).
    fold ranked_bjets. rewrite Hl. left. }
  assert (index j1 < njets) as H1.
  { apply (ranked_index_lt SelectedSignalJets_default true
             (PtCut period jet_ordering) (EtaCut period jet_ordering)).
    fold ranked_bjets. rewrite Hl. right; left. }
  assert (index j0 <> index j1) as H01.
  { apply (ranked_lookup_distinct SelectedSignalJets_default true
             (PtCut period jet_ordering) (EtaCut period jet_ordering)
             0%nat 1%nat);
      [lia | |]; fold ranked_bjets; by rewrite Hl. }
  assert (Hb := stage2_bjets). rewrite stage1_bjets, Hl in Hb.
  destruct (SelectSignalJets_cases Hwf) as (sel & Hsel & Hcases).
  exists sel. split; [exact Hsel |].
  destruct Hcases as [[Hhas ->] | [(_ & j & r' & Hre & ->) | (_ & _ & ->)]].
  - rewrite Hb. simpl.
    destruct (Pass period jet_ordering event (index j1)); [done |].
    rewrite HasBjetPair_second_undefined in Hhas; [done | done |].
    by rewrite Hb.
  - assert (j ∈ reranked_bjets stage2) as Hj by (rewrite Hre; left).
    destruct (ranked_not_selected _ _ _ _ _ Hj) as [Hnb _].
    apply isSelectedBjet_false in Hnb as [Hne _].
    apply ranked_index_lt in Hj.
    simpl. rewrite Hb in *. simpl in *. done.
  - rewrite Hl. simpl. rewrite Hb. simpl. done.
Qed.

(** The VBF pair of the returned selection. *)
Lemma SelectSignalJets_vbf_shape :
  wf ->
  exists sel,
    SelectSignalJets event period jet_ordering = inr sel /\
    (selectedVBFjetPair sel = UndefinedJetPair
     \/ (selectedVBFjetPair sel = selectedVBFjetPair stage2 /\
         exists a b, a ∈ ranked_vbf stage1 /\ b ∈ ranked_vbf stage1 /\
           index a <> index b /\
           selectedVBFjetPair stage2 = (index a, index b))).
Proof.
  intros Hwf.
  destruct (SelectSignalJets_cases Hwf) as (sel & Hsel & Hcases).
  exists sel. split; [exact Hsel |].
  destruct Hcases as [[_ ->] | [(_ & j & r' & Hre & ->) | (_ & _ & ->)]].
  - destruct stage2_vbf_shape as [Hu | Hd]; [by left | by right].
  - destruct stage2_vbf_shape as [Hu | Hd]; [by left | by right].
  - left. by destruct ranked_bjets as [| ? [| ? ?]].
Qed.

Lemma HasVBFPair_undefined (s : SelectedSignalJets) :
  wf -> selectedVBFjetPair s = UndefinedJetPair -> HasVBFPair s njets = false.
Proof.
  intros Hwf Hv. unfold HasVBFPair. rewrite Hv. simpl.
  by rewrite undefined_not_valid.
Qed.

(** C10: on a well-formed record SelectSignalJets returns a selection, and
    when that selection holds both a defined b-jet pair and a defined VBF
    pair no jet index occurs in both pairs. *)
Theorem SelectSignalJets_pairs_disjoint :
  wf ->
  exists sel,
    SelectSignalJets event period jet_ordering = inr sel /\
    (HasBjetPair sel njets = true -> HasVBFPair sel njets = true ->
     (selectedBjetPair sel).1 <> (selectedVBFjetPair sel).1 /\
     (selectedBjetPair sel).1 <> (selectedVBFjetPair sel).2 /\
     (selectedBjetPair sel).2 <> (selectedVBFjetPair sel).1 /\
     (selectedBjetPair sel).2 <> (selectedVBFjetPair sel).2).
Proof.
  intros Hwf.
  destruct (SelectSignalJets_cases Hwf) as (sel & Hsel & Hcases).
  exists sel. split; [exact Hsel |]. intros _ Hvbf.
  destruct Hcases as [[_ ->] | [(_ & j0 & r & Hre & ->) | (_ & _ & ->)]].
  - destruct stage2_vbf_shape as [Hu | (a & b & Ha & Hb & _ & Hv)].
    + by rewrite (HasVBFPair_undefined _ Hwf Hu) in Hvbf.
    + rewrite Hv. simpl.
      destruct (ranked_vbf_not_bjet _ Ha) as (_ & ? & ?).
      destruct (ranked_vbf_not_bjet _ Hb) as (_ & ? & ?). done.
  - assert (j0 ∈ reranked_bjets stage2) as Hj0 by (rewrite Hre; left).
    apply ranked_not_selected in Hj0 as [_ Hnv].
    apply isSelectedVBFjet_false in Hnv as [Hn1 Hn2].
    destruct stage2_vbf_shape as [Hu | (a & b & Ha & Hb & _ & Hv)].
    + rewrite HasVBFPair_undefined in Hvbf; [done | exact Hwf | exact Hu].
    + simpl. rewrite Hv in *. simpl in *.
      destruct (ranked_vbf_not_bjet _ Ha) as (_ & ? & _).
      destruct (ranked_vbf_not_bjet _ Hb) as (_ & ? & _). done.
  - rewrite HasVBFPair_undefined in Hvbf; [done | exact Hwf |].
    by destruct ranked_bjets as [| ? [| ? ?]].
Qed.

Lemma undefined_pair_undefined : wf -> pair_undefined UndefinedJetPair njets.
Proof.
  intros [_ Hmax]. unfold pair_undefined, UndefinedJetPair. simpl. lia.
Qed.

(** C3 (amended): on a well-formed record SelectSignalJets returns a
    selection whose VBF pair is fully defined or fully undefined, and whose
    b-jet pair is fully defined, fully undefined, or - exactly one jet passing
    the cuts of the b-tag ranking - holds a valid first index next to an
    undefined second index. *)
Theorem SelectSignalJets_pair_shapes :
  wf ->
  exists sel,
    SelectSignalJets event period jet_ordering = inr sel /\
    (pair_defined (selectedVBFjetPair sel) njets \/
     pair_undefined (selectedVBFjetPair sel) njets) /\
    (pair_defined (selectedBjetPair sel) njets \/
     pair_undefined (selectedBjetPair sel) njets \/
     (n_passing = 1%nat /\
      (selectedBjetPair sel).1 < njets /\
      (selectedBjetPair sel).2 = size_t_max /\
      ~ (selectedBjetPair sel).2 < njets)).
Proof.
  intros Hwf.
  destruct (SelectSignalJets_vbf_shape Hwf) as (sel & Hsel & Hvbf).
  exists sel. split; [exact Hsel |]. split.
  - destruct Hvbf as [-> | (-> & a & b & Ha & Hb & Hab & ->)].
    + right. by apply undefined_pair_undefined.
    + left. unfold pair_defined. simpl.
      split; [by eapply ranked_index_lt |]. split; [by eapply ranked_index_lt | done].
  - destruct ranked_bjets as [| j0 [| j1 r]] eqn:Hl.
    + destruct (SelectSignalJets_no_candidate Hwf Hl) as [Hsel' Hb].
      rewrite Hsel in Hsel'. injection Hsel' as ->.
      right; left. simpl. rewrite Hb. by apply undefined_pair_undefined.
    + destruct (SelectSignalJets_one_candidate j0 Hwf Hl) as [Hsel' Hb].
      rewrite Hsel in Hsel'. injection Hsel' as ->.
      right; right. simpl. rewrite Hb. simpl.
      split; [unfold n_passing; by rewrite <- ranked_bjets_length, Hl |].
      split.
      { apply (ranked_index_lt SelectedSignalJets_default true
                 (PtCut period jet_ordering) (EtaCut period jet_ordering)).
        fold ranked_bjets. rewrite Hl. left. }
      split; [reflexivity |]. destruct Hwf as [_ Hmax]. lia.
    + destruct (SelectSignalJets_two_candidates j0 j1 r Hwf Hl)
        as (sel' & Hsel' & _ & H1 & H2 & H12).
      rewrite Hsel in Hsel'. injection Hsel' as <-.
      left. by repeat split.
Qed.

(** C5: on a well-formed record, (a) when exactly one jet passes all cuts of
    the b-tag ranking the returned selection has an undefined second b-jet
    and an undefined VBF pair; (b) when at least two jets pass, the ranking
    has a second entry, and if that entry fails the medium working point -
    so that the second slot is still undefined after line 98 - the returned
    selection has a valid second b-jet and a defined b-jet pair. *)
Theorem SelectSignalJets_fallback_coverage :
  wf ->
  (n_passing = 1%nat ->
   exists sel,
     SelectSignalJets event period jet_ordering = inr sel /\
     (selectedBjetPair sel).2 = size_t_max /\
     ~ (selectedBjetPair sel).2 < njets /\
     selectedVBFjetPair sel = UndefinedJetPair /\
     HasVBFPair sel njets = false) /\
  ((2 <= n_passing)%nat ->
   exists j0 j1 r sel,
     bjets_ranking event period jet_ordering = inr (j0 :: j1 :: r) /\
     SelectSignalJets event period jet_ordering = inr sel /\
     (Pass period jet_ordering event (index j1) = false ->
      (selectedBjetPair
         (select_bjets event period jet_ordering (j0 :: j1 :: r)
            SelectedSignalJets_default)).2 = size_t_max /\
      (selectedBjetPair sel).2 < njets /\
      HasBjetPair sel njets = true)).
Proof.
  intros Hwf. unfold n_passing. rewrite <- (ranked_bjets_length Hwf). split.
  - intros Hn. destruct ranked_bjets as [| j0 [| j1 r]] eqn:Hl; try discriminate.
    destruct (SelectSignalJets_one_candidate j0 Hwf Hl) as [Hsel Hb].
    eexists. split; [exact Hsel |]. simpl. rewrite Hb. simpl.
    split; [reflexivity |]. split; [destruct Hwf as [_ Hmax]; lia |].
    split; [reflexivity |]. by apply HasVBFPair_undefined.
  - intros Hn. destruct ranked_bjets as [| j0 [| j1 r]] eqn:Hl;
      simpl in Hn; try lia.
    destruct (SelectSignalJets_two_candidates j0 j1 r Hwf Hl)
      as (sel & Hsel & _ & H1 & H2 & _).
    exists j0, j1, r, sel.
    split; [by rewrite (bjets_ranking_ok Hwf), Hl |].
    split; [exact Hsel |]. intros Hpass. split.
    + unfold select_bjets. simpl. by rewrite Hpass.
    + split; [exact H2 |]. unfold HasBjetPair.
      apply andb_true_iff. by rewrite !N.ltb_lt.
Qed.

Lemma jet_candidate_intro s useBTag n p pu :
  jets_p4 event !! n = Some p -> jets_pu_id event !! n = Some pu ->
  isSelectedBjet s (N.of_nat n) = false ->
  isSelectedVBFjet s (N.of_nat n) = false ->
  PassEcalNoiceVetoJets p period pu = true ->
  (Z.land pu 2 =? 0)%Z = false ->
  jet_candidate event period jet_ordering s useBTag n
  = Some (mkJetInfo p (N.of_nat n)
            (if useBTag then BTag period jet_ordering event (N.of_nat n)
             else Pt p)).
Proof.
  intros Hp Hpu Hb Hv Hveto Hbit. unfold jet_candidate.
  rewrite Hp, Hpu. simpl. by rewrite Hb, Hv, Hveto, Hbit.
Qed.

(** The members of the VBF ranking of line 101: the jets that pass the
    noise veto, the pile-up-id bit and the VBF thresholds and are not a
    b-jet chosen by line 98; their tag is their pt. *)
Lemma elem_of_ranked_vbf (j : JetInfo) :
  wf ->
  j ∈ ranked_vbf stage1 <->
  exists n p pu,
    jets_p4 event !! n = Some p /\ jets_pu_id event !! n = Some pu /\
    PassEcalNoiceVetoJets p period pu = true /\
    (Z.land pu 2 =? 0)%Z = false /\
    PassCuts vbf_pt_cut vbf_eta_cut j = true /\
    isSelectedBjet stage1 (N.of_nat n) = false /\
    j = mkJetInfo p (N.of_nat n) (Pt p).
Proof.
  intros Hwf. unfold ranked_vbf. rewrite elem_of_OrderJets. split.
  - intros [Hj Hcut].
    apply elem_of_candidates in Hj as (n & Hn & Hj).
    pose proof Hj as Hj'.
    apply jet_candidate_Some in Hj
      as (p & pu & Hp & Hpu & Hb & Hv & Hveto & Hbit & _ & _).
    rewrite (jet_candidate_intro _ _ _ _ _ Hp Hpu Hb Hv Hveto Hbit) in Hj'.
    injection Hj' as <-. exists n, p, pu. by repeat split.
  - intros (n & p & pu & Hp & Hpu & Hveto & Hbit & Hcut & Hb & ->).
    split; [| exact Hcut].
    unfold candidates. apply list_elem_of_omap. exists n. split.
    + apply elem_of_seq. apply lookup_lt_Some in Hp. lia.
    + apply (jet_candidate_intro stage1 false n p pu); try done.
      apply isSelectedVBFjet_false. rewrite stage1_vbf. simpl.
      apply lookup_lt_Some in Hp. destruct Hwf as [_ Hmax].
      unfold size in Hmax. lia.
Qed.

(** C6: on a well-formed record the b-tag ranking, the VBF ranking and the
    selection are all returned; the VBF ranking holds exactly the jets that
    pass the noise veto, the pile-up-id bit and the VBF thresholds and are no
    b-jet chosen by then; and a defined VBF pair of the returned selection is
    a pair of that ranking whose invariant mass is at least that of every
    pair of the ranking and strictly above that of every pair the scan
    visits earlier. *)
Theorem SelectSignalJets_vbf_maximal :
  wf ->
  exists Lb Lv sel,
    bjets_ranking event period jet_ordering = inr Lb /\
    vbf_ranking event period jet_ordering
      (select_bjets event period jet_ordering Lb SelectedSignalJets_default)
    = inr Lv /\
    SelectSignalJets event period jet_ordering = inr sel /\
    (forall j, j ∈ Lv <->
       exists n p pu,
         jets_p4 event !! n = Some p /\ jets_pu_id event !! n = Some pu /\
         PassEcalNoiceVetoJets p period pu = true /\
         (Z.land pu 2 =? 0)%Z = false /\
         PassCuts vbf_pt_cut vbf_eta_cut j = true /\
         isSelectedBjet
           (select_bjets event period jet_ordering Lb SelectedSignalJets_default)
           (N.of_nat n) = false /\
         j = mkJetInfo p (N.of_nat n) (Pt p)) /\
    (HasVBFPair sel njets = true ->
     exists n h a b,
       (n < h)%nat /\ Lv !! n = Some a /\ Lv !! h = Some b /\
       selectedVBFjetPair sel = (index a, index b) /\
       (forall n' h' a' b', (n' < h')%nat ->
          Lv !! n' = Some a' -> Lv !! h' = Some b' ->
          (mjj a' b' <= mjj a b)%Q) /\
       (forall n' h' a' b', (n' < h')%nat -> visited_before (n', h') (n, h) ->
          Lv !! n' = Some a' -> Lv !! h' = Some b' ->
          (mjj a' b' < mjj a b)%Q)).
Proof.
  intros Hwf.
  destruct (SelectSignalJets_cases Hwf) as (sel & Hsel & Hcases).
  exists ranked_bjets, (ranked_vbf stage1), sel.
  split; [by apply bjets_ranking_ok |].
  split; [by apply vbf_ranking_ok |].
  split; [exact Hsel |].
  split; [intros j; by apply elem_of_ranked_vbf |].
  intros Hvbf.
  assert (selectedVBFjetPair sel = selectedVBFjetPair stage2) as Hv.
  { destruct Hcases as [[_ ->] | [(_ & j & r' & _ & ->) | (_ & _ & ->)]];
      try reflexivity.
    rewrite HasVBFPair_undefined in Hvbf; [done | done |].
    by destruct ranked_bjets as [| ? [| ? ?]]. }
  rewrite Hv.
  destruct stage2_cases
    as [[_ Heq] | (n & h & a & b & Hnh & Ha & Hb & Heq & Hle & Hlt)].
  - exfalso. unfold HasVBFPair in Hvbf. rewrite Hv, Heq, stage1_vbf in Hvbf.
    simpl in Hvbf. by rewrite (undefined_not_valid Hwf) in Hvbf.
  - exists n, h, a, b. rewrite Heq. by repeat split.
Qed.

Lemma passes_bjet_cuts_true (n : nat) :
  passes_bjet_cuts n = true ->
  exists p pu,
    jets_p4 event !! n = Some p /\ jets_pu_id event !! n = Some pu /\
    PassEcalNoiceVetoJets p period pu = true /\
    (Z.land pu 2 =? 0)%Z = false /\
    Qltb (PtCut period jet_ordering) (Pt p) = true /\
    Qltb (Qabs (eta p)) (EtaCut period jet_ordering) = true.
Proof.
  unfold passes_bjet_cuts.
  destruct (jets_p4 event !! n) as [p |]; [| discriminate].
  destruct (jets_pu_id event !! n) as [pu |]; [| discriminate].
  rewrite !andb_true_iff, negb_true_iff. intros [[[? ?] ?] ?].
  by exists p, pu.
Qed.

(** C7: on a well-formed record with three jets where jet 0 and jet 1 pass
    all cuts of the b-tag ranking, jet 0 has the higher tag score, jet 1
    passes the medium working point and jet 2 fails the pt cut,
    SelectSignalJets returns the b-jet pair (0, 1) with two b-tag candidates
    counted and an undefined VBF pair, the VBF ranking holding fewer than two
    jets. *)
Theorem SelectSignalJets_three_jets :
  wf ->
  length (jets_p4 event) = 3%nat ->
  passes_bjet_cuts 0 = true ->
  passes_bjet_cuts 1 = true ->
  (BTag period jet_ordering event 1 < BTag period jet_ordering event 0)%Q ->
  Pass period jet_ordering event 1 = true ->
  (forall p2, jets_p4 event !! 2%nat = Some p2 ->
              Qltb (PtCut period jet_ordering) (Pt p2) = false) ->
  exists Lv sel,
    SelectSignalJets event period jet_ordering = inr sel /\
    selectedBjetPair sel = (0, 1) /\
    n_bjets sel = 2 /\
    vbf_ranking event period jet_ordering
      (set_bjet_second
         (set_bjet_first (set_n_bjets SelectedSignalJets_default 2) 0) 1)
    = inr Lv /\
    (length Lv < 2)%nat /\
    selectedVBFjetPair sel = UndefinedJetPair /\
    HasVBFPair sel njets = false.
Proof.
  intros Hwf Hlen H0 H1 Htag Hpass H2.
  apply passes_bjet_cuts_true in H0 as (p0 & pu0 & Hp0 & Hpu0 & Hv0 & Hb0 & Hpt0 & He0).
  apply passes_bjet_cuts_true in H1 as (p1 & pu1 & Hp1 & Hpu1 & Hv1 & Hb1 & Hpt1 & He1).
  assert (exists p2 pu2, jets_p4 event !! 2%nat = Some p2 /\
                         jets_pu_id event !! 2%nat = Some pu2)
    as (p2 & pu2 & Hp2 & Hpu2).
  { destruct Hwf as [Hpu _].
    destruct (lookup_lt_is_Some_2 (jets_p4 event) 2) as [p2 ?]; [lia |].
    destruct (lookup_lt_is_Some_2 (jets_pu_id event) 2) as [pu2 ?]; [lia |].
    by exists p2, pu2. }
  specialize (H2 _ Hp2).
  set (j0 := mkJetInfo p0 0 (BTag period jet_ordering event 0)).
  set (j1 := mkJetInfo p1 1 (BTag period jet_ordering event 1)).
  assert (jet_candidate event period jet_ordering SelectedSignalJets_default
            true 0 = Some j0) as Hc0.
  { destruct (default_not_selected 0 Hwf ltac:(lia)).
    by apply (jet_candidate_intro _ true 0%nat p0 pu0). }
  assert (jet_candidate event period jet_ordering SelectedSignalJets_default
            true 1 = Some j1) as Hc1.
  { destruct (default_not_selected 1 Hwf ltac:(lia)).
    by apply (jet_candidate_intro _ true 1%nat p1 pu1). }
  assert (PassCuts (PtCut period jet_ordering) (EtaCut period jet_ordering) j0
          = true) as Hcut0 by (unfold PassCuts; simpl; by rewrite Hpt0, He0).
  assert (PassCuts (PtCut period jet_ordering) (EtaCut period jet_ordering) j1
          = true) as Hcut1 by (unfold PassCuts; simpl; by rewrite Hpt1, He1).
  assert (ranked_bjets = [j0; j1]) as Hranked.
  { unfold ranked_bjets, candidates. rewrite Hlen.
    cbn [seq omap list_omap]. rewrite Hc0, Hc1.
    assert (List.filter
              (PassCuts (PtCut period jet_ordering) (EtaCut period jet_ordering))
              (match jet_candidate event period jet_ordering
                       SelectedSignalJets_default true 2 with
               | Some j2 => [j2]
               | None => []
               end) = []) as Hf2.
    { destruct (jet_candidate event period jet_ordering
                  SelectedSignalJets_default true 2) as [j2 |] eqn:Hc2;
        [| reflexivity].
      apply jet_candidate_Some in Hc2 as (p & pu & Hp & _ & _ & _ & _ & _ & Hp4 & _).
      rewrite Hp2 in Hp. injection Hp as <-.
      simpl. unfold PassCuts. by rewrite Hp4, H2. }
    unfold OrderJets, FilterJets.
    change (List.filter ?f (j0 :: j1 :: ?l))
      with (if f j0 then j0 :: (if f j1 then j1 :: List.filter f l
                                else List.filter f l)
            else (if f j1 then j1 :: List.filter f l
                  else List.filter f l)).
    rewrite Hcut0, Hcut1.
    destruct (jet_candidate event period jet_ordering
                SelectedSignalJets_default true 2) as [j2 |];
      rewrite Hf2; simpl;
      (replace (CompareJets j1 j0) with false; [reflexivity |]);
      unfold CompareJets; simpl;
      (replace (Qeq_bool (BTag period jet_ordering event 1)
                  (BTag period jet_ordering event 0)) with false;
       [simpl; symmetry; apply Qltb_ge; lra |]);
      symmetry; apply not_true_is_false; intros Heq;
      apply Qeq_bool_iff in Heq; lra. }
  assert (stage1 = set_bjet_second
                      (set_bjet_first (set_n_bjets SelectedSignalJets_default 2) 0)
                      1) as Hs1.
  { unfold stage1, select_bjets. rewrite Hranked. simpl index.
    by rewrite Hpass. }
  assert (length (ranked_vbf stage1) < 2)%nat as Hlv.
  { unfold ranked_vbf. rewrite OrderJets_length.
    eapply Nat.le_lt_trans; [apply sublist_length, list_filter_sublist |].
    unfold candidates. rewrite Hlen. cbn [seq omap list_omap].
    assert (jet_candidate event period jet_ordering stage1 false 0 = None) as ->.
    { unfold jet_candidate. rewrite Hp0, Hpu0, Hs1. reflexivity. }
    assert (jet_candidate event period jet_ordering stage1 false 1 = None) as ->.
    { unfold jet_candidate. rewrite Hp1, Hpu1, Hs1. reflexivity. }
    destruct (jet_candidate event period jet_ordering stage1 false 2);
      simpl; lia. }
  assert (stage2 = stage1) as Hs2.
  { unfold stage2.
    destruct (ranked_vbf stage1) as [| a [| b r]]; simpl in Hlv;
      [reflexivity | reflexivity | lia]. }
  exists (ranked_vbf stage1), stage1.
  split.
  { rewrite (SelectSignalJets_stages Hwf), Hs2.
    assert (HasBjetPair stage1 njets = true) as ->; [| reflexivity].
    rewrite Hs1. unfold HasBjetPair, size. rewrite Hlen. reflexivity. }
  split; [by rewrite Hs1 |].
  split; [by rewrite Hs1 |].
  split; [rewrite <- Hs1; by apply vbf_ranking_ok |].
  split; [exact Hlv |].
  split; [apply stage1_vbf |].
  apply HasVBFPair_undefined; [exact Hwf | apply stage1_vbf].
Qed.

(** ** Further properties of the selection *)

(** The head of a ranking has the largest tag. *)
Lemma insert_jet_head (j : JetInfo) (l : list JetInfo) (h : JetInfo)
    (t : list JetInfo) :
  insert_jet j l = h :: t ->
  (forall x, x ∈ l -> exists h0, head l = Some h0 /\ (tag x <= tag h0)%Q) ->
  forall x, x ∈ j :: l -> (tag x <= tag h)%Q.
Proof.
  destruct l as [| y l']; simpl.
  - intros [= <- <-] _ x Hx. apply list_elem_of_singleton in Hx as ->. lra.
  - intros Hins Hmax.
    assert (forall x, x ∈ y :: l' -> (tag x <= tag y)%Q) as Hy.
    { intros x Hx. destruct (Hmax x Hx) as (h0 & [= <-] & Hle). exact Hle. }
    unfold CompareJets in Hins.
    destruct (Qeq_bool (tag y) (tag j)) eqn:Heq; simpl in Hins.
    + apply Qeq_bool_iff in Heq.
      destruct (Qltb (Pt (p4 j)) (Pt (p4 y))); injection Hins as <- <-;
        intros x Hx; apply elem_of_cons in Hx as [-> | Hx];
        try (specialize (Hy x Hx)); lra.
    + destruct (Qltb (tag j) (tag y)) eqn:Hlt; injection Hins as <- <-;
        intros x Hx; apply elem_of_cons in Hx as [-> | Hx];
        try (specialize (Hy x Hx));
        try (apply Qltb_lt in Hlt); try (apply Qltb_ge in Hlt); lra.
Qed.

Lemma sort_jets_head_max (l : list JetInfo) :
  forall x, x ∈ sort_jets l ->
  exists h0, head (sort_jets l) = Some h0 /\ (tag x <= tag h0)%Q.
Proof.
  induction l as [| j l IH]; simpl; intros x Hx.
  - by apply elem_of_nil in Hx.
  - destruct (insert_jet j (sort_jets l)) as [| h t] eqn:Hins.
    + by apply elem_of_nil in Hx.
    + exists h. split; [reflexivity |].
      apply (insert_jet_head j (sort_jets l) h t Hins IH).
      rewrite <- Hins in Hx. by rewrite insert_jet_perm in Hx.
Qed.

Lemma OrderJets_head_max (l : list JetInfo) (pt_cut eta_cut : Q)
    (h : JetInfo) (t : list JetInfo) (x : JetInfo) :
  OrderJets l true pt_cut eta_cut = h :: t ->
  x ∈ l -> PassCuts pt_cut eta_cut x = true -> (tag x <= tag h)%Q.
Proof.
  intros Hl Hx Hcut.
  assert (x ∈ OrderJets l true pt_cut eta_cut) as Hin
    by (by apply elem_of_OrderJets).
  unfold OrderJets in *.
  destruct (sort_jets_head_max _ x Hin) as (h0 & Hh & Hle).
  rewrite Hl in Hh. by injection Hh as <-.
Qed.

(** A jet that passes the cuts of the b-tag ranking is in the ranking, with
    its b-tag score as tag. *)
Lemma passes_in_ranked (n : nat) :
  wf -> passes_bjet_cuts n = true ->
  exists j, j ∈ ranked_bjets /\ index j = N.of_nat n /\
            tag j = BTag period jet_ordering event (N.of_nat n).
Proof.
  intros Hwf Hn.
  pose proof Hn as Hn'.
  apply passes_bjet_cuts_true in Hn'
    as (p & pu & Hp & Hpu & Hveto & Hbit & Hpt & Heta).
  assert (n < length (jets_p4 event))%nat as Hlt
    by (by apply lookup_lt_Some in Hp).
  destruct (default_not_selected n Hwf Hlt) as [Hb Hv].
  pose proof (jet_candidate_intro SelectedSignalJets_default true n p pu
                Hp Hpu Hb Hv Hveto Hbit) as Hc.
  exists (mkJetInfo p (N.of_nat n) (BTag period jet_ordering event (N.of_nat n))).
  split; [| split; reflexivity].
  unfold ranked_bjets. apply elem_of_OrderJets. split.
  - unfold candidates. apply list_elem_of_omap. exists n.
    split; [apply elem_of_seq; lia | exact Hc].
  - unfold PassCuts. simpl. by rewrite Hpt, Heta.
Qed.

(** X2: The candidate count of the returned selection is the number of jets
    that pass the noise veto, the pile-up-id bit and the thresholds of the
    b-tag ranking, whether or not they pass the medium working point. *)
Theorem SelectSignalJets_n_bjets :
  wf ->
  exists sel,
    SelectSignalJets event period jet_ordering = inr sel /\
    n_bjets sel = N.of_nat n_passing.
Proof.
  intros Hwf. destruct (SelectSignalJets_cases Hwf) as (sel & Hsel & Hcases).
  exists sel. split; [exact Hsel |].
  assert (n_bjets stage2 = N.of_nat n_passing) as Hn.
  { rewrite stage2_n_bjets, stage1_n_bjets. unfold size, n_passing.
    by rewrite (ranked_bjets_length Hwf). }
  destruct Hcases as [[_ ->] | [(_ & j0 & r & _ & ->) | (_ & _ & ->)]];
    try exact Hn.
  by destruct ranked_bjets as [| ? [| ? ?]].
Qed.

(** X3: The returned selection never holds a VBF pair without a b-jet pair. *)
Theorem SelectSignalJets_vbf_needs_bjets :
  wf ->
  exists sel,
    SelectSignalJets event period jet_ordering = inr sel /\
    (HasVBFPair sel njets = true -> HasBjetPair sel njets = true).
Proof.
  intros Hwf.
  destruct ranked_bjets as [| j0 [| j1 r]] eqn:Hl.
  - destruct (SelectSignalJets_no_candidate Hwf Hl) as [Hsel _].
    eexists. split; [exact Hsel |]. intros Hv.
    by rewrite HasVBFPair_undefined in Hv.
  - destruct (SelectSignalJets_one_candidate j0 Hwf Hl) as [Hsel _].
    eexists. split; [exact Hsel |]. intros Hv.
    by rewrite HasVBFPair_undefined in Hv.
  - destruct (SelectSignalJets_two_candidates j0 j1 r Hwf Hl)
      as (sel & Hsel & _ & H1 & H2 & _).
    exists sel. split; [exact Hsel |]. intros _.
    unfold HasBjetPair. apply andb_true_iff. by rewrite !N.ltb_lt.
Qed.

(** X4: Every valid index of the returned b-jet pair is the position of a jet
    that passes the noise veto, the pile-up-id bit and the thresholds of the
    b-tag ranking. *)
Theorem SelectSignalJets_bjets_pass_cuts :
  wf ->
  exists sel,
    SelectSignalJets event period jet_ordering = inr sel /\
    forall i, isSelectedBjet sel i = true -> i < njets ->
      exists n, i = N.of_nat n /\ passes_bjet_cuts n = true.
Proof.
  intros Hwf. destruct (SelectSignalJets_cases Hwf) as (sel & Hsel & Hcases).
  exists sel. split; [exact Hsel |]. intros i Hi Hlt.
  assert (forall j, j ∈ ranked_bjets -> index j = i ->
            exists n, i = N.of_nat n /\ passes_bjet_cuts n = true) as Hranked.
  { intros j Hj <-.
    destruct (ranked_passes SelectedSignalJets_default true j Hj)
      as (n & Hn & _ & Hp).
    by exists n. }
  assert (forall j, j ∈ reranked_bjets stage2 -> index j = i ->
            exists n, i = N.of_nat n /\ passes_bjet_cuts n = true) as Hre.
  { intros j Hj <-.
    destruct (ranked_passes stage2 true j Hj) as (n & Hn & _ & Hp).
    by exists n. }
  pose proof (undefined_not_valid Hwf) as Hmax. apply N.ltb_ge in Hmax.
  assert (forall a b, isSelectedBjet sel i = true ->
            selectedBjetPair sel = (a, b) -> a = i \/ b = i) as Hpair.
  { intros a b H Hab. unfold isSelectedBjet in H. rewrite Hab in H.
    simpl in H. apply orb_true_iff in H as [H | H]; apply N.eqb_eq in H; auto. }
  pose proof stage1_bjets as Hs1. rewrite <- stage2_bjets in Hs1.
  destruct Hcases as [[_ ->] | [(_ & j & r' & Hrr & ->) | (_ & Hrr & ->)]].
  - destruct ranked_bjets as [| j0 [| j1 r]] eqn:Hl.
    + destruct (Hpair _ _ Hi Hs1); unfold size_t_max in *; lia.
    + destruct (Hpair _ _ Hi Hs1) as [H | H];
        [apply (Hranked j0); [left | exact H] | unfold size_t_max in *; lia].
    + destruct (Hpair _ _ Hi Hs1) as [H | H];
        [apply (Hranked j0); [left | exact H] |].
      destruct (Pass period jet_ordering event (index j1));
        [apply (Hranked j1); [right; left | exact H]
        | unfold size_t_max in *; lia].
  - assert (selectedBjetPair (set_bjet_second stage2 (index j))
            = ((selectedBjetPair stage2).1, index j)) as Hb by reflexivity.
    destruct (Hpair _ _ Hi Hb) as [H | H].
    + destruct ranked_bjets as [| j0 [| j1 r]] eqn:Hl; rewrite Hs1 in H;
        simpl in H; [unfold size_t_max in *; lia | |];
        apply (Hranked j0); try left; exact H.
    + apply (Hre j); [rewrite Hrr; left | exact H].
  - destruct ranked_bjets as [| j0 [| j1 r]] eqn:Hl.
    + assert (selectedBjetPair (set_vbf_pair stage2 UndefinedJetPair)
              = (size_t_max, size_t_max)) as Hb by (simpl; by rewrite Hs1).
      destruct (Hpair _ _ Hi Hb); unfold size_t_max in *; lia.
    + assert (selectedBjetPair (set_vbf_pair stage2 UndefinedJetPair)
              = (index j0, size_t_max)) as Hb by (simpl; by rewrite Hs1).
      destruct (Hpair _ _ Hi Hb) as [H | H];
        [apply (Hranked j0); [left | exact H] | unfold size_t_max in *; lia].
    + assert (selectedBjetPair
                (set_bjet_second (set_vbf_pair stage2 UndefinedJetPair)
                   (index j1))
              = (index j0, index j1)) as Hb by (simpl; by rewrite Hs1).
      destruct (Hpair _ _ Hi Hb) as [H | H];
        [apply (Hranked j0); [left | exact H]
        | apply (Hranked j1); [right; left | exact H]].
Qed.

(** X5: When at least one jet passes the cuts of the b-tag ranking, the first
    index of the returned b-jet pair is a jet that passes them and whose
    b-tag score is not below that of any other jet that passes them. *)
Theorem SelectSignalJets_first_bjet_top_tag :
  wf -> (1 <= n_passing)%nat ->
  exists sel n0,
    SelectSignalJets event period jet_ordering = inr sel /\
    (selectedBjetPair sel).1 = N.of_nat n0 /\
    passes_bjet_cuts n0 = true /\
    forall n, passes_bjet_cuts n = true ->
      (BTag period jet_ordering event (N.of_nat n)
       <= BTag period jet_ordering event (N.of_nat n0))%Q.
Proof.
  intros Hwf Hn. unfold n_passing in Hn. rewrite <- (ranked_bjets_length Hwf) in Hn.
  destruct (SelectSignalJets_cases Hwf) as (sel & Hsel & Hcases).
  destruct ranked_bjets as [| j0 r] eqn:Hl; [simpl in Hn; lia |].
  assert (j0 ∈ ranked_bjets) as Hj0 by (rewrite Hl; left).
  destruct (ranked_passes SelectedSignalJets_default true j0 Hj0)
    as (n0 & Hn0 & _ & Hp0).
  assert (tag j0 = BTag period jet_ordering event (N.of_nat n0)) as Htag0.
  { apply elem_of_OrderJets in Hj0 as [Hj0 _].
    apply elem_of_candidates in Hj0 as (k & _ & Hk).
    pose proof Hk as Hk'.
    apply jet_candidate_Some in Hk'
      as (p & pu & Hp & Hpu & Hb & Hv & Hveto & Hbit & _ & Hidx).
    rewrite (jet_candidate_intro _ _ _ _ _ Hp Hpu Hb Hv Hveto Hbit) in Hk.
    injection Hk as <-. simpl in *. by rewrite <- Hn0. }
  assert ((selectedBjetPair stage2).1 = index j0) as Hfirst.
  { rewrite stage2_bjets, stage1_bjets, Hl. by destruct r. }
  exists sel, n0. split; [exact Hsel |]. split.
  { rewrite <- Hn0, <- Hfirst.
    destruct Hcases as [[_ ->] | [(_ & j & r' & _ & ->) | (_ & _ & ->)]];
      try reflexivity.
    by destruct r. }
  split; [exact Hp0 |].
  intros n Hpn.
  destruct (passes_in_ranked n Hwf Hpn) as (j & Hj & _ & Htag).
  rewrite <- Htag, <- Htag0.
  apply elem_of_OrderJets in Hj as [Hj Hcut].
  exact (OrderJets_head_max _ _ _ _ _ _ Hl Hj Hcut).
Qed.

(** X6: When no jet passes the cuts of the b-tag ranking - as on a record
    without jets - the returned selection is the default one: both pairs
    undefined and no candidate counted, whatever the VBF scan found. *)
Theorem SelectSignalJets_no_passing_jet :
  wf -> n_passing = 0%nat ->
  SelectSignalJets event period jet_ordering = inr SelectedSignalJets_default.
Proof.
  intros Hwf Hn. unfold n_passing in Hn. rewrite <- (ranked_bjets_length Hwf) in Hn.
  destruct ranked_bjets as [| j0 r] eqn:Hl; [| discriminate Hn].
  destruct (SelectSignalJets_no_candidate Hwf Hl) as [-> Hb].
  f_equal. pose proof stage2_n_bjets as Hc.
  rewrite stage1_n_bjets, Hl in Hc.
  destruct stage2. simpl in *. by subst.
Qed.

(** X7: When the second entry of the b-tag ranking passes the medium working
    point, the b-jet pair is made of the two top entries of the ranking and
    the fallback does not run: the returned selection is the one reached
    after the scan of the VBF ranking. *)
Theorem SelectSignalJets_medium_pair (j0 j1 : JetInfo) (r : list JetInfo) :
  wf ->
  bjets_ranking event period jet_ordering = inr (j0 :: j1 :: r) ->
  Pass period jet_ordering event (index j1) = true ->
  let s := select_bjets event period jet_ordering (j0 :: j1 :: r)
             SelectedSignalJets_default in
  exists Lv,
    vbf_ranking event period jet_ordering s = inr Lv /\
    SelectSignalJets event period jet_ordering
    = inr (select_vbf_pair Lv s) /\
    selectedBjetPair (select_vbf_pair Lv s) = (index j0, index j1) /\
    HasBjetPair (select_vbf_pair Lv s) njets = true.
Proof.
  intros Hwf Hrank Hpass s.
  rewrite (bjets_ranking_ok Hwf) in Hrank. injection Hrank as Hl.
  assert (s = stage1) as Hs by (unfold stage1; by rewrite Hl).
  exists (ranked_vbf stage1). rewrite Hs.
  split; [by apply vbf_ranking_ok |].
  fold stage2.
  assert (selectedBjetPair stage2 = (index j0, index j1)) as Hb.
  { rewrite stage2_bjets, stage1_bjets, Hl. by rewrite Hpass. }
  assert (HasBjetPair stage2 njets = true) as Hhas.
  { unfold HasBjetPair. rewrite Hb. simpl. apply andb_true_iff.
    rewrite !N.ltb_lt.
    split; apply (ranked_index_lt SelectedSignalJets_default true
                    (PtCut period jet_ordering) (EtaCut period jet_ordering));
      fold ranked_bjets; rewrite Hl; [left | right; left]. }
  split; [| split; [exact Hb | exact Hhas]].
  by rewrite (SelectSignalJets_stages Hwf), Hhas.
Qed.

End Stages.
End SelectionFacts.

Section CacheFacts.
Context `{Col : Collaborators}.

(** ** Running member functions *)

Ltac unfold_methods :=
  unfold GetKinFitResults, GetKinFitResults_fit, GetKinFitResults_stored,
    GetMT2, GetResonanceMomentum, GetHiggsBB, GetBJet,
    GetVBFJet, GetLeg, GetFirstLeg, GetSecondLeg, GetLegIndex, GetMET,
    SetMetMomentum, GetJets, SetJets, GetFatJets, GetSummaryInfo,
    EventInfoBase_HasBjetPair, EventInfoBase_HasVBFjetPair, GetNJets,
    GetNFatJets, instance_njets, update_kinfit, get, modify, lift, mthrow,
    throw, mbind, mret, Method_bind, Method_ret in *.

Ltac case_scrutinee :=
  match goal with
  | |- context [match ?x with _ => _ end] =>
      lazymatch x with
      | context [match _ with _ => _ end] => fail
      | _ => destruct x eqn:?
      end
  end.

Ltac run_methods :=
  unfold_methods;
  cbn -[size at_ HasBjetPair HasVBFPair] in *;
  repeat (case_scrutinee; cbn -[size at_ HasBjetPair HasVBFPair] in *);
  try congruence.

Lemma bind_run {A B : Type} (m : Method A) (k : A -> Method B)
    (this : EventInfoBase) (a : A) :
  (m this).1 = inr a -> (m ≫= k) this = k a (m this).2.
Proof.
  unfold mbind, Method_bind. destruct (m this) as [r this']. simpl.
  by intros ->.
Qed.

Lemma bind_throw {A B : Type} (m : Method A) (k : A -> Method B)
    (this : EventInfoBase) (e : exception) :
  (m this).1 = inl e -> (m ≫= k) this = (inl e, (m this).2).
Proof.
  unfold mbind, Method_bind. destruct (m this) as [r this']. simpl.
  by intros ->.
Qed.


(** ** What a member function leaves alone *)

Lemma keeps_ret {A B : Type} (f : EventInfoBase -> B) (a : A) :
  keeps f (mret a).
Proof. by intros this. Qed.

Lemma keeps_bind {A B C : Type} (f : EventInfoBase -> C)
    (m : Method A) (k : A -> Method B) :
  keeps f m -> (forall a, keeps f (k a)) -> keeps f (m ≫= k).
Proof.
  intros Hm Hk this. unfold mbind, Method_bind.
  specialize (Hm this). destruct (m this) as [[e | a] this1]; simpl in *.
  - exact Hm.
  - by rewrite Hk.
Qed.

Lemma keeps_get {A B : Type} (f : EventInfoBase -> B) (g : EventInfoBase -> A) :
  keeps f (get g).
Proof. by intros this. Qed.

Lemma keeps_lift {A B : Type} (f : EventInfoBase -> B) (r : result A) :
  keeps f (lift r).
Proof. by intros this. Qed.

Lemma keeps_mthrow {A B : Type} (f : EventInfoBase -> B) (what : string) :
  keeps f (@mthrow _ _ _ A what).
Proof. by intros this. Qed.

Lemma keeps_modify {B : Type} (f : EventInfoBase -> B)
    (g : EventInfoBase -> EventInfoBase) :
  (forall this, f (g this) = f this) -> keeps f (modify g).
Proof. intros Hg this. apply Hg. Qed.

Ltac keeps_step :=
  first
    [ apply keeps_bind; [| intros ?]
    | apply keeps_ret
    | apply keeps_get
    | apply keeps_lift
    | apply keeps_mthrow
    | apply keeps_modify; intros []; reflexivity
    | match goal with
      | |- keeps _ (match ?x with _ => _ end) => destruct x
      end ].

Ltac solve_keeps := repeat keeps_step.

Lemma GetLegIndex_keeps {B : Type} (f : EventInfoBase -> B) (leg_id : N) :
  keeps f (GetLegIndex leg_id).
Proof. unfold GetLegIndex. solve_keeps. Qed.

Lemma HasBjetPair_keeps {B : Type} (f : EventInfoBase -> B) :
  keeps f EventInfoBase_HasBjetPair.
Proof. unfold EventInfoBase_HasBjetPair, GetNJets. solve_keeps. Qed.

Ltac solve_keeps_unfolding :=
  unfold GetKinFitResults, GetKinFitResults_fit, GetKinFitResults_stored,
    GetMT2, GetResonanceMomentum, GetHiggsBB, GetBJet,
    GetVBFJet, GetLeg, GetFirstLeg, GetSecondLeg, GetMET,
    SetMetMomentum, GetJets, SetJets, GetFatJets, GetSummaryInfo,
    EventInfoBase_HasVBFjetPair, update_kinfit;
  solve_keeps.

Lemma GetFirstLeg_immutables : keeps immutables GetFirstLeg.
Proof. solve_keeps_unfolding. Qed.

Lemma GetSecondLeg_immutables : keeps immutables GetSecondLeg.
Proof. solve_keeps_unfolding. Qed.

Lemma GetLeg_immutables (leg_id : N) : keeps immutables (GetLeg leg_id).
Proof. solve_keeps_unfolding. Qed.

Lemma GetJets_immutables : keeps immutables GetJets.
Proof. solve_keeps_unfolding. Qed.

Lemma GetFatJets_immutables : keeps immutables GetFatJets.
Proof. solve_keeps_unfolding. Qed.

Lemma GetMET_immutables : keeps immutables GetMET.
Proof. solve_keeps_unfolding. Qed.

Lemma GetBJet_immutables (index : N) : keeps immutables (GetBJet index).
Proof. solve_keeps_unfolding. Qed.

Lemma GetVBFJet_immutables (index : N) : keeps immutables (GetVBFJet index).
Proof. solve_keeps_unfolding. Qed.

Lemma GetHiggsBB_immutables : keeps immutables GetHiggsBB.
Proof. solve_keeps_unfolding. Qed.


Lemma GetMT2_immutables : keeps immutables GetMT2.
Proof. solve_keeps_unfolding. Qed.

Lemma GetResonanceMomentum_immutables (useSVfit addMET : bool) :
  keeps immutables (GetResonanceMomentum useSVfit addMET).
Proof. solve_keeps_unfolding. Qed.

Lemma GetLeg_kinfit (leg_id : N) : keeps kinfit_results (GetLeg leg_id).
Proof. solve_keeps_unfolding. Qed.

Lemma GetBJet_kinfit (index : N) : keeps kinfit_results (GetBJet index).
Proof. solve_keeps_unfolding. Qed.

Lemma GetMET_kinfit : keeps kinfit_results GetMET.
Proof. solve_keeps_unfolding. Qed.

Lemma observe_eq (this this' : EventInfoBase) :
  (GetFirstLeg this').1 = (GetFirstLeg this).1 ->
  (GetSecondLeg this').1 = (GetSecondLeg this).1 ->
  (GetJets this').1 = (GetJets this).1 ->
  (GetMET this').1 = (GetMET this).1 ->
  immutables this' = immutables this ->
  observe this' = observe this.
Proof. unfold observe. congruence. Qed.

Ltac solve_observe :=
  intros [];
  apply observe_eq; [run_methods .. | unfold immutables; run_methods].

Lemma observe_GetFirstLeg this : observe (GetFirstLeg this).2 = observe this.
Proof. revert this. solve_observe. Qed.

Lemma observe_GetSecondLeg this : observe (GetSecondLeg this).2 = observe this.
Proof. revert this. solve_observe. Qed.

Lemma observe_GetJets this : observe (GetJets this).2 = observe this.
Proof. revert this. solve_observe. Qed.

Lemma observe_GetMET this : observe (GetMET this).2 = observe this.
Proof. revert this. solve_observe. Qed.

Lemma observe_set_kinfit this k :
  observe (set_kinfit_results this k) = observe this.
Proof. revert this. solve_observe. Qed.

Lemma observe_GetBJet this index : observe (GetBJet index this).2 = observe this.
Proof. revert this. solve_observe. Qed.

Lemma observe_GetLeg this leg_id : observe (GetLeg leg_id this).2 = observe this.
Proof. revert this. solve_observe. Qed.

Lemma immutables_eq (this this' : EventInfoBase) :
  immutables this' = immutables this ->
  event this' = event this /\
  selected_signal_jets this' = selected_signal_jets this /\
  selected_htt_index this' = selected_htt_index this.
Proof. unfold immutables. intros H. by injection H as -> _ -> -> _ _. Qed.

Lemma observe_inv (this this' : EventInfoBase) :
  observe this' = observe this ->
  (GetFirstLeg this').1 = (GetFirstLeg this).1 /\
  (GetSecondLeg this').1 = (GetSecondLeg this).1 /\
  (GetJets this').1 = (GetJets this).1 /\
  (GetMET this').1 = (GetMET this).1 /\
  immutables this' = immutables this.
Proof.
  unfold observe. intros H.
  split; [exact (f_equal (fun t => t.1.1.1.1) H) |].
  split; [exact (f_equal (fun t => t.1.1.1.2) H) |].
  split; [exact (f_equal (fun t => t.1.1.2) H) |].
  split; [exact (f_equal (fun t => t.1.2) H) |].
  exact (f_equal (fun t => t.2) H).
Qed.

(** [GetBJet] and [GetLeg] return what the observed accessors determine. *)
Lemma GetBJet_observe (this this' : EventInfoBase) (index : N) :
  observe this' = observe this -> (GetBJet index this').1 = (GetBJet index this).1.
Proof.
  intros (_ & _ & Hj & _ & Hi)%observe_inv.
  apply immutables_eq in Hi as (He & Hs & _).
  destruct this, this'. simpl in He, Hs. subst.
  run_methods.
Qed.

Lemma GetLeg_observe (this this' : EventInfoBase) (leg_id : N) :
  observe this' = observe this -> (GetLeg leg_id this').1 = (GetLeg leg_id this).1.
Proof.
  intros (H1 & H2 & _)%observe_inv.
  unfold GetLeg. destruct (leg_id =? 1); [exact H1 |].
  destruct (leg_id =? 2); [exact H2 | reflexivity].
Qed.

Lemma GetMET_observe (this this' : EventInfoBase) :
  observe this' = observe this -> (GetMET this').1 = (GetMET this).1.
Proof. by intros (_ & _ & _ & H & _)%observe_inv. Qed.

Lemma bind_eq {A B : Type} (m : Method A) (k : A -> Method B)
    (this this' : EventInfoBase) (a : A) :
  m this = (inr a, this') -> (m ≫= k) this = k a this'.
Proof. unfold mbind, Method_bind. by intros ->. Qed.

Lemma run_eq {A : Type} (m : Method A) (this : EventInfoBase) (a : A) :
  (m this).1 = inr a -> m this = (inr a, (m this).2).
Proof. destruct (m this) as [r this']. simpl. by intros ->. Qed.

(** [std::find] returns the first position that holds the key. *)
Lemma find_index_Some (x : N) (l : list N) (i : nat) :
  find_index x l = Some i <->
  l !! i = Some x /\ forall j, (j < i)%nat -> l !! j <> Some x.
Proof.
  revert i. induction l as [| y l IH]; intros i; simpl.
  - split; [discriminate | by intros [? _]].
  - destruct (y =? x) eqn:Hy.
    + apply N.eqb_eq in Hy as ->. split.
      * intros [= <-]. split; [reflexivity | intros j Hj; lia].
      * intros [Hi Hfirst]. destruct i as [| i]; [reflexivity |].
        exfalso. apply (Hfirst 0%nat); [lia | reflexivity].
    + apply N.eqb_neq in Hy. split.
      * destruct (find_index x l) as [i' |] eqn:Hf; [| discriminate].
        intros [= <-]. destruct (proj1 (IH i') eq_refl) as [Hi Hfirst].
        split; [exact Hi |].
        intros [| j] Hj; simpl; [congruence | apply Hfirst; lia].
      * intros [Hi Hfirst]. destruct i as [| i]; simpl in Hi; [congruence |].
        assert (find_index x l = Some i) as ->; [| reflexivity].
        apply IH. split; [exact Hi |].
        intros j Hj. apply (Hfirst (S j)). lia.
Qed.

Lemma find_index_None (x : N) (l : list N) :
  find_index x l = None <-> x ∉ l.
Proof.
  induction l as [| y l IH]; simpl.
  - split; [intros _; apply not_elem_of_nil | reflexivity].
  - rewrite not_elem_of_cons. destruct (y =? x) eqn:Hy.
    + apply N.eqb_eq in Hy as ->. split; [discriminate | intros [? _]; done].
    + apply N.eqb_neq in Hy.
      destruct (find_index x l); simpl.
      * split; [discriminate |]. intros [_ Hl]. by apply IH in Hl.
      * split; [| reflexivity]. intros _. split; [congruence | by apply IH].
Qed.

Lemma HasBjetPair_run (this : EventInfoBase) :
  EventInfoBase_HasBjetPair this
  = (inr (HasBjetPair (selected_signal_jets this) (instance_njets this)), this).
Proof. reflexivity. Qed.

Lemma GetKinFitResults_first_call (this : EventInfoBase) :
  HasBjetPair (selected_signal_jets this) (instance_njets this) = true ->
  kinfit_results this = None ->
  GetKinFitResults this
  = ((match find_index
              (CombinationPairToIndex
                 (selectedBjetPair (selected_signal_jets this))
                 (instance_njets this))
              (kinFit_jetPairId (event this)) with
      | None => GetKinFitResults_fit (event this)
      | Some index => GetKinFitResults_stored (event this) index
      end);;
     k ← get kinfit_results;
     match k with
     | Some r => mret r
     | None => lift (inl null_dereference)
     end)
      (set_kinfit_results this (Some FitResults_default)).
Proof.
  intros Hhas Hk. unfold GetKinFitResults.
  rewrite (bind_eq _ _ _ _ _ (HasBjetPair_run this)), Hhas. cbn [negb].
  erewrite (bind_eq (get kinfit_results)) by reflexivity. rewrite Hk.
  erewrite (bind_eq (get selected_signal_jets)) by reflexivity.
  erewrite (bind_eq GetNJets) by reflexivity.
  erewrite (bind_eq (get event)) by reflexivity.
  erewrite (bind_eq (modify _)) by reflexivity.
  reflexivity.
Qed.

Ltac coherent Hobs :=
  repeat first [rewrite observe_GetBJet | rewrite observe_GetLeg
               | rewrite observe_GetMET];
  exact Hobs.

Lemma GetKinFitResults_fit_run (this s : EventInfoBase)
    (l1 l2 : LepCandidate) (b1 b2 : JetCandidate) (m : MET) (d : FitResults) :
  observe s = observe this ->
  kinfit_results s = Some d ->
  (GetLeg 1 this).1 = inr l1 -> (GetLeg 2 this).1 = inr l2 ->
  (GetBJet 1 this).1 = inr b1 -> (GetBJet 2 this).1 = inr b2 ->
  (GetMET this).1 = inr m ->
  let r := Fit (lep_momentum l1) (lep_momentum l2)
             (jet_momentum b1) (jet_momentum b2) m
             (TupleJet_resolution (event this) (jet_id (jet_tuple b1))
              * E (jet_momentum b1))
             (TupleJet_resolution (event this) (jet_id (jet_tuple b2))
              * E (jet_momentum b2)) in
  exists s',
    GetKinFitResults_fit (event this) s = (inr tt, s') /\
    kinfit_results s'
    = Some (mkFitResults (convergence r) (chi2 r) (TMath_Prob (chi2 r) 2)
              (mass r)) /\
    immutables s' = immutables s.
Proof.
  intros Hobs Hk Hl1 Hl2 Hb1 Hb2 Hm r. unfold GetKinFitResults_fit.
  erewrite (bind_eq (GetBJet 1));
    [| apply run_eq; erewrite GetBJet_observe; [exact Hb1 | coherent Hobs]].
  erewrite (bind_eq (GetBJet 1));
    [| apply run_eq; erewrite GetBJet_observe; [exact Hb1 | coherent Hobs]].
  erewrite (bind_eq (GetBJet 2));
    [| apply run_eq; erewrite GetBJet_observe; [exact Hb2 | coherent Hobs]].
  erewrite (bind_eq (GetBJet 2));
    [| apply run_eq; erewrite GetBJet_observe; [exact Hb2 | coherent Hobs]].
  erewrite (bind_eq (GetLeg 1));
    [| apply run_eq; erewrite GetLeg_observe; [exact Hl1 | coherent Hobs]].
  erewrite (bind_eq (GetLeg 2));
    [| apply run_eq; erewrite GetLeg_observe; [exact Hl2 | coherent Hobs]].
  erewrite (bind_eq (GetBJet 1));
    [| apply run_eq; erewrite GetBJet_observe; [exact Hb1 | coherent Hobs]].
  erewrite (bind_eq (GetBJet 2));
    [| apply run_eq; erewrite GetBJet_observe; [exact Hb2 | coherent Hobs]].
  erewrite (bind_eq GetMET);
    [| apply run_eq; erewrite GetMET_observe; [exact Hm | coherent Hobs]].
  fold r.
  match goal with
  | |- exists s', _ ?s0 = _ /\ _ => set (sn := s0)
  end.
  assert (kinfit_results sn = Some d) as Hkn.
  { subst sn.
    repeat first [rewrite GetMET_kinfit | rewrite GetBJet_kinfit
                 | rewrite GetLeg_kinfit].
    exact Hk. }
  assert (immutables sn = immutables s) as Him.
  { subst sn.
    repeat first [rewrite GetMET_immutables | rewrite GetBJet_immutables
                 | rewrite GetLeg_immutables].
    reflexivity. }
  clearbody sn. destruct sn. simpl in Hkn. subst.
  eexists. split; [reflexivity |]. split; [reflexivity | exact Him].
Qed.

(** C8: GetKinFitResults.  Without a defined b-jet pair it throws and
    leaves the instance as it was.  With a defined pair and no result stored
    yet, the key is [CombinationPairToIndex] of the pair and the jet count:
    when the key first occurs at [index] in the side table, the result is
    the stored convergence, chi-square and mass with the probability of the
    stored chi-square at 2 degrees of freedom, and it is what the instance
    stores; when the key is absent, the result is that of the solver run on
    the momenta of both legs and both b-jets, the missing-energy candidate
    and the two resolutions (resolution fraction times jet energy), with the
    probability of the solver's chi-square at 2 degrees of freedom. *)
Theorem GetKinFitResults_spec (this : EventInfoBase) :
  let sel := selected_signal_jets this in
  let njets := instance_njets this in
  let ev := event this in
  let pairId := CombinationPairToIndex (selectedBjetPair sel) njets in
  (HasBjetPair sel njets = false ->
   GetKinFitResults this
   = (inl (analysis_exception "Can't retrieve KinFit results."), this)) /\
  (HasBjetPair sel njets = true -> kinfit_results this = None ->
   (forall index c x m,
      kinFit_jetPairId ev !! index = Some pairId ->
      (forall j, (j < index)%nat -> kinFit_jetPairId ev !! j <> Some pairId) ->
      kinFit_convergence ev !! index = Some c ->
      kinFit_chi2 ev !! index = Some x ->
      kinFit_m ev !! index = Some m ->
      GetKinFitResults this
      = (inr (mkFitResults c x (TMath_Prob x 2) m),
         set_kinfit_results this
           (Some (mkFitResults c x (TMath_Prob x 2) m)))) /\
   (pairId ∉ kinFit_jetPairId ev ->
    forall l1 l2 b1 b2 m,
      (GetLeg 1 this).1 = inr l1 -> (GetLeg 2 this).1 = inr l2 ->
      (GetBJet 1 this).1 = inr b1 -> (GetBJet 2 this).1 = inr b2 ->
      (GetMET this).1 = inr m ->
      let r := Fit (lep_momentum l1) (lep_momentum l2)
                 (jet_momentum b1) (jet_momentum b2) m
                 (TupleJet_resolution ev (jet_id (jet_tuple b1))
                  * E (jet_momentum b1))
                 (TupleJet_resolution ev (jet_id (jet_tuple b2))
                  * E (jet_momentum b2)) in
      let fit := mkFitResults (convergence r) (chi2 r)
                   (TMath_Prob (chi2 r) 2) (mass r) in
      exists this',
        GetKinFitResults this = (inr fit, this') /\
        kinfit_results this' = Some fit /\
        immutables this' = immutables this)).
Proof.
  intros sel njets ev pairId. split; [| intros Hhas Hk; split].
  - intros Hhas. unfold GetKinFitResults.
    rewrite (bind_eq _ _ _ _ _ (HasBjetPair_run this)).
    fold sel njets. by rewrite Hhas.
  - intros index c x m Hi Hfirst Hc Hx Hm.
    rewrite (GetKinFitResults_first_call this Hhas Hk).
    fold sel njets ev pairId.
    assert (find_index pairId (kinFit_jetPairId ev) = Some index) as ->
      by (by apply find_index_Some).
    unfold GetKinFitResults_stored.
    rewrite (at_of_nat _ _ _ Hc), (at_of_nat _ _ _ Hx), (at_of_nat _ _ _ Hm).
    destruct this. reflexivity.
  - intros Hmiss l1 l2 b1 b2 m Hl1 Hl2 Hb1 Hb2 Hm r fit.
    rewrite (GetKinFitResults_first_call this Hhas Hk).
    fold sel njets ev pairId.
    assert (find_index pairId (kinFit_jetPairId ev) = None) as ->
      by (by apply find_index_None).
    destruct (GetKinFitResults_fit_run this
                (set_kinfit_results this (Some FitResults_default))
                l1 l2 b1 b2 m FitResults_default
                (observe_set_kinfit _ _) ltac:(by destruct this)
                Hl1 Hl2 Hb1 Hb2 Hm)
      as (s' & Hrun & Hk' & Him).
    exists s'. fold ev r fit in Hrun, Hk'.
    rewrite (bind_eq _ _ _ _ _ Hrun).
    erewrite (bind_eq (get kinfit_results)) by reflexivity.
    rewrite Hk'. split; [reflexivity |]. split; [reflexivity |].
    rewrite Him. by destruct this.
Qed.

(** ** Memoization *)











Lemma GetKinFitResults_stored_result this v :
  HasBjetPair (selected_signal_jets this) (instance_njets this) = true ->
  kinfit_results this = Some v ->
  GetKinFitResults this = (inr v, this).
Proof.
  intros Hhas Hk. unfold GetKinFitResults.
  rewrite (bind_eq _ _ _ _ _ (HasBjetPair_run this)), Hhas. cbn [negb].
  erewrite (bind_eq (get kinfit_results)) by reflexivity. by rewrite Hk.
Qed.


(** X8: The result of GetKinFitResults is allocated (line 370) before it is
    filled.  On a record whose convergence column does not reach the position
    found in the side table the call throws [std::out_of_range] past the
    allocation, and the next call returns the default-constructed result. *)
Lemma GetKinFitResults_throw_past_allocation (this : EventInfoBase)
    (index : nat) :
  HasBjetPair (selected_signal_jets this) (instance_njets this) = true ->
  kinfit_results this = None ->
  find_index
    (CombinationPairToIndex (selectedBjetPair (selected_signal_jets this))
       (instance_njets this))
    (kinFit_jetPairId (event this)) = Some index ->
  kinFit_convergence (event this) !! index = None ->
  let this' := set_kinfit_results this (Some FitResults_default) in
  GetKinFitResults this = (inl std_out_of_range, this') /\
  GetKinFitResults this' = (inr FitResults_default, this').
Proof.
  intros Hhas Hk Hfind Hc this'. split.
  - rewrite (GetKinFitResults_first_call this Hhas Hk), Hfind.
    unfold GetKinFitResults_stored, at_. rewrite Nat2N.id, Hc.
    reflexivity.
  - apply GetKinFitResults_stored_result; subst this'; by destruct this.
Qed.












(** A call of GetMT2 that throws stores no value: the next call computes
    again. *)
Lemma GetMT2_failure_stores_nothing (this : EventInfoBase) (e : exception) :
  (GetMT2 this).1 = inl e -> mt2 (GetMT2 this).2 = None.
Proof.
  destruct this. intros H. run_methods.
Qed.








(** ** Errors *)

(** C4 (amended): GetHiggsBB on an instance without a b-jet pair, GetBJet
    with an index other than 1 and 2, and GetResonanceMomentum with both
    options set each throw, leave the instance as it was and return no
    value; the three exceptions differ from one another.  GetBJet throws one
    and the same exception for an index outside 1 and 2 and for a missing
    b-jet pair. *)
Theorem accessor_errors (this this0 : EventInfoBase) (index index0 : N) :
  HasBjetPair (selected_signal_jets this0) (instance_njets this0) = false ->
  index <> 1 -> index <> 2 ->
  GetHiggsBB this0
  = (inl (analysis_exception "Can't create H->bb candidate."), this0) /\
  GetBJet index this = (inl (analysis_exception "B jet not found."), this) /\
  GetBJet index0 this0 = (inl (analysis_exception "B jet not found."), this0) /\
  GetResonanceMomentum true true this
  = (inl (analysis_exception "Can't add MET and with SVfit applied."), this) /\
  analysis_exception "Can't create H->bb candidate."
  <> analysis_exception "B jet not found." /\
  analysis_exception "B jet not found."
  <> analysis_exception "Can't add MET and with SVfit applied." /\
  analysis_exception "Can't create H->bb candidate."
  <> analysis_exception "Can't add MET and with SVfit applied.".
Proof.
  intros Hno H1 H2.
  apply N.eqb_neq in H1, H2.
  split.
  { unfold GetHiggsBB. rewrite (bind_eq _ _ _ _ _ (HasBjetPair_run this0)).
    by rewrite Hno. }
  split.
  { unfold GetBJet. rewrite (bind_eq _ _ _ _ _ (HasBjetPair_run this)).
    rewrite H1, H2. simpl. by rewrite orb_true_r. }
  split.
  { unfold GetBJet. rewrite (bind_eq _ _ _ _ _ (HasBjetPair_run this0)).
    by rewrite Hno. }
  split; [reflexivity |].
  repeat split; discriminate.
Qed.

(** ** The systematic shift *)

(** C1: with the run summary and its jet-energy corrector at hand,
    ApplyShift returns a new instance and leaves the source as it is.  The
    cache of the new instance holds the corrected jets and the shifted
    missing-energy candidate, both computed from the record, and nothing
    else: legs, fat jets, Higgs-bb composite, kinematic-fit result and MT2
    are empty.  The record, the selection, the period and the ordering
    policy are those of the source (as are the leg-pair index and the run
    summary the instance was constructed with), and the new instance is the
    same whatever the cache of the source holds. *)
Theorem ApplyShift_fresh_cache (this : EventInfoBase)
    (uncertainty_source : UncertaintySource) (scale : UncertaintyScale)
    (si : SummaryInfo) (jec : JECUncertaintiesWrapper) :
  summaryInfo this = Some si ->
  jecUncertainties si = Some jec ->
  let ev := event this in
  let r := JEC_ApplyShift jec (record_jets ev) uncertainty_source scale
             (other_jets_p4 ev) (met_momentum (record_met ev)) in
  exists shifted,
    ApplyShift uncertainty_source scale this = (inr shifted, this) /\
    jets shifted = Some r.1 /\
    met shifted
    = Some (mkMET (mkTupleMet PF) r.2 (met_covariance (record_met ev))) /\
    leg1 shifted = None /\ leg2 shifted = None /\
    fatJets shifted = None /\ higgs_bb shifted = None /\
    kinfit_results shifted = None /\ mt2 shifted = None /\
    event shifted = event this /\
    selected_signal_jets shifted = selected_signal_jets this /\
    period shifted = period this /\
    jet_ordering shifted = jet_ordering this /\
    selected_htt_index shifted = selected_htt_index this /\
    summaryInfo shifted = summaryInfo this /\
    (forall this2,
       immutables this2 = immutables this ->
       (ApplyShift uncertainty_source scale this2).1 = inr shifted).
Proof.
  intros Hsi Hjec ev r.
  assert (forall this2, immutables this2 = immutables this ->
            ApplyShift uncertainty_source scale this2
            = (inr (set_met
                      (set_jets
                         (set_met
                            (set_tuple_met
                               (set_jets
                                  (set_tuple_jets
                                     (set_jets (EventInfoBase_copy this) (Some []))
                                     (Some (GetJets_loop ev
                                              (seq 0 (length (jets_p4 ev)))
                                              [] []).1))
                                  (Some (record_jets ev)))
                               (Some (mkTupleMet PF)))
                            (Some (record_met ev)))
                         (Some r.1))
                      (Some (mkMET (mkTupleMet PF) r.2
                               (met_covariance (record_met ev))))),
               this2)) as Hrun.
  { intros this2 Him. subst r ev. destruct this, this2.
    unfold immutables in Him. simpl in Hsi, Him.
    injection Him as -> -> -> -> -> ->. subst.
    unfold ApplyShift, ApplyShift_body, EventInfoBase_copy, GetSummaryInfo,
      GetJecUncertainties, SetMetMomentum, SetJets, GetJets, GetMET,
      get, modify, lift, mbind, mret, Method_bind, Method_ret.
    cbn. rewrite Hjec. reflexivity. }
  eexists. split; [by apply Hrun |].
  repeat (split; [reflexivity |]).
  intros this2 Him. by rewrite (Hrun this2 Him).
Qed.

(** ** Further properties of the cache *)

Lemma GetJets_loop_spec (ev : Event) (ns : list nat)
    (ts : list TupleJet) (js : JetCollection) :
  GetJets_loop ev ns ts js
  = (ts ++ ((fun n => mkTupleJet (N.of_nat n)) <$> ns),
     js ++ ((fun n => new_JetCandidate ev (mkTupleJet (N.of_nat n))) <$> ns)).
Proof.
  revert ts js. induction ns as [| n ns IH]; intros ts js; simpl.
  - by rewrite !app_nil_r.
  - rewrite IH. by rewrite <- !app_assoc.
Qed.

Lemma record_jets_lookup (ev : Event) (n : nat) :
  (n < length (jets_p4 ev))%nat ->
  (record_jets ev : list JetCandidate) !! n
  = Some (new_JetCandidate ev (mkTupleJet (N.of_nat n))).
Proof.
  intros Hn. unfold record_jets. rewrite GetJets_loop_spec.
  cbn [snd app]. rewrite list_lookup_fmap, lookup_seq_lt by exact Hn.
  reflexivity.
Qed.

Lemma record_jets_length (ev : Event) :
  length (record_jets ev) = length (jets_p4 ev).
Proof.
  unfold record_jets. rewrite GetJets_loop_spec. cbn [snd app].
  by rewrite length_fmap, length_seq.
Qed.

Lemma GetJets_first_call (this : EventInfoBase) :
  jets this = None ->
  GetJets this
  = (inr (record_jets (event this)),
     set_jets
       (set_tuple_jets (set_jets this (Some []))
          (Some (GetJets_loop (event this)
                   (seq 0 (length (jets_p4 (event this)))) [] []).1))
       (Some (record_jets (event this)))).
Proof. intros Hj. destruct this. simpl in Hj. subst. reflexivity. Qed.

(** X9: On an instance whose jets are not built yet GetJets returns one
    candidate per entry of the jet column, the candidate at position n built
    on jet n of the record, and stores them. *)
Theorem GetJets_from_record (this : EventInfoBase) :
  jets this = None ->
  exists (js : list JetCandidate) this',
    GetJets this = (inr js, this') /\
    jets this' = Some js /\
    length js = length (jets_p4 (event this)) /\
    (forall n, (n < length (jets_p4 (event this)))%nat ->
       js !! n
       = Some (new_JetCandidate (event this) (mkTupleJet (N.of_nat n)))) /\
    immutables this' = immutables this.
Proof.
  intros Hj. rewrite (GetJets_first_call this Hj).
  eexists. eexists. split; [reflexivity |].
  split; [reflexivity |].
  split; [apply record_jets_length |].
  split; [intros n Hn; by apply record_jets_lookup |].
  by destruct this.
Qed.

Lemma at_record_jets (ev : Event) (i : N) :
  i < size (jets_p4 ev) ->
  at_ (record_jets ev) i = inr (new_JetCandidate ev (mkTupleJet i)).
Proof.
  intros Hi. unfold at_, size in *.
  rewrite record_jets_lookup by lia. by rewrite N2Nat.id.
Qed.

Lemma HasVBFjetPair_run (this : EventInfoBase) :
  EventInfoBase_HasVBFjetPair this
  = (inr (HasVBFPair (selected_signal_jets this) (instance_njets this)), this).
Proof. reflexivity. Qed.

(** X10: GetVBFJet throws, and leaves the instance as it was, when the instance
    has no VBF pair or the index is neither 1 nor 2.  On an instance with a
    VBF pair whose jets are not built yet, index 1 gives the candidate built
    on the first jet of the pair and index 2 the one built on the second. *)
Theorem GetVBFJet_spec (this : EventInfoBase) (index : N) :
  let sel := selected_signal_jets this in
  let njets := instance_njets this in
  (HasVBFPair sel njets = false \/ (index <> 1 /\ index <> 2) ->
   GetVBFJet index this
   = (inl (analysis_exception "VBF jet not found."), this)) /\
  (HasVBFPair sel njets = true -> jets this = None ->
   (GetVBFJet 1 this).1
   = inr (new_JetCandidate (event this)
            (mkTupleJet (selectedVBFjetPair sel).1)) /\
   (GetVBFJet 2 this).1
   = inr (new_JetCandidate (event this)
            (mkTupleJet (selectedVBFjetPair sel).2))).
Proof.
  intros sel njets. split.
  - intros H. unfold GetVBFJet.
    rewrite (bind_eq _ _ _ _ _ (HasVBFjetPair_run this)). fold sel njets.
    destruct H as [-> | [H1 H2]]; [reflexivity |].
    apply N.eqb_neq in H1, H2. rewrite H1, H2. simpl.
    by rewrite orb_true_r.
  - intros Hhas Hj.
    pose proof Hhas as Hlt. unfold HasVBFPair in Hlt.
    apply andb_true_iff in Hlt as [Hlt1%N.ltb_lt Hlt2%N.ltb_lt].
    unfold GetVBFJet.
    rewrite !(bind_eq _ _ _ _ _ (HasVBFjetPair_run this)). fold sel njets.
    rewrite Hhas. cbn [negb orb N.eqb Pos.eqb andb].
    rewrite !(bind_eq _ _ _ _ _ (GetJets_first_call this Hj)).
    split.
    + erewrite (bind_eq (get selected_signal_jets)) by reflexivity.
      unfold lift. cbn [fst].
      replace (selected_signal_jets _) with sel by (by destruct this).
      by apply at_record_jets.
    + erewrite (bind_eq (get selected_signal_jets)) by reflexivity.
      unfold lift. cbn [fst].
      replace (selected_signal_jets _) with sel by (by destruct this).
      by apply at_record_jets.
Qed.

(** X11: On an instance with a b-jet pair whose jets are not built yet, GetBJet
    returns for index 1 the candidate built on the first jet of the pair and
    for index 2 the one built on the second: the indices of a pair never
    run past the jets of the record. *)
Theorem GetBJet_from_record (this : EventInfoBase) :
  let sel := selected_signal_jets this in
  HasBjetPair sel (instance_njets this) = true -> jets this = None ->
  (GetBJet 1 this).1
  = inr (new_JetCandidate (event this) (mkTupleJet (selectedBjetPair sel).1)) /\
  (GetBJet 2 this).1
  = inr (new_JetCandidate (event this) (mkTupleJet (selectedBjetPair sel).2)).
Proof.
  intros sel Hhas Hj.
  pose proof Hhas as Hlt. unfold HasBjetPair in Hlt.
  apply andb_true_iff in Hlt as [Hlt1%N.ltb_lt Hlt2%N.ltb_lt].
  unfold GetBJet.
  rewrite !(bind_eq _ _ _ _ _ (HasBjetPair_run this)). fold sel.
  rewrite Hhas. cbn [negb orb N.eqb Pos.eqb andb].
  rewrite !(bind_eq _ _ _ _ _ (GetJets_first_call this Hj)).
  split.
  - erewrite (bind_eq (get selected_signal_jets)) by reflexivity.
    unfold lift. cbn [fst].
    replace (selected_signal_jets _) with sel by (by destruct this).
    by apply at_record_jets.
  - erewrite (bind_eq (get selected_signal_jets)) by reflexivity.
    unfold lift. cbn [fst].
    replace (selected_signal_jets _) with sel by (by destruct this).
    by apply at_record_jets.
Qed.

Lemma GetJets_stored (this : EventInfoBase) (js : JetCollection) :
  jets this = Some js -> GetJets this = (inr js, this).
Proof. intros Hj. destruct this. simpl in Hj. subst. reflexivity. Qed.

(** X12: SetJets replaces the collection GetJets returns and nothing else: every
    other stored object stays, so a Higgs-bb composite built before the
    replacement is still what GetHiggsBB returns after it. *)
Theorem SetJets_replaces_jets_only (this : EventInfoBase)
    (new_jets : JetCollection) :
  let this' := (SetJets new_jets this).2 in
  (SetJets new_jets this).1 = inr tt /\
  GetJets this' = (inr new_jets, this') /\
  (forall f, f <> Jets -> slot f this' = slot f this) /\
  immutables this' = immutables this /\
  (forall h, higgs_bb this = Some h ->
     HasBjetPair (selected_signal_jets this) (instance_njets this) = true ->
     GetHiggsBB this' = (inr h, this')).
Proof.
  intros this'. subst this'. destruct this. unfold SetJets, modify. simpl.
  split; [reflexivity |]. split; [reflexivity |].
  split; [intros []; intros Hf; try reflexivity; by destruct Hf |].
  split; [reflexivity |].
  intros h -> Hhas. unfold GetHiggsBB.
  erewrite (bind_eq EventInfoBase_HasBjetPair) by apply HasBjetPair_run.
  unfold instance_njets in *. simpl in *. rewrite Hhas. reflexivity.
Qed.

(** X13: The indices of the b-jet pair are positions of the jet column of the
    record; once SetJets has stored a collection too short for the first of
    them, GetBJet(1) and GetHiggsBB throw [std::out_of_range]. *)
Theorem GetBJet_after_SetJets_out_of_range (this : EventInfoBase)
    (new_jets : JetCollection) :
  let sel := selected_signal_jets this in
  let this' := (SetJets new_jets this).2 in
  HasBjetPair sel (instance_njets this) = true ->
  size new_jets <= (selectedBjetPair sel).1 ->
  higgs_bb this = None ->
  GetBJet 1 this' = (inl std_out_of_range, this') /\
  GetHiggsBB this' = (inl std_out_of_range, this').
Proof.
  intros sel this' Hhas Hshort Hh. subst sel this'.
  destruct this. unfold SetJets, modify, instance_njets in *. simpl in *.
  subst.
  assert (at_ new_jets (selectedBjetPair selected_signal_jets0).1
          = inl std_out_of_range) as Hat.
  { unfold at_, size in *.
    rewrite lookup_ge_None_2; [reflexivity | lia]. }
  split.
  - unfold GetBJet.
    erewrite (bind_eq EventInfoBase_HasBjetPair) by apply HasBjetPair_run.
    unfold instance_njets. simpl. rewrite Hhas. cbn [negb orb N.eqb Pos.eqb andb].
    erewrite (bind_eq GetJets) by (by apply GetJets_stored).
    erewrite (bind_eq (get _)) by reflexivity.
    unfold lift. simpl. by rewrite Hat.
  - unfold GetHiggsBB.
    erewrite (bind_eq EventInfoBase_HasBjetPair) by apply HasBjetPair_run.
    unfold instance_njets. simpl. rewrite Hhas. cbn [negb].
    erewrite (bind_eq (get higgs_bb)) by reflexivity. simpl.
    erewrite (bind_eq GetJets) by (by apply GetJets_stored).
    erewrite (bind_eq (get _)) by reflexivity.
    unfold lift, mbind, Method_bind. simpl. by rewrite Hat.
Qed.

Lemma GetMET_result (this : EventInfoBase) :
  (GetMET this).1
  = inr (match met this with
         | Some m => m
         | None => record_met (event this)
         end).
Proof. destruct this. simpl. by destruct met0. Qed.

Lemma GetHiggsBB_met : keeps met GetHiggsBB.
Proof. solve_keeps_unfolding. Qed.

(** X14: The Higgs-bb composite is made of the two jets GetBJet returns: on an
    instance without a stored composite, GetHiggsBB returns and stores the
    pair of GetBJet(1) and GetBJet(2). *)
Theorem GetHiggsBB_daughters (this : EventInfoBase) (b1 b2 : JetCandidate) :
  higgs_bb this = None ->
  (GetBJet 1 this).1 = inr b1 -> (GetBJet 2 this).1 = inr b2 ->
  exists this',
    GetHiggsBB this = (inr (mkHiggsBB b1 b2), this') /\
    higgs_bb this' = Some (mkHiggsBB b1 b2).
Proof.
  destruct this. simpl. intros -> H1 H2.
  unfold GetHiggsBB, GetBJet in *.
  rewrite !(bind_eq _ _ _ _ _ (HasBjetPair_run _)) in *.
  unfold instance_njets in *. simpl in *.
  destruct (HasBjetPair selected_signal_jets0 (size (jets_p4 event0)));
    [| discriminate H1].
  cbn [negb orb N.eqb Pos.eqb andb] in *.
  erewrite (bind_eq (get higgs_bb)) by reflexivity. simpl.
  destruct jets0 as [js |].
  - erewrite !(bind_eq GetJets) in * by (by apply GetJets_stored).
    erewrite !(bind_eq (get selected_signal_jets)) in * by reflexivity.
    unfold lift, mbind, Method_bind, modify, mret, Method_ret in *.
    simpl in *. rewrite H1, H2. eexists. split; reflexivity.
  - erewrite !(bind_eq GetJets) in * by (by apply GetJets_first_call).
    erewrite !(bind_eq (get selected_signal_jets)) in * by reflexivity.
    unfold lift, mbind, Method_bind, modify, mret, Method_ret in *.
    simpl in *. rewrite H1, H2. eexists. split; reflexivity.
Qed.

(** X15: ApplyShift needs the run summary and its jet-energy corrector: without
    the summary it throws the exception of GetSummaryInfo, without the
    corrector that of GetJecUncertainties; the source instance is left as it
    was either way. *)
Theorem ApplyShift_errors (this : EventInfoBase)
    (uncertainty_source : UncertaintySource) (scale : UncertaintyScale) :
  (summaryInfo this = None ->
   ApplyShift uncertainty_source scale this
   = (inl (analysis_exception "SummaryInfo was not provided for this event."),
      this)) /\
  (forall si, summaryInfo this = Some si -> jecUncertainties si = None ->
     ApplyShift uncertainty_source scale this
     = (inl (analysis_exception "Jec Uncertainties not stored."), this)).
Proof.
  split.
  - intros Hs. destruct this. simpl in Hs. subst. reflexivity.
  - intros si Hs Hj. destruct this. simpl in Hs. subst.
    unfold ApplyShift, ApplyShift_body, EventInfoBase_copy, GetSummaryInfo,
      GetJecUncertainties, get, lift, mbind, mret, Method_bind, Method_ret.
    cbn. by rewrite Hj.
Qed.

(** X16: With the fit correction off, asking GetResonanceMomentum to add the
    missing energy gives the momentum it returns without that option plus
    the momentum of the missing-energy candidate of GetMET. *)
Theorem GetResonanceMomentum_addMET (this : EventInfoBase)
    (p : LorentzVector) :
  (GetResonanceMomentum false false this).1 = inr p ->
  exists m,
    (GetMET this).1 = inr m /\
    (GetResonanceMomentum false true this).1 = inr (p4_add p (met_momentum m)).
Proof.
  intros Hp. rewrite GetMET_result. eexists. split; [reflexivity |].
  unfold GetResonanceMomentum in *. cbn [andb] in *.
  erewrite !(bind_eq (get event)) in * by reflexivity.
  erewrite !(bind_eq (get selected_htt_index)) in * by reflexivity.
  destruct (HiggsTTMomentum (event this) (selected_htt_index this) false)
    as [e | htt] eqn:Htt.
  { unfold lift, mbind, Method_bind in Hp. simpl in Hp. discriminate Hp. }
  erewrite !(bind_eq (lift _)) in * by reflexivity.
  destruct (GetHiggsBB this) as [[e | hbb] this1] eqn:Hbb.
  { unfold mbind, Method_bind in Hp. rewrite Hbb in Hp. discriminate Hp. }
  rewrite (bind_eq _ _ _ _ _ Hbb) in Hp. rewrite (bind_eq _ _ _ _ _ Hbb).
  unfold mret, Method_ret in Hp. simpl in Hp. injection Hp as <-.
  pose proof (GetMET_result this1) as Hm.
  pose proof (GetHiggsBB_met this) as Hkm. rewrite Hbb in Hkm. simpl in Hkm.
  pose proof (GetHiggsBB_immutables this) as Hki. rewrite Hbb in Hki.
  simpl in Hki. apply immutables_eq in Hki as (He & _).
  rewrite Hkm, He in Hm.
  rewrite (bind_eq _ _ _ _ _ (run_eq _ _ _ Hm)). reflexivity.
Qed.

(** X17: GetMT2 reads the missing energy from the record, not from the
    missing-energy candidate of the instance: whatever candidate is stored,
    a shifted one included, the call gives the same result. *)
Theorem GetMT2_ignores_stored_met (this : EventInfoBase)
    (t : option TupleMet) (m : option MET) :
  (GetMT2 (set_met (set_tuple_met this t) m)).1 = (GetMT2 this).1.
Proof.
  destruct this. unfold set_met, set_tuple_met. simpl.
  unfold GetMT2.
  erewrite !(bind_eq (get mt2)) by reflexivity. simpl.
  destruct mt3; [reflexivity |].
  run_methods.
Qed.

End CacheFacts.

(** * Properties of the cache as shared objects *)

Module SharedFacts.
Import Shared.

Section Shared.
Context `{Col : Collaborators}.

Abbreviation heap := (gmap address object) (only parsing).

(** ** What a member function writes *)

Lemma new_since_weaken (h0 : heap) (W W' : member -> Prop) (s : state) :
  (forall m, W' m -> W m) -> new_since h0 W s -> new_since h0 W' s.
Proof. intros HW [Hsub Hp]. split; [exact Hsub |]. eauto. Qed.

Lemma writes_new_ret {A : Type} W (a : A) : writes_new W (mret a).
Proof. by intros h0 s. Qed.

Lemma writes_new_bind {A B : Type} W (f : Method A) (k : A -> Method B) :
  writes_new W f -> (forall a, writes_new W (k a)) -> writes_new W (f ≫= k).
Proof.
  intros Hf Hk h0 s Hs. unfold mbind, Method_bind.
  specialize (Hf h0 s Hs). destruct (f s) as [[e | a] s1]; simpl in *.
  - exact Hf.
  - by apply Hk.
Qed.

Lemma writes_new_get {A : Type} W (f : EventInfoBase -> A) :
  writes_new W (get f).
Proof. by intros h0 s. Qed.

Lemma writes_new_pointer W (m : member) : writes_new W (pointer m).
Proof. by intros h0 s. Qed.

Lemma writes_new_lift {A : Type} W (r : result A) : writes_new W (lift r).
Proof. by intros h0 s. Qed.

Lemma writes_new_mthrow {A : Type} W (what : string) :
  writes_new W (@mthrow _ _ _ A what).
Proof. by intros h0 s. Qed.

Lemma writes_new_deref {A : Type} {HS : Stored A} W (m : member) :
  writes_new W (deref (A := A) m).
Proof.
  intros h0 s Hs. unfold deref.
  by destruct (_ ≫= _).
Qed.

Lemma writes_new_assign_mt2 W (v : Q) : writes_new W (assign_mt2 v).
Proof. by intros h0 [this h] Hs. Qed.

(** A new object is at an address that no object of [h0] has: after the
    assignment the member designates a new object. *)
Lemma make_shared_new {A : Type} {HS : Stored A} (h0 : heap) W (m : member)
    (a : A) (s : state) :
  new_since h0 W s -> new_since h0 (and_member W m) (make_shared m a s).2.
Proof.
  destruct s as [this h]. intros [Hsub Hp]. unfold make_shared. simpl in *.
  assert (h0 !! fresh (dom h) = None) as Hfresh.
  { destruct (h0 !! fresh (dom h)) as [o |] eqn:Ho; [| reflexivity].
    exfalso.
    exact (is_fresh (dom h)
             (elem_of_dom_2 h _ o (lookup_weaken _ _ _ _ Ho Hsub))). }
  split.
  - by apply insert_subseteq_r.
  - intros m' l HW. cbn [set_pointer pointers fst].
    destruct (decide (m' = m)) as [-> | Hne].
    + rewrite lookup_insert_eq. by intros [= <-].
    + rewrite lookup_insert_ne by done.
      destruct HW as [HW | ->]; [by apply Hp | done].
Qed.

Lemma writes_new_make_shared {A : Type} {HS : Stored A} W (m : member)
    (a : A) :
  writes_new W (make_shared m a).
Proof.
  intros h0 s Hs. apply (new_since_weaken h0 (and_member W m)).
  - intros m' HW. by left.
  - by apply make_shared_new.
Qed.

(** What follows an allocation may write through the member that was
    assigned. *)
Lemma writes_new_after_make_shared {A B : Type} {HS : Stored A} W
    (m : member) (a : A) (k : unit -> Method B) :
  (forall u, writes_new (and_member W m) (k u)) ->
  writes_new W (make_shared m a ≫= k).
Proof.
  intros Hk h0 s Hs. unfold mbind, Method_bind.
  pose proof (make_shared_new h0 W m a s Hs) as H1.
  destruct (make_shared m a s) as [[e | u] s1] eqn:Hm; simpl in *.
  - discriminate Hm.
  - apply (new_since_weaken h0 (and_member W m)).
    + intros m' HW. by left.
    + by apply Hk.
Qed.

(** A write through a member in [W] changes no object of [h0]. *)
Lemma writes_new_update {A : Type} {HS : Stored A} W (m : member)
    (f : A -> A) :
  W m -> writes_new W (update m f).
Proof.
  intros HW h0 [this h] [Hsub Hp]. unfold update. simpl in *.
  destruct (pointers this !! m) as [l |] eqn:Hl; [| by split].
  destruct (_ ≫= _); [| by split].
  split; [| exact Hp]. simpl.
  apply insert_subseteq_r; [by eapply Hp | done].
Qed.

Lemma writes_new_for_each W (ns : list nat) (body : nat -> Method unit) :
  (forall n, writes_new W (body n)) -> writes_new W (for_each ns body).
Proof.
  intros Hb. induction ns as [| n ns IH]; simpl.
  - apply writes_new_ret.
  - apply writes_new_bind; [apply Hb | intros _; exact IH].
Qed.

Create HintDb writes_new discriminated.

Ltac in_members := unfold and_member; tauto.

Ltac writes_new_step :=
  first
    [ solve [auto 1 with writes_new nocore]
    | apply writes_new_after_make_shared; intros ?
    | apply writes_new_bind; [| intros ?]
    | apply writes_new_ret
    | apply writes_new_pointer
    | apply writes_new_get
    | apply writes_new_lift
    | apply writes_new_mthrow
    | apply writes_new_deref
    | apply writes_new_assign_mt2
    | apply writes_new_make_shared
    | apply writes_new_update; in_members
    | apply writes_new_for_each; intros ?
    | match goal with
      | |- writes_new _ (match ?x with _ => _ end) => destruct x
      | |- writes_new _ (if ?x then _ else _) => destruct x
      | |- writes_new _ (let _ := _ in _) => cbv zeta
      end ].

Ltac solve_writes_new := repeat writes_new_step.

Lemma GetLegIndex_writes_new W (leg_id : N) : writes_new W (GetLegIndex leg_id).
Proof. unfold GetLegIndex. solve_writes_new. Qed.

#[local] Hint Resolve GetLegIndex_writes_new : writes_new.

Lemma HasBjetPair_writes_new W : writes_new W EventInfoBase_HasBjetPair.
Proof. unfold EventInfoBase_HasBjetPair, GetNJets. solve_writes_new. Qed.

#[local] Hint Resolve HasBjetPair_writes_new : writes_new.

Lemma HasVBFjetPair_writes_new W : writes_new W EventInfoBase_HasVBFjetPair.
Proof. unfold EventInfoBase_HasVBFjetPair, GetNJets. solve_writes_new. Qed.

#[local] Hint Resolve HasVBFjetPair_writes_new : writes_new.

Lemma GetFirstLeg_writes_new W : writes_new W GetFirstLeg.
Proof. unfold GetFirstLeg. solve_writes_new. Qed.

#[local] Hint Resolve GetFirstLeg_writes_new : writes_new.

Lemma GetSecondLeg_writes_new W : writes_new W GetSecondLeg.
Proof. unfold GetSecondLeg. solve_writes_new. Qed.

#[local] Hint Resolve GetSecondLeg_writes_new : writes_new.

Lemma GetLeg_writes_new W (leg_id : N) : writes_new W (GetLeg leg_id).
Proof. unfold GetLeg. solve_writes_new. Qed.

#[local] Hint Resolve GetLeg_writes_new : writes_new.

Lemma GetJets_writes_new W : writes_new W GetJets.
Proof. unfold GetJets. solve_writes_new. Qed.

#[local] Hint Resolve GetJets_writes_new : writes_new.

Lemma SetJets_writes_new W (new_jets : JetCollection) :
  writes_new W (SetJets new_jets).
Proof. unfold SetJets. solve_writes_new. Qed.

#[local] Hint Resolve SetJets_writes_new : writes_new.

Lemma GetFatJets_writes_new W : writes_new W GetFatJets.
Proof. unfold GetFatJets. solve_writes_new. Qed.

#[local] Hint Resolve GetFatJets_writes_new : writes_new.

Lemma GetVBFJet_writes_new W (index : N) : writes_new W (GetVBFJet index).
Proof. unfold GetVBFJet. solve_writes_new. Qed.

#[local] Hint Resolve GetVBFJet_writes_new : writes_new.

Lemma GetBJet_writes_new W (index : N) : writes_new W (GetBJet index).
Proof. unfold GetBJet. solve_writes_new. Qed.

#[local] Hint Resolve GetBJet_writes_new : writes_new.

Lemma GetHiggsBB_writes_new W : writes_new W GetHiggsBB.
Proof. unfold GetHiggsBB. solve_writes_new. Qed.

#[local] Hint Resolve GetHiggsBB_writes_new : writes_new.

Lemma GetMET_writes_new W : writes_new W GetMET.
Proof. unfold GetMET. solve_writes_new. Qed.

#[local] Hint Resolve GetMET_writes_new : writes_new.

Lemma GetKinFitResults_writes_new W : writes_new W GetKinFitResults.
Proof.
  unfold GetKinFitResults, GetKinFitResults_fit, GetKinFitResults_stored.
  solve_writes_new.
Qed.

#[local] Hint Resolve GetKinFitResults_writes_new : writes_new.

Lemma GetResonanceMomentum_writes_new W (useSVfit addMET : bool) :
  writes_new W (GetResonanceMomentum useSVfit addMET).
Proof. unfold GetResonanceMomentum. solve_writes_new. Qed.

#[local] Hint Resolve GetResonanceMomentum_writes_new : writes_new.

Lemma GetMT2_writes_new W : writes_new W GetMT2.
Proof. unfold GetMT2. solve_writes_new. Qed.

#[local] Hint Resolve GetMT2_writes_new : writes_new.

(** The missing-energy candidate is written where it is: the instance
    must have been given its own. *)
Lemma SetMetMomentum_writes_new W (new_met_p4 : LorentzVector) :
  W met -> writes_new W (SetMetMomentum new_met_p4).
Proof. intros HW. unfold SetMetMomentum. solve_writes_new. Qed.

Lemma ApplyShift_body_writes_new (other_jets_p4 : list LorentzVector)
    (uncertainty_source : UncertaintySource) (scale : UncertaintyScale) :
  writes_new (fun _ => True)
    (ApplyShift_body other_jets_p4 uncertainty_source scale).
Proof.
  unfold ApplyShift_body, GetSummaryInfo. solve_writes_new.
Qed.

(** The copy shares nothing with the objects in the store. *)
Lemma copy_new (h0 : heap) (this : EventInfoBase) (h : heap) :
  h0 ⊆ h -> new_since h0 (fun _ => True) (EventInfoBase_copy this, h).
Proof.
  intros Hsub. split; [exact Hsub |].
  intros m l _. simpl. by rewrite lookup_empty.
Qed.

(** A shift leaves the instance it is called on as it is, and what it
    writes is new. *)
Lemma ApplyShift_writes_new W (uncertainty_source : UncertaintySource)
    (scale : UncertaintyScale) :
  writes_new W (ApplyShift uncertainty_source scale).
Proof.
  intros h0 [this h] [Hsub Hp]. unfold ApplyShift. cbn [fst snd] in *.
  pose proof (ApplyShift_body_writes_new (other_jets_p4 (event this))
                uncertainty_source scale h0 _ (copy_new h0 this h Hsub))
    as [Ha _].
  destruct (ApplyShift_body _ _ _ _) as [[e | []] [shifted h']];
    simpl in *; by split.
Qed.

#[local] Hint Resolve ApplyShift_writes_new : writes_new.

(** Every member function but SetMetMomentum writes new objects only,
    whatever the instance points to. *)
Lemma invoke_writes_new W (c : member_function) :
  (forall new_met_p4, c = call_SetMetMomentum new_met_p4 -> W met) ->
  writes_new W (invoke c).
Proof.
  intros Hc. destruct c; unfold invoke;
    try (apply SetMetMomentum_writes_new; by eapply Hc);
    solve_writes_new.
Qed.

(** The shift returns an instance that shares nothing with the objects that
    were in the store, and leaves them and the source as they were. *)
Lemma ApplyShift_apart (uncertainty_source : UncertaintySource)
    (scale : UncertaintyScale) (this : EventInfoBase) (h : heap) :
  let r := ApplyShift uncertainty_source scale (this, h) in
  r.2.1 = this /\ h ⊆ r.2.2 /\
  forall shifted,
    r.1 = inr shifted -> new_since h (fun _ => True) (shifted, r.2.2).
Proof.
  unfold ApplyShift. cbn [fst snd].
  pose proof (ApplyShift_body_writes_new (other_jets_p4 (event this))
                uncertainty_source scale h _
                (copy_new h this h (reflexivity h))) as Ha.
  destruct (ApplyShift_body _ _ _ _) as [[e | []] [shifted h']];
    destruct Ha as [Hsub Hp]; simpl in *.
  - split; [reflexivity |]. split; [exact Hsub | discriminate].
  - split; [reflexivity |]. split; [exact Hsub |].
    intros ? [= <-]. by split.
Qed.

Lemma run_calls_apart (h0 : heap) (shifted : positive)
    (cs : list member_function) (μ : memory) (e : EventInfoBase) :
  instances μ !! shifted = Some e ->
  new_since h0 (fun _ => True) (e, objects μ) ->
  exists μ' e',
    run_calls shifted cs μ = Some μ' /\
    instances μ' !! shifted = Some e' /\
    new_since h0 (fun _ => True) (e', objects μ') /\
    forall this, this <> shifted ->
      instances μ' !! this = instances μ !! this.
Proof.
  revert μ e. induction cs as [| c cs IH]; intros μ e He Ha; simpl.
  - by exists μ, e.
  - unfold call. rewrite He. cbn [fst snd].
    pose proof (invoke_writes_new (fun _ => True) c (fun _ _ => I) h0 _ Ha)
      as Ha'.
    destruct (invoke c (e, objects μ)) as [r [e1 h1]]. simpl in *.
    destruct (IH (mkMemory (<[shifted := e1]> (instances μ)) h1) e1)
      as (μ' & e' & Hrun & He' & Ha2 & Hothers).
    { simpl. apply lookup_insert_eq. }
    { exact Ha'. }
    exists μ', e'. split; [exact Hrun |]. split; [exact He' |].
    split; [exact Ha2 |].
    intros this Hne. rewrite Hothers by done. simpl.
    by rewrite lookup_insert_ne.
Qed.

Lemma cached_weaken (h h' : heap) (this : EventInfoBase) (m : member)
    (o : object) :
  h ⊆ h' -> cached h this m = Some o -> cached h' this m = Some o.
Proof.
  intros Hsub. unfold cached.
  destruct (pointers this !! m) as [l |]; simpl; [| done].
  intros Hl. by eapply lookup_weaken.
Qed.

(** C2: a shift assigned to another address leaves the source instance and
    every object that was in the store as they were, and so does every
    sequence of member-function calls on the shifted instance afterwards
    (accessors, the two setters, further shifts): an object a member of the
    source pointed to before the shift is the object it points to after the
    calls, unchanged. *)
Theorem ApplyShift_isolation (μ : memory) (original shifted : positive)
    (orig : EventInfoBase)
    (uncertainty_source : UncertaintySource) (scale : UncertaintyScale) :
  original <> shifted ->
  instances μ !! original = Some orig ->
  exists r μ1,
    assign_ApplyShift shifted original uncertainty_source scale μ
    = Some (r, μ1) /\
    instances μ1 !! original = Some orig /\
    objects μ ⊆ objects μ1 /\
    (r = inr tt ->
     forall cs, exists μ2,
       run_calls shifted cs μ1 = Some μ2 /\
       instances μ2 !! original = Some orig /\
       objects μ ⊆ objects μ2 /\
       forall m o,
         cached (objects μ) orig m = Some o ->
         cached (objects μ2) orig m = Some o).
Proof.
  intros Hne Ho.
  unfold assign_ApplyShift, call. rewrite Ho. cbn [fst snd].
  destruct (ApplyShift_apart uncertainty_source scale orig (objects μ))
    as (Hthis & Hsub & Hshifted).
  destruct (ApplyShift uncertainty_source scale (orig, objects μ))
    as [[e | v] [this' h1]]; simpl in *; subst this'.
  - eexists _, _. split; [reflexivity |]. simpl.
    split; [apply lookup_insert_eq |]. split; [exact Hsub | discriminate].
  - eexists _, _. split; [reflexivity |]. simpl.
    split; [by rewrite lookup_insert_ne, lookup_insert_eq |].
    split; [exact Hsub |].
    intros _ cs.
    destruct (run_calls_apart (objects μ) shifted cs
                (mkMemory (<[shifted := v]> (<[original := orig]> (instances μ)))
                   h1) v)
      as (μ2 & e' & Hrun & _ & [Hsub2 _] & Hothers).
    { simpl. apply lookup_insert_eq. }
    { by apply Hshifted. }
    exists μ2. split; [exact Hrun |].
    split.
    { rewrite Hothers by done. simpl.
      by rewrite lookup_insert_ne, lookup_insert_eq. }
    split; [exact Hsub2 |].
    intros m o. by apply cached_weaken.
Qed.

(** X31: The member functions of EventInfo.cpp write only to objects they
    allocate in the same call: whatever the instances share, a call on one
    instance leaves every object that was in the store as it was, and with
    it every other instance and what its members point to.  (SetMetMomentum,
    which is not defined in EventInfo.cpp, is left aside.) *)
Theorem member_functions_write_new_objects (μ μ' : memory) (this : positive)
    (c : member_function) (r : result unit) :
  (forall new_met_p4, c <> call_SetMetMomentum new_met_p4) ->
  call this (invoke c) μ = Some (r, μ') ->
  objects μ ⊆ objects μ' /\
  forall other e,
    other <> this -> instances μ !! other = Some e ->
    instances μ' !! other = Some e /\
    forall m o,
      cached (objects μ) e m = Some o -> cached (objects μ') e m = Some o.
Proof.
  intros Hc. unfold call.
  destruct (instances μ !! this) as [e0 |] eqn:He0; [| discriminate].
  intros [= <- <-]. cbn [objects instances].
  assert (new_since (objects μ) (fun _ => False) (e0, objects μ)) as H0.
  { split; [reflexivity | by intros m l []]. }
  destruct (invoke_writes_new (fun _ => False) c
              (fun p Hp => Hc p Hp) _ _ H0) as [Hsub _].
  split; [exact Hsub |].
  intros other e Hne He. split.
  - by rewrite lookup_insert_ne.
  - intros m o. by apply cached_weaken.
Qed.

End Shared.

End SharedFacts.

(** * Properties of the jet selection on an instance *)

Section SelectJetsFacts.
Context `{Col : Collaborators}.
Variable DiscriminatorWP : Type.
Variable Medium : DiscriminatorWP.
Variable PassWP : Period -> JetOrdering -> Event -> N -> DiscriminatorWP -> bool.
Variable DeepCSV : JetOrdering.
Variable low_eta_cut_default : Q.

Abbreviation SelectJets_body := (SelectJets_body DiscriminatorWP Medium PassWP).
Abbreviation SelectJets_loop := (SelectJets_loop DiscriminatorWP Medium PassWP).
Abbreviation SelectJets := (SelectJets DiscriminatorWP Medium PassWP).
Abbreviation select_candidate :=
  (select_candidate DiscriminatorWP Medium PassWP).
Abbreviation GetHT :=
  (GetHT DiscriminatorWP Medium PassWP DeepCSV low_eta_cut_default).
Abbreviation HT_jets :=
  (HT_jets DiscriminatorWP Medium PassWP DeepCSV low_eta_cut_default).

Section Loop.
Variable ev : Event.
Variable period : Period.
Variable jet_ordering : JetOrdering.
Variable all_jets : list JetCandidate.
Variable applyPu passBtag : bool.
Variable jet_to_exclude_indexes : gset N.
Variable low_eta_cut : Q.

Abbreviation body :=
  (SelectJets_body ev period jet_ordering all_jets applyPu passBtag
     jet_to_exclude_indexes low_eta_cut).
Abbreviation loop :=
  (SelectJets_loop ev period jet_ordering all_jets applyPu passBtag
     jet_to_exclude_indexes low_eta_cut).
Abbreviation cand :=
  (select_candidate ev period jet_ordering all_jets applyPu passBtag
     jet_to_exclude_indexes low_eta_cut).

Lemma SelectJets_body_ok (n : nat) :
  (n < length all_jets)%nat -> (n < length (jets_pu_id ev))%nat ->
  body (N.of_nat n) = inr (cand n).
Proof.
  intros Hn Hpu.
  destruct (lookup_lt_is_Some_2 all_jets n Hn) as [jet Hjet].
  destruct (lookup_lt_is_Some_2 (jets_pu_id ev) n Hpu) as [pu Hp].
  unfold SelectJets_body, select_candidate.
  rewrite (at_of_nat _ _ _ Hjet), (at_of_nat _ _ _ Hp), Hjet, Hp. simpl.
  destruct (PassEcalNoiceVetoJets (jet_momentum jet) period pu); simpl;
    [| reflexivity].
  destruct (bool_decide (N.of_nat n ∈ jet_to_exclude_indexes)); simpl;
    [reflexivity |].
  destruct (applyPu && (Z.land pu 2 =? 0)%Z); simpl; [reflexivity |].
  destruct (Qltb (Qabs (eta (jet_momentum jet))) low_eta_cut); simpl;
    [reflexivity |].
  by destruct (passBtag && negb (PassWP period jet_ordering ev (N.of_nat n) Medium)).
Qed.

Lemma SelectJets_loop_ok (ns : list nat) (acc : list JetInfo) :
  Forall (fun n => (n < length all_jets)%nat
                   /\ (n < length (jets_pu_id ev))%nat) ns ->
  loop ns acc = inr (acc ++ omap cand ns).
Proof.
  revert acc. induction ns as [| n ns IH]; intros acc Hns; simpl.
  - by rewrite app_nil_r.
  - apply Forall_cons in Hns as [[Hn Hpu] Hns].
    rewrite (SelectJets_body_ok n Hn Hpu). simpl.
    rewrite (IH _ Hns). destruct (cand n); simpl; [| reflexivity].
    by rewrite <- app_assoc.
Qed.

Lemma SelectJets_loop_app (ns1 ns2 : list nat) (acc : list JetInfo) :
  loop (ns1 ++ ns2) acc = rbind (loop ns1 acc) (loop ns2).
Proof.
  revert acc. induction ns1 as [| n ns1 IH]; intros acc; simpl;
    [reflexivity |].
  destruct (body (N.of_nat n)) as [e | o]; simpl; [reflexivity |].
  apply IH.
Qed.

Lemma SelectJets_body_out_of_range (n : nat) :
  (n < length all_jets)%nat -> (length (jets_pu_id ev) <= n)%nat ->
  body (N.of_nat n) = inl std_out_of_range.
Proof.
  intros Hn Hpu.
  destruct (lookup_lt_is_Some_2 all_jets n Hn) as [jet Hjet].
  unfold SelectJets_body.
  rewrite (at_of_nat _ _ _ Hjet). simpl.
  unfold at_. rewrite Nat2N.id, lookup_ge_None_2 by exact Hpu. reflexivity.
Qed.

Lemma select_candidate_Some (n : nat) (j : JetInfo) :
  cand n = Some j ->
  exists jet pu,
    all_jets !! n = Some jet /\ jets_pu_id ev !! n = Some pu /\
    PassEcalNoiceVetoJets (jet_momentum jet) period pu = true /\
    (N.of_nat n ∉ jet_to_exclude_indexes) /\
    (applyPu = true -> (Z.land pu 2 =? 0)%Z = false) /\
    Qltb (Qabs (eta (jet_momentum jet))) low_eta_cut = false /\
    (passBtag = true ->
     PassWP period jet_ordering ev (N.of_nat n) Medium = true) /\
    j = mkJetInfo (jet_momentum jet) (N.of_nat n)
          (BTag period jet_ordering ev (N.of_nat n)).
Proof.
  unfold select_candidate.
  destruct (all_jets !! n) as [jet |]; [| discriminate].
  destruct (jets_pu_id ev !! n) as [pu |]; [| discriminate]. simpl.
  destruct (PassEcalNoiceVetoJets (jet_momentum jet) period pu) eqn:Hveto;
    [| discriminate]. simpl.
  destruct (bool_decide (N.of_nat n ∈ jet_to_exclude_indexes)) eqn:Hex;
    [discriminate |]. simpl.
  destruct (applyPu && (Z.land pu 2 =? 0)%Z) eqn:Hpu; [discriminate |]. simpl.
  destruct (Qltb (Qabs (eta (jet_momentum jet))) low_eta_cut) eqn:Hlow;
    [discriminate |]. simpl.
  destruct (passBtag && negb (PassWP period jet_ordering ev (N.of_nat n) Medium))
    eqn:Hb; [discriminate |].
  intros [= <-]. exists jet, pu.
  apply bool_decide_eq_false in Hex.
  split; [reflexivity |]. split; [reflexivity |]. split; [exact Hveto |].
  split; [exact Hex |].
  split; [intros ->; exact Hpu |]. split; [exact Hlow |].
  split; [| reflexivity].
  intros ->. simpl in Hb. by apply negb_false_iff in Hb.
Qed.

Lemma select_candidates_NoDup (ns : list nat) :
  NoDup ns -> NoDup (index <$> omap cand ns).
Proof.
  intros Hnd.
  eapply sublist_NoDup; [| apply (omap_index_sublist cand ns)].
  - apply (NoDup_fmap_2 N.of_nat). exact Hnd.
  - intros n j Hj.
    apply select_candidate_Some in Hj as (? & ? & _ & _ & _ & _ & _ & _ & _ & ->).
    reflexivity.
Qed.


Lemma select_candidate_intro (n : nat) (jet : JetCandidate) (pu : Z) :
  all_jets !! n = Some jet -> jets_pu_id ev !! n = Some pu ->
  PassEcalNoiceVetoJets (jet_momentum jet) period pu = true ->
  (N.of_nat n ∉ jet_to_exclude_indexes) ->
  (applyPu = true -> (Z.land pu 2 =? 0)%Z = false) ->
  Qltb (Qabs (eta (jet_momentum jet))) low_eta_cut = false ->
  (passBtag = true ->
   PassWP period jet_ordering ev (N.of_nat n) Medium = true) ->
  cand n = Some (mkJetInfo (jet_momentum jet) (N.of_nat n)
                   (BTag period jet_ordering ev (N.of_nat n))).
Proof.
  intros Hjet Hp Hveto Hex Hpu Hlow Hb. unfold select_candidate.
  rewrite Hjet, Hp. simpl. rewrite Hveto, Hlow. simpl.
  rewrite bool_decide_eq_false_2 by exact Hex. simpl.
  destruct applyPu; [rewrite Hpu by reflexivity |]; simpl;
    (destruct passBtag; [rewrite Hb by reflexivity |]); reflexivity.
Qed.

(** The second loop returns the jets at the ranked indices when these are
    positions of the collection. *)
Lemma SelectJets_collect_ok (l : list JetInfo) (acc js : list JetCandidate) :
  Forall2 (fun j jet => all_jets !! N.to_nat (index j) = Some jet) l js ->
  SelectJets_collect all_jets l acc = inr (acc ++ js).
Proof.
  intros H. revert acc. induction H as [| j jet l js Hj _ IH]; intros acc; simpl.
  - by rewrite app_nil_r.
  - unfold at_. rewrite Hj. simpl. rewrite IH. by rewrite <- app_assoc.
Qed.

End Loop.

Lemma GetJets_run (this : EventInfoBase) :
  exists all_jets : list JetCandidate,
    GetJets this = (inr all_jets, (GetJets this).2) /\
    event (GetJets this).2 = event this /\
    period (GetJets this).2 = period this /\
    selected_signal_jets (GetJets this).2 = selected_signal_jets this.
Proof.
  destruct (jets this) as [js |] eqn:Hj.
  - exists js. rewrite (GetJets_stored this js Hj). by repeat split.
  - exists (record_jets (event this)). rewrite (GetJets_first_call this Hj).
    by destruct this.
Qed.

(** SelectJets unfolded on the collection GetJets returns. *)
Lemma SelectJets_run (this : EventInfoBase) (all_jets : list JetCandidate)
    (pt_cut eta_cut : Q) (applyPu passBtag : bool) (jet_ordering : JetOrdering)
    (jet_to_exclude_indexes : gset N) (low_eta_cut : Q) :
  (GetJets this).1 = inr all_jets ->
  (SelectJets pt_cut eta_cut applyPu passBtag jet_ordering
     jet_to_exclude_indexes low_eta_cut this).1
  = rbind (SelectJets_loop (event this) (period this) jet_ordering all_jets
             applyPu passBtag jet_to_exclude_indexes low_eta_cut
             (seq 0 (length all_jets)) [])
      (fun jet_info_vector =>
         SelectJets_collect all_jets
           (OrderJets jet_info_vector true pt_cut eta_cut) []).
Proof.
  intros Hj. destruct (GetJets_run this) as (js & Hrun & He & Hp & _).
  rewrite Hrun in Hj. simpl in Hj. injection Hj as ->.
  unfold SelectJets. rewrite (bind_eq _ _ _ _ _ Hrun).
  erewrite (bind_eq (get event)) by reflexivity.
  erewrite (bind_eq (get period)) by reflexivity.
  rewrite He, Hp.
  unfold lift, mbind, Method_bind. simpl.
  by destruct (SelectJets_loop _ _ _ _ _ _ _ _ _ _).
Qed.

(** The positions SelectJets takes, and the jets it returns for them. *)
Lemma SelectJets_positions (this : EventInfoBase)
    (all_jets : list JetCandidate) (pt_cut eta_cut : Q)
    (applyPu passBtag : bool) (jet_ordering : JetOrdering)
    (jet_to_exclude_indexes : gset N) (low_eta_cut : Q) :
  (GetJets this).1 = inr all_jets ->
  (length all_jets <= length (jets_pu_id (event this)))%nat ->
  exists (ns : list nat) (js : list JetCandidate),
    (SelectJets pt_cut eta_cut applyPu passBtag jet_ordering
       jet_to_exclude_indexes low_eta_cut this).1 = inr js /\
    NoDup ns /\
    Forall2 (fun n jet => all_jets !! n = Some jet) ns js /\
    forall n, n ∈ ns <->
      exists jet pu,
        all_jets !! n = Some jet /\
        jets_pu_id (event this) !! n = Some pu /\
        PassEcalNoiceVetoJets (jet_momentum jet) (period this) pu = true /\
        (N.of_nat n ∉ jet_to_exclude_indexes) /\
        (applyPu = true -> (Z.land pu 2 =? 0)%Z = false) /\
        Qltb (Qabs (eta (jet_momentum jet))) low_eta_cut = false /\
        (passBtag = true ->
         PassWP (period this) jet_ordering (event this) (N.of_nat n) Medium
         = true) /\
        Qltb pt_cut (Pt (jet_momentum jet)) = true /\
        Qltb (Qabs (eta (jet_momentum jet))) eta_cut = true.
Proof.
  intros Hj Hlen.
  rewrite (SelectJets_run _ _ _ _ _ _ _ _ _ Hj).
  rewrite SelectJets_loop_ok; cycle 1.
  { apply Forall_forall. intros n Hn%elem_of_seq. lia. }
  simpl.
  set (cand := select_candidate (event this) (period this) jet_ordering
                 all_jets applyPu passBtag jet_to_exclude_indexes low_eta_cut).
  set (ranked := OrderJets (omap cand (seq 0 (length all_jets))) true
                   pt_cut eta_cut).
  assert (forall j, j ∈ ranked ->
            exists n, (n < length all_jets)%nat /\ cand n = Some j /\
                      PassCuts pt_cut eta_cut j = true /\
                      index j = N.of_nat n) as Hranked.
  { intros j [Hin Hcut]%elem_of_OrderJets.
    apply list_elem_of_omap in Hin as (n & Hn%elem_of_seq & Hc).
    exists n. split; [lia |]. split; [exact Hc |]. split; [exact Hcut |].
    apply select_candidate_Some in Hc
      as (? & ? & _ & _ & _ & _ & _ & _ & _ & ->).
    reflexivity. }
  assert (NoDup (index <$> ranked)) as Hnd.
  { apply OrderJets_NoDup_index, select_candidates_NoDup, NoDup_seq. }
  exists ((fun j => N.to_nat (index j)) <$> ranked).
  assert (exists js : list JetCandidate,
            Forall2 (fun j jet => all_jets !! N.to_nat (index j) = Some jet)
              ranked js) as [js Hjs].
  { clear Hnd. induction ranked as [| j l IH].
    - exists []. constructor.
    - destruct IH as [js Hjs];
        [intros j' Hj'; apply Hranked; by right |].
      destruct (Hranked j) as (n & Hn & _ & _ & Hidx); [left |].
      destruct (lookup_lt_is_Some_2 all_jets n Hn) as [jet Hjet].
      exists (jet :: js). constructor; [| exact Hjs].
      by rewrite Hidx, Nat2N.id. }
  exists js.
  split; [by rewrite (SelectJets_collect_ok _ _ _ _ Hjs) |].
  split.
  { change (NoDup ((N.to_nat ∘ index) <$> ranked)).
    rewrite (list_fmap_compose index N.to_nat).
    apply (NoDup_fmap_2 N.to_nat). exact Hnd. }
  split.
  { apply Forall2_fmap_l. exact Hjs. }
  intros n. rewrite list_elem_of_fmap. split.
  - intros (j & -> & Hin).
    destruct (Hranked j Hin) as (n & Hn & Hc & Hcut & Hidx).
    rewrite Hidx, Nat2N.id.
    apply select_candidate_Some in Hc
      as (jet & pu & Hjet & Hpu & Hveto & Hex & Hbit & Hlow & Hb & ->).
    exists jet, pu. unfold PassCuts in Hcut. simpl in Hcut.
    apply andb_true_iff in Hcut as [Hpt Heta]. by repeat split.
  - intros (jet & pu & Hjet & Hpu & Hveto & Hex & Hbit & Hlow & Hb & Hpt & Heta).
    eexists. split; cycle 1.
    + apply elem_of_OrderJets. split.
      * apply list_elem_of_omap. exists n. split.
        { apply elem_of_seq. apply lookup_lt_Some in Hjet. lia. }
        { by apply (select_candidate_intro _ _ _ _ _ _ _ _ n jet pu). }
      * unfold PassCuts. simpl. by rewrite Hpt, Heta.
    + simpl. by rewrite Nat2N.id.
Qed.

(** X18: SelectJets returns when the pile-up-id column covers the collection of
    the instance.  The jets it returns sit at distinct positions of that
    collection, and a position is taken exactly when its jet passes the noise
    veto, is not excluded, passes the pile-up-id bit and the medium working
    point where these are asked for, is not below the lower eta bound and
    passes the pt and eta thresholds. *)
Theorem SelectJets_selects (this : EventInfoBase)
    (all_jets : list JetCandidate) (pt_cut eta_cut : Q)
    (applyPu passBtag : bool) (jet_ordering : JetOrdering)
    (jet_to_exclude_indexes : gset N) (low_eta_cut : Q) :
  (GetJets this).1 = inr all_jets ->
  (length all_jets <= length (jets_pu_id (event this)))%nat ->
  exists (ns : list nat) (js : list JetCandidate),
    (SelectJets pt_cut eta_cut applyPu passBtag jet_ordering
       jet_to_exclude_indexes low_eta_cut this).1 = inr js /\
    NoDup ns /\
    Forall2 (fun n jet => all_jets !! n = Some jet) ns js /\
    forall n, n ∈ ns <->
      exists jet pu,
        all_jets !! n = Some jet /\
        jets_pu_id (event this) !! n = Some pu /\
        PassEcalNoiceVetoJets (jet_momentum jet) (period this) pu = true /\
        (N.of_nat n ∉ jet_to_exclude_indexes) /\
        (applyPu = true -> (Z.land pu 2 =? 0)%Z = false) /\
        Qltb (Qabs (eta (jet_momentum jet))) low_eta_cut = false /\
        (passBtag = true ->
         PassWP (period this) jet_ordering (event this) (N.of_nat n) Medium
         = true) /\
        Qltb pt_cut (Pt (jet_momentum jet)) = true /\
        Qltb (Qabs (eta (jet_momentum jet))) eta_cut = true.
Proof.
  intros Hj Hlen.
  exact (SelectJets_positions this all_jets pt_cut eta_cut applyPu passBtag
           jet_ordering jet_to_exclude_indexes low_eta_cut Hj Hlen).
Qed.

(** The first loop of SelectJets runs out of the pile-up-id column. *)
Lemma SelectJets_short_pu_id (this : EventInfoBase)
    (all_jets : list JetCandidate) (pt_cut eta_cut : Q)
    (applyPu passBtag : bool) (jet_ordering : JetOrdering)
    (jet_to_exclude_indexes : gset N) (low_eta_cut : Q) :
  (GetJets this).1 = inr all_jets ->
  (length (jets_pu_id (event this)) < length all_jets)%nat ->
  (SelectJets pt_cut eta_cut applyPu passBtag jet_ordering
     jet_to_exclude_indexes low_eta_cut this).1 = inl std_out_of_range.
Proof.
  intros Hj Hlen.
  rewrite (SelectJets_run _ _ _ _ _ _ _ _ _ Hj).
  set (k := length (jets_pu_id (event this))) in *.
  replace (seq 0 (length all_jets))
    with (seq 0 k ++ k :: seq (S k) (length all_jets - S k)).
  2: { change (k :: seq (S k) (length all_jets - S k))
         with (seq k (S (length all_jets - S k))).
       rewrite <- seq_app. f_equal. lia. }
  rewrite SelectJets_loop_app. rewrite SelectJets_loop_ok; cycle 1.
  { apply Forall_forall. intros n Hn%elem_of_seq. subst k. lia. }
  simpl. rewrite SelectJets_body_out_of_range; [reflexivity | lia | subst k; lia].
Qed.


(** X19: SelectJets reads the pile-up id at every position of the collection of
    the instance: when the column is shorter than the collection the call
    throws [std::out_of_range], whatever the cuts. *)
Theorem SelectJets_out_of_range (this : EventInfoBase)
    (all_jets : list JetCandidate) (pt_cut eta_cut : Q)
    (applyPu passBtag : bool) (jet_ordering : JetOrdering)
    (jet_to_exclude_indexes : gset N) (low_eta_cut : Q) :
  (GetJets this).1 = inr all_jets ->
  (length (jets_pu_id (event this)) < length all_jets)%nat ->
  (SelectJets pt_cut eta_cut applyPu passBtag jet_ordering
     jet_to_exclude_indexes low_eta_cut this).1 = inl std_out_of_range.
Proof.
  intros Hj Hlen.
  exact (SelectJets_short_pu_id this all_jets pt_cut eta_cut applyPu passBtag
           jet_ordering jet_to_exclude_indexes low_eta_cut Hj Hlen).
Qed.

(** ** The scalar pt sum *)

Lemma sum_pt_fold (js : list JetCandidate) (a : Q) :
  (fold_left (fun ht jet => ht + Pt (jet_momentum jet)) js a
   == a + sumQ ((fun jet => Pt (jet_momentum jet)) <$> js))%Q.
Proof.
  revert a. induction js as [| jet js IH]; intros a.
  - unfold sumQ. cbn [fold_left fmap list_fmap fold_right]. lra.
  - cbn [fold_left]. rewrite IH. unfold sumQ.
    cbn [fmap list_fmap fold_right]. lra.
Qed.

Lemma sum_pt_sumQ (js : list JetCandidate) :
  (sum_pt js == sumQ ((fun jet => Pt (jet_momentum jet)) <$> js))%Q.
Proof. unfold sum_pt. rewrite sum_pt_fold. lra. Qed.

Lemma sumQ_submseteq (l1 l2 : list Q) :
  l1 ⊆+ l2 -> Forall (fun x => (0 <= x)%Q) l2 -> (sumQ l1 <= sumQ l2)%Q.
Proof.
  induction 1 as [| x l1 l2 _ IH | x y l | x l1 l2 _ IH | l1 l2 l3 H12 IH1 H23 IH2];
    intros Hpos; unfold sumQ in *; simpl.
  - lra.
  - apply Forall_cons in Hpos as [_ Hpos]. specialize (IH Hpos). lra.
  - lra.
  - apply Forall_cons in Hpos as [Hx Hpos]. specialize (IH Hpos). lra.
  - assert (Forall (fun x => (0 <= x)%Q) l2) as Hpos2.
    { apply Forall_forall. intros x Hx.
      rewrite Forall_forall in Hpos. apply Hpos.
      by eapply elem_of_submseteq. }
    specialize (IH1 Hpos2). specialize (IH2 Hpos). lra.
Qed.

Lemma sumQ_above (l : list Q) (c : Q) :
  (0 <= c)%Q -> Forall (fun x => (c < x)%Q) l -> l <> [] -> (c < sumQ l)%Q.
Proof.
  intros Hc Hl Hne. destruct l as [| x l]; [done |].
  apply Forall_cons in Hl as [Hx Hl]. unfold sumQ. simpl.
  assert (0 <= fold_right Qplus 0 l)%Q as Hpos.
  { clear Hne Hx. induction Hl as [| y l Hy _ IH]; simpl; lra. }
  lra.
Qed.

Lemma GetSelectedBjetIndicesSet_run (this : EventInfoBase) :
  GetSelectedBjetIndicesSet this
  = (inr ({[ (selectedBjetPair (selected_signal_jets this)).2 ]}
          ∪ ({[ (selectedBjetPair (selected_signal_jets this)).1 ]} ∪ ∅)),
     this).
Proof. reflexivity. Qed.

Lemma GetHT_run (includeHbbJets apply_eta_cut : bool) (this : EventInfoBase) :
  (GetHT includeHbbJets apply_eta_cut this).1
  = rbind (HT_jets includeHbbJets apply_eta_cut this).1
      (fun jets => inr (sum_pt jets)).
Proof.
  unfold GetHT, HT_jets. cbv zeta.
  destruct includeHbbJets.
  - erewrite (bind_eq (mret _)) by reflexivity.
    unfold mbind, Method_bind.
    by destruct (SelectJets _ _ _ _ _ _ _ _) as [[e | js] this'].
  - rewrite (bind_eq _ _ _ _ _ (GetSelectedBjetIndicesSet_run this)).
    unfold mbind, Method_bind.
    by destruct (SelectJets _ _ _ _ _ _ _ _) as [[e | js] this'].
Qed.

Lemma SelectJets_returns_covered (this : EventInfoBase)
    (all_jets js : list JetCandidate) (pt_cut eta_cut : Q)
    (applyPu passBtag : bool) (jet_ordering : JetOrdering)
    (jet_to_exclude_indexes : gset N) (low_eta_cut : Q) :
  (GetJets this).1 = inr all_jets ->
  (SelectJets pt_cut eta_cut applyPu passBtag jet_ordering
     jet_to_exclude_indexes low_eta_cut this).1 = inr js ->
  (length all_jets <= length (jets_pu_id (event this)))%nat.
Proof.
  intros Hj Hs.
  destruct (Nat.le_gt_cases (length all_jets)
              (length (jets_pu_id (event this)))) as [H | H]; [exact H |].
  by rewrite (SelectJets_short_pu_id _ _ _ _ _ _ _ _ _ Hj H) in Hs.
Qed.

(** X20: The value GetHT returns is either exactly 0, no jet being counted, or
    above 20: every jet that is counted has a pt above 20. *)
Theorem GetHT_zero_or_above_cut (this : EventInfoBase)
    (includeHbbJets apply_eta_cut : bool) (ht : Q) :
  (GetHT includeHbbJets apply_eta_cut this).1 = inr ht ->
  ht = 0%Q \/ (20 < ht)%Q.
Proof.
  rewrite GetHT_run.
  destruct (HT_jets includeHbbJets apply_eta_cut this).1 as [e | js] eqn:Hs;
    [discriminate |].
  simpl. intros [= <-].
  destruct (GetJets_run this) as (all_jets & Hrun & _).
  assert ((GetJets this).1 = inr all_jets) as Hj by (by rewrite Hrun).
  unfold HT_jets in Hs.
  pose proof (SelectJets_returns_covered _ _ _ _ _ _ _ _ _ _ Hj Hs) as Hcov.
  destruct (SelectJets_positions this all_jets 20%Q
              (if apply_eta_cut then 4.7%Q else 5%Q) false false DeepCSV
              (if includeHbbJets then ∅
               else {[ (selectedBjetPair (selected_signal_jets this)).2 ]}
                    ∪ ({[ (selectedBjetPair (selected_signal_jets this)).1 ]} ∪ ∅))
              low_eta_cut_default Hj Hcov)
    as (ns & js' & Hs' & _ & Hf & Hin).
  rewrite Hs in Hs'. injection Hs' as <-.
  destruct js as [| jet js]; [by left |]. right.
  rewrite sum_pt_sumQ. apply sumQ_above; [lra | | done].
  apply Forall_fmap, Forall_forall. intros jet' Hjet'.
  apply list_elem_of_lookup in Hjet' as [i Hi].
  destruct (Forall2_lookup_r _ _ _ _ _ Hf Hi) as (n & Hn & Hat).
  apply list_elem_of_lookup_2 in Hn.
  apply Hin in Hn as (jet2 & pu & Hat2 & _ & _ & _ & _ & _ & _ & Hpt & _).
  rewrite Hat in Hat2. injection Hat2 as <-.
  simpl. by apply Qltb_lt.
Qed.

(** X21: Leaving the selected b-jets out never raises the sum: on one instance
    GetHT without the b-jets returns at most what it returns with them. *)
Theorem GetHT_monotone (this : EventInfoBase) (apply_eta_cut : bool)
    (ht_without ht_with : Q) :
  (GetHT false apply_eta_cut this).1 = inr ht_without ->
  (GetHT true apply_eta_cut this).1 = inr ht_with ->
  (ht_without <= ht_with)%Q.
Proof.
  rewrite !GetHT_run.
  destruct (HT_jets false apply_eta_cut this).1 as [e | js1] eqn:Hs1;
    [discriminate |].
  destruct (HT_jets true apply_eta_cut this).1 as [e | js2] eqn:Hs2;
    [discriminate |].
  simpl. intros [= <-] [= <-].
  destruct (GetJets_run this) as (all_jets & Hrun & _).
  assert ((GetJets this).1 = inr all_jets) as Hj by (by rewrite Hrun).
  unfold HT_jets in Hs1, Hs2.
  pose proof (SelectJets_returns_covered _ _ _ _ _ _ _ _ _ _ Hj Hs1) as Hcov.
  destruct (SelectJets_positions this all_jets 20%Q
              (if apply_eta_cut then 4.7%Q else 5%Q) false false DeepCSV
              ({[ (selectedBjetPair (selected_signal_jets this)).2 ]}
               ∪ ({[ (selectedBjetPair (selected_signal_jets this)).1 ]} ∪ ∅))
              low_eta_cut_default Hj Hcov)
    as (ns1 & js1' & Hs1' & Hnd1 & Hf1 & Hin1).
  destruct (SelectJets_positions this all_jets 20%Q
              (if apply_eta_cut then 4.7%Q else 5%Q) false false DeepCSV
              ∅ low_eta_cut_default Hj Hcov)
    as (ns2 & js2' & Hs2' & Hnd2 & Hf2 & Hin2).
  rewrite Hs1 in Hs1'. injection Hs1' as <-.
  rewrite Hs2 in Hs2'. injection Hs2' as <-.
  set (g := fun n : nat =>
              match all_jets !! n with
              | Some jet => Pt (jet_momentum jet)
              | None => 0%Q
              end).
  assert (forall ns js,
            Forall2 (fun n jet => all_jets !! n = Some jet) ns js ->
            (fun jet => Pt (jet_momentum jet)) <$> js = g <$> ns) as Hg.
  { intros ns js H. induction H as [| n jet ns js Hn _ IH]; [reflexivity |].
    rewrite !fmap_cons, IH. f_equal. unfold g. by rewrite Hn. }
  rewrite !sum_pt_sumQ, (Hg _ _ Hf1), (Hg _ _ Hf2).
  apply sumQ_submseteq.
  - apply fmap_submseteq, NoDup_submseteq; [exact Hnd1 |].
    intros n Hn. apply Hin2. apply Hin1 in Hn
      as (jet & pu & Hat & Hpu & Hveto & _ & Hbit & Hlow & Hb & Hpt & Heta).
    exists jet, pu. repeat split; try assumption. set_solver.
  - apply Forall_fmap, Forall_forall. intros n Hn.
    apply Hin2 in Hn as (jet & pu & Hat & _ & _ & _ & _ & _ & _ & Hpt & _).
    simpl. unfold g. rewrite Hat. apply Qltb_lt in Hpt. lra.
Qed.

End SelectJetsFacts.

(** * Properties of the tau identification scale factors *)

Lemma Qleb_le (x y : Q) : Qleb x y = true <-> (x <= y)%Q.
Proof. apply Qle_bool_iff. Qed.

Lemma Qleb_gt (x y : Q) : Qleb x y = false <-> (y < x)%Q.
Proof.
  unfold Qleb. rewrite <- not_true_iff_false, Qle_bool_iff.
  split; [apply Qnot_le_lt | apply Qlt_not_le].
Qed.

Module TauIdWeightFacts.
Import TauIdWeight.

Section Weights.
Variable LorentzVectorM_Float : Type.
Variable eta : LorentzVectorM_Float -> float.

Abbreviation getMuonMissId := (getMuonMissId LorentzVectorM_Float eta).
Abbreviation getEleMissId := (getEleMissId LorentzVectorM_Float eta).
Abbreviation GetIdIsoSF := (GetIdIsoSF LorentzVectorM_Float eta).

(** Turns the outcome of every comparison in the context into an
    inequality. *)
Ltac reflect_comparisons :=
  repeat match goal with
         | H : Qltb _ _ = true |- _ => apply Qltb_lt in H
         | H : Qltb _ _ = false |- _ => apply Qltb_ge in H
         | H : Qleb _ _ = true |- _ => apply Qleb_le in H
         | H : Qleb _ _ = false |- _ => apply Qleb_gt in H
         end.

Ltac case_comparison :=
  match goal with
  | |- context [Qltb ?x ?y] => destruct (Qltb x y) eqn:?
  | |- context [Qleb ?x ?y] => destruct (Qleb x y) eqn:?
  end.

(** The comparisons of the code on a value that is a number. *)
Ltac on_number Heta :=
  rewrite Heta;
  cbn [std_abs float_lt float_le float_gt float_ge].

(** X22: getMuonMissId.  A lepton that is not matched to a muon gets the factor
    1 with error 0, whatever the working point and eta.  For a muon match a
    working point other than Loose and Tight is refused, whatever eta; with
    Loose or Tight the eta bins cover everything below 2.3 without a gap,
    there the factor lies between 0.93 and 1.94, and from 2.3 on the call
    throws, as it does for an eta that is not a number. *)
Theorem getMuonMissId_cases (p4 : LorentzVectorM_Float) (gen_match : GenMatch)
    (iso_wp : DiscriminatorWP) :
  (gen_match <> Muon /\ gen_match <> TauMuon ->
   getMuonMissId p4 gen_match iso_wp = inr (mkPhysicalValue 1 0)) /\
  (gen_match = Muon \/ gen_match = TauMuon ->
   (iso_wp <> Loose /\ iso_wp <> Tight ->
    getMuonMissId p4 gen_match iso_wp
    = inl (exception_wp "WP %1% is not supported." iso_wp)) /\
   (iso_wp = Loose \/ iso_wp = Tight ->
    (forall x, eta p4 = Num x -> (Qabs x < 2.3)%Q ->
     exists v, getMuonMissId p4 gen_match iso_wp = inr v /\
               (0.93 <= GetValue v <= 1.94)%Q) /\
    (forall x, eta p4 = Num x -> (2.3 <= Qabs x)%Q ->
     getMuonMissId p4 gen_match iso_wp = inl (exception "eta out of range")) /\
    (eta p4 = NaN ->
     getMuonMissId p4 gen_match iso_wp
     = inl (exception "eta out of range")))).
Proof.
  split.
  - intros [H1 H2]. unfold TauIdWeight.getMuonMissId.
    by rewrite (bool_decide_eq_false_2 _ H1), (bool_decide_eq_false_2 _ H2).
  - intros Hm.
    assert (bool_decide (gen_match = Muon) || bool_decide (gen_match = TauMuon)
            = true) as Hgm.
    { destruct Hm as [-> | ->]; reflexivity. }
    split.
    + intros [H1 H2]. unfold TauIdWeight.getMuonMissId. rewrite Hgm. simpl.
      by rewrite (bool_decide_eq_false_2 _ H1), (bool_decide_eq_false_2 _ H2).
    + intros Hwp.
      assert (bool_decide (iso_wp = Loose) || bool_decide (iso_wp = Tight)
              = true) as Hw.
      { destruct Hwp as [-> | ->]; reflexivity. }
      unfold TauIdWeight.getMuonMissId. rewrite Hgm, Hw. simpl.
      split; [| split].
      * intros x Hx Heta. on_number Hx.
        repeat (case_comparison; simpl);
          try (eexists; split; [reflexivity |];
               destruct Hwp as [-> | ->]; simpl; lra).
        all: exfalso; reflect_comparisons; lra.
      * intros x Hx Heta. on_number Hx.
        repeat (case_comparison; simpl); try reflexivity.
        all: exfalso; reflect_comparisons; lra.
      * intros ->. reflexivity.
Qed.

(** X23: getEleMissId.  Barrel, endcaps and the gap between them cover every
    eta that is a number, so the final "eta out of range" is thrown for an
    electron match whose eta is not a number, and for nothing else.  In the
    gap the factor is 1 with error 0 for every working point, the unsupported
    ones included; for an electron match outside the gap the call returns
    exactly for the working points VLoose, Loose, Medium, Tight and
    VTight. *)
Theorem getEleMissId_cases (p4 : LorentzVectorM_Float) (gen_match : GenMatch)
    (iso_wp : DiscriminatorWP) :
  (getEleMissId p4 gen_match iso_wp = inl (exception "eta out of range") <->
   (gen_match = Electron \/ gen_match = TauElectron) /\ eta p4 = NaN) /\
  (forall x, eta p4 = Num x -> (1.460 <= Qabs x <= 1.558)%Q ->
   getEleMissId p4 gen_match iso_wp = inr (mkPhysicalValue 1 0)) /\
  (gen_match = Electron \/ gen_match = TauElectron ->
   forall x, eta p4 = Num x -> (Qabs x < 1.460)%Q \/ (1.558 < Qabs x)%Q ->
   ((exists v, getEleMissId p4 gen_match iso_wp = inr v) <->
    iso_wp ∈ [VLoose; Loose; Medium; Tight; VTight]) /\
   (iso_wp ∉ [VLoose; Loose; Medium; Tight; VTight] ->
    getEleMissId p4 gen_match iso_wp
    = inl (exception_wp "WP %1% is not supported." iso_wp))).
Proof.
  split; [| split].
  - unfold TauIdWeight.getEleMissId. split.
    + destruct (bool_decide (gen_match = Electron)
                || bool_decide (gen_match = TauElectron)) eqn:Hgm;
        cbn [negb]; [| discriminate].
      intros H. split.
      { apply orb_true_iff in Hgm as [Hg | Hg];
          apply bool_decide_eq_true in Hg; auto. }
      destruct (eta p4) as [| x]; [reflexivity | exfalso].
      cbn [std_abs float_lt float_le float_gt float_ge] in H. revert H.
      repeat (case_comparison; simpl);
        repeat case_bool_decide; try discriminate.
      all: reflect_comparisons; lra.
    + intros [Hm ->].
      assert (bool_decide (gen_match = Electron)
              || bool_decide (gen_match = TauElectron) = true) as ->.
      { destruct Hm as [-> | ->]; reflexivity. }
      reflexivity.
  - intros x Hx [H1 H2]. unfold TauIdWeight.getEleMissId.
    destruct (negb _); [reflexivity |]. on_number Hx.
    repeat (case_comparison; simpl); try reflexivity.
    all: exfalso; reflect_comparisons; lra.
  - intros Hm x Hx Heta.
    assert (bool_decide (gen_match = Electron)
            || bool_decide (gen_match = TauElectron) = true) as Hgm.
    { destruct Hm as [-> | ->]; reflexivity. }
    unfold TauIdWeight.getEleMissId. rewrite Hgm. on_number Hx. simpl.
    assert (Qltb (Qabs x) 1.460 = true
            \/ (Qltb (Qabs x) 1.460 = false
                /\ Qltb 1.558 (Qabs x) = true)) as Hb.
    { destruct Heta as [H | H].
      - left. by apply Qltb_lt.
      - right. split; [apply Qltb_ge; lra | by apply Qltb_lt]. }
    destruct Hb as [-> | [-> ->]]; simpl.
    all: clear; destruct iso_wp; simpl; rewrite !elem_of_cons, elem_of_nil;
      (split; [split |]);
      first [ by eexists | reflexivity
            | solve [intros [v Hv]; discriminate Hv]
            | solve [intros _; auto 10]
            | solve [intros Hn; exfalso; apply Hn; auto 10]
            | solve [intuition discriminate] ].
Qed.

Lemma getTauIso_not_tau (iso_wp : DiscriminatorWP) (gen_match : GenMatch) :
  gen_match <> Tau -> getTauIso iso_wp gen_match = inr (mkPhysicalValue 1 0).
Proof.
  intros H. unfold getTauIso. by rewrite (bool_decide_eq_false_2 _ H).
Qed.

Lemma getMuonMissId_not_muon (p4 : LorentzVectorM_Float)
    (gen_match : GenMatch) (iso_wp : DiscriminatorWP) :
  gen_match <> Muon -> gen_match <> TauMuon ->
  getMuonMissId p4 gen_match iso_wp = inr (mkPhysicalValue 1 0).
Proof.
  intros H1 H2. unfold TauIdWeight.getMuonMissId.
  by rewrite (bool_decide_eq_false_2 _ H1), (bool_decide_eq_false_2 _ H2).
Qed.

Lemma getEleMissId_not_electron (p4 : LorentzVectorM_Float)
    (gen_match : GenMatch) (iso_wp : DiscriminatorWP) :
  gen_match <> Electron -> gen_match <> TauElectron ->
  getEleMissId p4 gen_match iso_wp = inr (mkPhysicalValue 1 0).
Proof.
  intros H1 H2. unfold TauIdWeight.getEleMissId.
  by rewrite (bool_decide_eq_false_2 _ H1), (bool_decide_eq_false_2 _ H2).
Qed.

Lemma getTauIso_positive iso_wp gen_match v :
  getTauIso iso_wp gen_match = inr v -> (0 < GetValue v)%Q.
Proof.
  unfold getTauIso. repeat case_bool_decide; simpl;
    repeat case_bool_decide; simpl; intros [= <-]; simpl; lra.
Qed.

Lemma getMuonMissId_positive p4 gen_match iso_wp v :
  getMuonMissId p4 gen_match iso_wp = inr v -> (0 < GetValue v)%Q.
Proof.
  unfold TauIdWeight.getMuonMissId.
  destruct (negb _); [intros [= <-]; simpl; lra |].
  destruct (negb _); [discriminate |].
  destruct (eta p4) as [| x];
    cbn [std_abs float_lt float_le float_gt float_ge andb];
    [discriminate |].
  repeat (case_comparison; simpl); try discriminate;
    case_bool_decide; intros [= <-]; simpl; lra.
Qed.

Lemma getEleMissId_positive p4 gen_match iso_wp v :
  getEleMissId p4 gen_match iso_wp = inr v -> (0 < GetValue v)%Q.
Proof.
  unfold TauIdWeight.getEleMissId.
  destruct (negb _); [intros [= <-]; simpl; lra |].
  destruct (eta p4) as [| x];
    cbn [std_abs float_lt float_le float_gt float_ge andb];
    [discriminate |].
  repeat (case_comparison; simpl); try discriminate;
    repeat case_bool_decide; try discriminate; intros [= <-]; simpl; lra.
Qed.

(** X24: GetIdIsoSF multiplies three factors of which at most one differs from
    1, the kinds of generator match being exclusive: a value it returns is
    positive and equals the isolation factor for a tau match, the muon factor
    for a muon match, the electron factor for an electron match, and 1 for
    every other match, for which it always returns. *)
Theorem GetIdIsoSF_single_factor (p4 : LorentzVectorM_Float)
    (gen_match : GenMatch) (decay_mode : Z)
    (anti_ele_wp anti_mu_wp iso_wp : DiscriminatorWP) :
  (forall sf,
     GetIdIsoSF p4 gen_match decay_mode anti_ele_wp anti_mu_wp iso_wp = inr sf ->
     (0 < sf)%Q /\
     exists v,
       (sf == GetValue v)%Q /\
       (getTauIso iso_wp gen_match = inr v /\ gen_match = Tau
        \/ getMuonMissId p4 gen_match anti_mu_wp = inr v
           /\ (gen_match = Muon \/ gen_match = TauMuon)
        \/ getEleMissId p4 gen_match anti_ele_wp = inr v
           /\ (gen_match = Electron \/ gen_match = TauElectron)
        \/ v = mkPhysicalValue 1 0
           /\ gen_match ∉ [Tau; Muon; TauMuon; Electron; TauElectron])) /\
  (gen_match ∉ [Tau; Muon; TauMuon; Electron; TauElectron] ->
   exists sf,
     GetIdIsoSF p4 gen_match decay_mode anti_ele_wp anti_mu_wp iso_wp = inr sf /\
     (sf == 1)%Q).
Proof.
  split.
  - intros sf. unfold TauIdWeight.GetIdIsoSF.
    destruct (getTauIso iso_wp gen_match) as [e | tau] eqn:Htau;
      [discriminate |].
    destruct (getMuonMissId p4 gen_match anti_mu_wp) as [e | muon] eqn:Hmu;
      [discriminate |].
    destruct (getEleMissId p4 gen_match anti_ele_wp) as [e | ele] eqn:Hele;
      [discriminate |].
    intros [= <-].
    pose proof (getTauIso_positive _ _ _ Htau) as Pt.
    pose proof (getMuonMissId_positive _ _ _ _ Hmu) as Pm.
    pose proof (getEleMissId_positive _ _ _ _ Hele) as Pe.
    split.
    { apply Qmult_lt_0_compat; [apply Qmult_lt_0_compat |]; assumption. }
    destruct gen_match.
    + exists ele. split.
      * rewrite getTauIso_not_tau in Htau by discriminate.
        rewrite getMuonMissId_not_muon in Hmu by discriminate.
        injection Htau as <-. injection Hmu as <-. simpl. ring.
      * right; right; left. split; [reflexivity | by left].
    + exists muon. split.
      * rewrite getTauIso_not_tau in Htau by discriminate.
        rewrite getEleMissId_not_electron in Hele by discriminate.
        injection Htau as <-. injection Hele as <-. simpl. ring.
      * right; left. split; [reflexivity | by left].
    + exists ele. split.
      * rewrite getTauIso_not_tau in Htau by discriminate.
        rewrite getMuonMissId_not_muon in Hmu by discriminate.
        injection Htau as <-. injection Hmu as <-. simpl. ring.
      * right; right; left. split; [reflexivity | by right].
    + exists muon. split.
      * rewrite getTauIso_not_tau in Htau by discriminate.
        rewrite getEleMissId_not_electron in Hele by discriminate.
        injection Htau as <-. injection Hele as <-. simpl. ring.
      * right; left. split; [reflexivity | by right].
    + exists tau. split.
      * rewrite getMuonMissId_not_muon in Hmu by discriminate.
        rewrite getEleMissId_not_electron in Hele by discriminate.
        injection Hmu as <-. injection Hele as <-. simpl. ring.
      * left. by split.
    + exists (mkPhysicalValue 1 0). split.
      * rewrite getTauIso_not_tau in Htau by discriminate.
        rewrite getMuonMissId_not_muon in Hmu by discriminate.
        rewrite getEleMissId_not_electron in Hele by discriminate.
        injection Htau as <-. injection Hmu as <-. injection Hele as <-.
        simpl. ring.
      * right; right; right. split; [reflexivity |].
        rewrite !elem_of_cons, elem_of_nil. intuition discriminate.
  - intros Hn. rewrite !elem_of_cons, elem_of_nil in Hn.
    unfold TauIdWeight.GetIdIsoSF.
    rewrite getTauIso_not_tau by (intros ->; apply Hn; auto 10).
    rewrite getMuonMissId_not_muon by (intros ->; apply Hn; auto 10).
    rewrite getEleMissId_not_electron by (intros ->; apply Hn; auto 10).
    eexists. split; [reflexivity |]. simpl. ring.
Qed.

End Weights.

End TauIdWeightFacts.

(** * Properties of the tuple producer *)

Module TupleStoreFacts.
Import TupleStore.

Section Store.
Variable EventTuple : Type.
Variable new_EventTuple : EventTuple.

Abbreviation state := (state EventTuple).
Abbreviation initial := (initial EventTuple).
Abbreviation GetTuple := (GetTuple EventTuple new_EventTuple).
Abbreviation ReleaseEventTuple := (ReleaseEventTuple EventTuple).
Abbreviation run := (run EventTuple new_EventTuple).
Abbreviation step := (step EventTuple new_EventTuple).
Abbreviation store_inv := (store_inv EventTuple).

Lemma wrap_int_id (z : Z) :
  (- 2147483648 <= z <= 2147483647)%Z -> wrap_int z = z.
Proof.
  unfold wrap_int. intros Hz.
  change (2 ^ 31)%Z with 2147483648%Z. change (2 ^ 32)%Z with 4294967296%Z.
  rewrite Z.mod_small by lia. lia.
Qed.

Lemma cycles_S (k : nat) :
  cycles k ++ [CreateEventTuple; Write] = cycles (S k).
Proof.
  unfold cycles. induction k as [| k IH]; [reflexivity |].
  simpl in *. by rewrite IH.
Qed.

Lemma GetTuple_inv (n : Z) (s : state) :
  (n < int_max)%Z -> store_inv n s ->
  store_inv (n + 1) (GetTuple s).2 /\
  (GetTuple s).1 = inr new_EventTuple \/
  store_inv (n + 1) (GetTuple s).2 /\
  exists t, eventTuple_ptr _ s = Some t /\ (GetTuple s).1 = inr t.
Proof.
  unfold int_max, TupleStore.store_inv.
  intros Hn ((Hc0 & Hcn) & Hptr & k & Heff).
  destruct s as [c p eff]. simpl in *. unfold TupleStore.GetTuple. simpl.
  destruct (Z.eqb_spec c 0) as [-> | Hne]; simpl.
  - left. rewrite wrap_int_id by lia.
    assert (p = None) as -> by (by apply Hptr).
    split; [| reflexivity]. split; [lia |]. split; [split; [done | lia] |].
    exists k. simpl in *. by rewrite Heff, app_nil_r.
  - right. rewrite wrap_int_id by lia.
    destruct p as [t |]; [| exfalso; apply Hne; by apply Hptr].
    simpl. split; [| by exists t].
    split; [lia |]. split; [split; [done | lia] |].
    by exists k.
Qed.

Lemma ReleaseEventTuple_inv (n : Z) (s : state) :
  (n <= int_max)%Z -> store_inv n s -> store_inv n (ReleaseEventTuple s).2.
Proof.
  unfold int_max, TupleStore.store_inv.
  intros Hn ((Hc0 & Hcn) & Hptr & k & Heff).
  destruct s as [c p eff]. simpl in *. unfold TupleStore.ReleaseEventTuple.
  simpl.
  destruct (Z.eqb_spec c 0) as [-> | Hne]; simpl.
  - split; [lia |]. split; [exact Hptr |]. by exists k.
  - rewrite wrap_int_id by lia.
    destruct p as [t |]; [| exfalso; apply Hne; by apply Hptr].
    destruct (Z.eqb_spec (c - 1) 0) as [H0 | H0]; simpl.
    + split; [lia |]. split; [split; intros; [lia | done] |].
      exists (S k). rewrite Heff, <- cycles_S, app_nil_r.
      by rewrite <- app_assoc.
    + split; [lia |]. split; [split; [done | lia] |]. by exists k.
Qed.

Lemma initial_inv : store_inv 0 initial.
Proof.
  unfold TupleStore.store_inv. split; [simpl; lia |]. split; [done |].
  by exists 0%nat.
Qed.

Lemma store_inv_mono (n m : Z) (s : state) :
  (n <= m)%Z -> store_inv n s -> store_inv m s.
Proof.
  unfold TupleStore.store_inv. intros Hnm ((? & ?) & ? & ?).
  split; [lia | done].
Qed.

Lemma run_inv (cs : list call) (n : Z) (s : state) :
  (n + Z.of_nat (length cs) <= int_max)%Z -> store_inv n s ->
  store_inv (n + Z.of_nat (length cs)) (run cs s).
Proof.
  revert n s. induction cs as [| c cs IH]; intros n s Hn Hs.
  - simpl. by rewrite Z.add_0_r.
  - cbn [length] in *. rewrite Nat2Z.inj_succ in *.
    replace (n + Z.succ (Z.of_nat (length cs)))%Z
      with ((n + 1) + Z.of_nat (length cs))%Z by lia.
    unfold TupleStore.run. cbn [fold_left]. apply IH; [lia |].
    destruct c; simpl.
    + destruct (GetTuple_inv n s ltac:(lia) Hs) as [[H _] | [H _]]; exact H.
    + apply (store_inv_mono n); [lia |].
      apply ReleaseEventTuple_inv; [lia | exact Hs].
Qed.

(** X26: The store counts its users.  After any sequence of fewer than 2^31
    calls of GetTuple and ReleaseEventTuple on the store as it starts, the
    tuple exists exactly while the counter is not zero, the counter is not
    negative, and the file has seen tuples created and written in turns:
    every tuple but an existing one has been written, once. *)
Theorem TupleStore_counts_users (cs : list call) :
  (Z.of_nat (length cs) <= int_max)%Z ->
  let s := run cs initial in
  (0 <= tuple_counter _ s <= Z.of_nat (length cs))%Z /\
  (eventTuple_ptr _ s = None <-> tuple_counter _ s = 0%Z) /\
  exists k,
    effects _ s
    = cycles k ++ match eventTuple_ptr _ s with
       | Some _ => [CreateEventTuple]
       | None => []
       end.
Proof.
  intros Hn s. apply (run_inv cs 0 initial); [lia | apply initial_inv].
Qed.

(** Releasing a store nobody holds throws and changes nothing; the last of
    the producers that hold the tuple writes it and gives it up, any other
    only lowers the counter. *)
Lemma ReleaseEventTuple_cases (s : state) (t : EventTuple) :
  (tuple_counter _ s = 0%Z ->
   ReleaseEventTuple s
   = (inl (analysis_exception "Tuple Counter equals zero."), s)) /\
  (tuple_counter _ s = 1%Z -> eventTuple_ptr _ s = Some t ->
   ReleaseEventTuple s
   = (inr tt, {| tuple_counter := 0; eventTuple_ptr := None;
                 effects := effects _ s ++ [Write] |})) /\
  ((1 < tuple_counter _ s <= int_max)%Z ->
   ReleaseEventTuple s
   = (inr tt, {| tuple_counter := tuple_counter _ s - 1;
                 eventTuple_ptr := eventTuple_ptr _ s;
                 effects := effects _ s |})).
Proof.
  destruct s as [c p eff]. simpl. unfold TupleStore.ReleaseEventTuple. simpl.
  split; [by intros -> |]. split.
  - by intros -> ->.
  - unfold int_max. intros Hc.
    destruct (Z.eqb_spec c 0); [lia |]. rewrite wrap_int_id by lia.
    by destruct (Z.eqb_spec (c - 1) 0); [lia |].
Qed.

End Store.

End TupleStoreFacts.

Module BaseTupleProducerFacts.
Import BaseTupleProducer.

(** X27: The neutral part of the isolation is not allowed to go below zero: for
    a lepton of positive pt the relative isolation is at least the charged
    sum over pt, and is just that when the pile-up correction takes the
    neutral sums to zero or below. *)
Theorem Isolation_clamps_neutral (lepton : PFIsolation) :
  (0 < lepton_pt lepton)%Q ->
  (sumChargedHadronPt lepton / lepton_pt lepton <= Isolation lepton)%Q /\
  ((sumNeutralHadronEt lepton + sumPhotonEt lepton
    <= 0.5 * sumPUPt lepton)%Q ->
   (Isolation lepton == sumChargedHadronPt lepton / lepton_pt lepton)%Q) /\
  ((0.5 * sumPUPt lepton
    <= sumNeutralHadronEt lepton + sumPhotonEt lepton)%Q ->
   (Isolation lepton
    == (sumChargedHadronPt lepton + sumNeutralHadronEt lepton
        + sumPhotonEt lepton - 0.5 * sumPUPt lepton) / lepton_pt lepton)%Q).
Proof.
  intros Hpt. unfold Isolation, std_max.
  set (n := (sumNeutralHadronEt lepton + sumPhotonEt lepton
             - 0.5 * sumPUPt lepton)%Q).
  assert (0 < / lepton_pt lepton)%Q as Hinv by (by apply Qinv_lt_0_compat).
  unfold Qdiv.
  destruct (Qltb n 0.0) eqn:Hn.
  - apply Qltb_lt in Hn. split; [| split].
    + apply Qmult_le_compat_r; [lra | lra].
    + intros _. apply Qmult_comp; [lra | reflexivity].
    + intros H. apply Qmult_comp; [subst n; lra | reflexivity].
  - apply Qltb_ge in Hn. split; [| split].
    + apply Qmult_le_compat_r; [lra | lra].
    + intros H. apply Qmult_comp; [subst n; lra | reflexivity].
    + intros _. apply Qmult_comp; [subst n; lra | reflexivity].
Qed.

Lemma FillHiggsDaughtersIndexes_spec (higgses_pair_indexes : list (N * N))
    (shift : N) (columns : list N * list N) :
  FillHiggsDaughtersIndexes higgses_pair_indexes shift columns
  = (columns.1 ++ (fst <$> higgses_pair_indexes),
     columns.2
     ++ ((fun higgs_pair => size_t_add shift higgs_pair.2)
           <$> higgses_pair_indexes)).
Proof.
  revert columns. induction higgses_pair_indexes as [| p l IH];
    intros [c1 c2]; unfold FillHiggsDaughtersIndexes in *; simpl.
  - by rewrite !app_nil_r.
  - rewrite IH. simpl. by rewrite <- !app_assoc.
Qed.

(** X28: FillHiggsDaughtersIndexes appends one entry per pair to each of the two
    columns, so columns of equal length stay of equal length, and pair number
    n is found at the n-th new position: its first index as it is, its
    second index moved by the shift. *)
Theorem FillHiggsDaughtersIndexes_appends
    (higgses_pair_indexes : list (N * N)) (shift : N)
    (columns : list N * list N) :
  N.of_nat (length higgses_pair_indexes) < 2 ^ 32 ->
  let filled := FillHiggsDaughtersIndexes higgses_pair_indexes shift columns in
  length filled.1 = (length columns.1 + length higgses_pair_indexes)%nat /\
  length filled.2 = (length columns.2 + length higgses_pair_indexes)%nat /\
  forall n higgs_pair,
    higgses_pair_indexes !! n = Some higgs_pair ->
    filled.1 !! (length columns.1 + n)%nat = Some higgs_pair.1 /\
    filled.2 !! (length columns.2 + n)%nat
    = Some (size_t_add shift higgs_pair.2).
Proof.
  intros _ filled. subst filled. rewrite FillHiggsDaughtersIndexes_spec.
  cbn [fst snd]. rewrite !length_app, !length_fmap.
  split; [reflexivity |]. split; [reflexivity |].
  intros n p Hn.
  rewrite !lookup_app_r by lia.
  replace (length columns.1 + n - length columns.1)%nat with n by lia.
  replace (length columns.2 + n - length columns.2)%nat with n by lia.
  by rewrite !list_lookup_fmap, Hn.
Qed.

(** X29: The jet identification knows the periods 2016, 2017 and 2018 and throws
    for any other.  In each of the three a jet inside the tracker acceptance
    (|eta| at most 2.4) that passes has at least two constituents and a
    charged one, and each of its neutral hadron, neutral electromagnetic and
    charged hadron fractions, when it is a number, is below 0.9, below 0.9
    and above 0.  A fraction that is not a number rejects no jet: a jet in
    the acceptance whose fractions are all not-a-number passes with two
    constituents and a charged one, and a jet whose eta is not a number
    passes whatever else it holds. *)
Theorem PassPFTightId_central (patJet : PatJet) (period : Period) :
  (period <> Run2016 /\ period <> Run2017 /\ period <> Run2018 ->
   PassPFTightId patJet period
   = inl (analysis_exception "PassPFTightId: period is not supported.")) /\
  (PassPFTightId patJet period = inr true ->
   forall e, jet_eta patJet = Num e -> (Qabs e <= 2.4)%Q ->
   (forall x, neutralHadronEnergyFraction patJet = Num x -> (x < 0.9)%Q) /\
   (forall x, neutralEmEnergyFraction patJet = Num x -> (x < 0.9)%Q) /\
   (1 < nConstituents patJet)%Z /\
   (forall x, chargedHadronEnergyFraction patJet = Num x -> (0 < x)%Q) /\
   (0 < chargedMultiplicity patJet)%Z) /\
  (period ∈ [Run2016; Run2017; Run2018] ->
   (forall e, jet_eta patJet = Num e -> (Qabs e <= 2.4)%Q ->
    neutralHadronEnergyFraction patJet = NaN ->
    neutralEmEnergyFraction patJet = NaN ->
    chargedHadronEnergyFraction patJet = NaN ->
    chargedEmEnergyFraction patJet = NaN ->
    (1 < nConstituents patJet)%Z -> (0 < chargedMultiplicity patJet)%Z ->
    PassPFTightId patJet period = inr true) /\
   (jet_eta patJet = NaN -> PassPFTightId patJet period = inr true)).
Proof.
  split; [| split].
  - intros (H6 & H7 & H8). by destruct period.
  - intros Hpass e He Heta.
    unfold PassPFTightId in Hpass. rewrite He in Hpass.
    destruct (neutralHadronEnergyFraction patJet) as [| nh];
      destruct (neutralEmEnergyFraction patJet) as [| ne];
      destruct (chargedHadronEnergyFraction patJet) as [| ch];
      destruct (chargedEmEnergyFraction patJet) as [| ce].
    all: cbn [std_abs float_lt float_le float_gt float_ge] in Hpass.
    all: assert (Qleb (Qabs e) 2.4 = true) as H24 by (by apply Qle_bool_iff).
    all: assert (Qleb (Qabs e) 2.6 = true) as H26
      by (apply Qle_bool_iff; lra).
    all: assert (Qleb (Qabs e) 2.7 = true) as H27
      by (apply Qle_bool_iff; lra).
    all: rewrite ?H24, ?H26, ?H27 in Hpass.
    all: destruct period; try discriminate Hpass; cbn [andb orb] in Hpass.
    all: repeat match type of Hpass with
           | context [if ?b then _ else _] =>
               let Hb := fresh "Hb" in
               destruct b eqn:Hb; [discriminate Hpass |]
           end.
    all: repeat match goal with
           | H : _ || _ = false |- _ => apply orb_false_iff in H as [? ?]
           | H : _ && _ = false |- _ => clear H
           end.
    all: repeat match goal with
           | H : (_ <=? _)%Z = false |- _ => apply Z.leb_gt in H
           | H : Qleb _ _ = false |- _ => apply Qleb_gt in H
           end.
    all: repeat split; try assumption; intros x [= <-]; assumption.
  - intros Hp. split.
    + intros e He Heta Hnh Hne Hch Hce Hn Hc.
      apply Z.leb_gt in Hn, Hc.
      assert (Qltb 2.7 (Qabs e) = false) as H27 by (apply Qltb_ge; lra).
      assert (Qltb 2.6 (Qabs e) = false) as H26 by (apply Qltb_ge; lra).
      assert (Qltb 3.0 (Qabs e) = false) as H30 by (apply Qltb_ge; lra).
      unfold PassPFTightId. rewrite He, Hnh, Hne, Hch, Hce, Hn, Hc.
      cbn [std_abs float_lt float_le float_gt float_ge].
      rewrite ?H26, ?H27, ?H30.
      rewrite !elem_of_cons, elem_of_nil in Hp.
      destruct Hp as [-> | [-> | [-> | []]]];
        cbn [orb andb]; rewrite ?andb_false_r; reflexivity.
    + intros He. unfold PassPFTightId. rewrite He.
      rewrite !elem_of_cons, elem_of_nil in Hp.
      destruct Hp as [-> | [-> | [-> | []]]]; reflexivity.
Qed.

End BaseTupleProducerFacts.

(** * Properties of the run summary *)

Module SummaryFacts.
Import Summary.

Section Summary.
Context `{Col : Collaborators}.
Variable TriggerDescriptorCollection : Type.
Variable new_TriggerDescriptorCollection : TriggerDescriptorCollection.
Variable Add :
  TriggerDescriptorCollection -> string -> result TriggerDescriptorCollection.
Variable new_JECUncertaintiesWrapper : string -> result JECUncertaintiesWrapper.

Abbreviation SummaryInfo := (SummaryInfo TriggerDescriptorCollection).
Abbreviation add_trigger :=
  (add_trigger TriggerDescriptorCollection new_TriggerDescriptorCollection Add).
Abbreviation add_triggers :=
  (add_triggers TriggerDescriptorCollection new_TriggerDescriptorCollection Add).
Abbreviation new_SummaryInfo :=
  (new_SummaryInfo TriggerDescriptorCollection new_TriggerDescriptorCollection
     Add new_JECUncertaintiesWrapper).
Abbreviation GetTriggerDescriptors :=
  (GetTriggerDescriptors TriggerDescriptorCollection).
Abbreviation GetJecUncertainties :=
  (GetJecUncertainties TriggerDescriptorCollection).
Abbreviation add_all := (add_all TriggerDescriptorCollection Add).

Lemma add_all_app (d : TriggerDescriptorCollection) (l1 l2 : list string) :
  add_all d (l1 ++ l2) = rbind (add_all d l1) (fun d' => add_all d' l2).
Proof.
  revert d. induction l1 as [| p l1 IH]; intros d; simpl; [reflexivity |].
  destruct (Add d p) as [e | d']; simpl; [reflexivity | apply IH].
Qed.

Lemma add_trigger_inv (s : ProdSummary)
    (td td' : gmap Z TriggerDescriptorCollection) (n : nat) :
  add_trigger s td (N.of_nat n) = inr td' ->
  exists channel pattern d',
    triggers_channel s !! n = Some channel /\
    triggers_pattern s !! n = Some pattern /\
    Add (default new_TriggerDescriptorCollection (td !! channel)) pattern
    = inr d' /\
    td' = <[channel := d']> td.
Proof.
  unfold Summary.add_trigger, at_. rewrite Nat2N.id.
  destruct (triggers_channel s !! n) as [channel |]; [| discriminate].
  destruct (triggers_pattern s !! n) as [pattern |]; [| discriminate].
  unfold mbind, result_bind, rbind, mret, result_ret.
  intros H. exists channel, pattern.
  destruct (td !! channel) as [d |] eqn:Hd.
  - rewrite Hd in H.
    destruct (Add d pattern) as [e | d'] eqn:Ha; [discriminate |].
    injection H as <-. by exists d'.
  - rewrite lookup_insert_eq in H.
    destruct (Add new_TriggerDescriptorCollection pattern) as [e | d'] eqn:Ha;
      [discriminate |].
    injection H as <-. exists d'.
    repeat split; try done. by rewrite insert_insert_eq.
Qed.

Lemma add_triggers_grouped (s : ProdSummary) (ns : list nat)
    (td td' : gmap Z TriggerDescriptorCollection) :
  add_triggers s ns td = inr td' ->
  exists cps,
    Forall2 (fun n cp => triggers_channel s !! n = Some cp.1
                         /\ triggers_pattern s !! n = Some cp.2) ns cps /\
    forall channel,
      match td' !! channel with
      | Some d' =>
          (is_Some (td !! channel) \/ channel ∈ cps.*1) /\
          add_all (default new_TriggerDescriptorCollection (td !! channel))
            (patterns_of channel cps) = inr d'
      | None => td !! channel = None /\ channel ∉ cps.*1
      end.
Proof.
  revert td. induction ns as [| n ns IH]; intros td; simpl.
  - intros [= <-]. exists []. split; [constructor |].
    intros channel. destruct (td !! channel) eqn:Hd; simpl.
    + split; [left; by eexists | reflexivity].
    + split; [reflexivity | apply not_elem_of_nil].
  - destruct (add_trigger s td (N.of_nat n)) as [e | td1] eqn:H1;
      [discriminate |].
    simpl. intros H.
    apply add_trigger_inv in H1
      as (channel & pattern & d1 & Hc & Hp & Ha & ->).
    destruct (IH _ H) as (cps & Hcps & Hg).
    exists ((channel, pattern) :: cps). split; [by constructor |].
    intros c. specialize (Hg c).
    destruct (td' !! c) as [d' |].
    + destruct Hg as [Hin Hadd]. split.
      * destruct (decide (c = channel)) as [-> | Hne].
        { right. simpl. left. }
        rewrite lookup_insert_ne in Hin by done.
        destruct Hin as [Hin | Hin]; [by left | right; simpl; by right].
      * unfold patterns_of in *. simpl.
        destruct (decide (c = channel)) as [-> | Hne].
        { rewrite bool_decide_eq_true_2 by done. simpl.
          rewrite lookup_insert_eq in Hadd. simpl in Hadd.
          by rewrite Ha. }
        rewrite bool_decide_eq_false_2 by done.
        by rewrite lookup_insert_ne in Hadd by done.
    + destruct Hg as [Hnone Hnin].
      destruct (decide (c = channel)) as [-> | Hne].
      { by rewrite lookup_insert_eq in Hnone. }
      rewrite lookup_insert_ne in Hnone by done.
      split; [exact Hnone |]. simpl. rewrite not_elem_of_cons. by split.
Qed.

Lemma Forall2_seq_zip (s : ProdSummary) (cps : list (Z * string)) :
  Forall2 (fun n cp => triggers_channel s !! n = Some cp.1
                       /\ triggers_pattern s !! n = Some cp.2)
    (seq 0 (length (triggers_channel s))) cps ->
  cps.*1 = triggers_channel s /\
  cps = zip (triggers_channel s) (triggers_pattern s).
Proof.
  intros H.
  assert (length cps = length (triggers_channel s)) as Hlen.
  { apply Forall2_length in H. by rewrite length_seq in H. }
  assert (forall i cp, cps !! i = Some cp ->
            triggers_channel s !! i = Some cp.1
            /\ triggers_pattern s !! i = Some cp.2) as Hi.
  { intros i cp Hcp.
    destruct (Forall2_lookup_r _ _ _ _ _ H Hcp) as (n & Hn & Hc).
    apply lookup_seq in Hn as [-> _]. exact Hc. }
  split.
  - apply list_eq. intros i. rewrite list_lookup_fmap.
    destruct (cps !! i) as [cp |] eqn:Hcp; simpl.
    + by destruct (Hi i cp Hcp) as [-> _].
    + symmetry. apply lookup_ge_None. apply lookup_ge_None in Hcp. lia.
  - apply list_eq. intros i.
    destruct (cps !! i) as [cp |] eqn:Hcp.
    + destruct (Hi i cp Hcp) as [Hc Hp]. symmetry.
      apply lookup_zip_with_Some. exists cp.1, cp.2.
      split; [by destruct cp | by split].
    + symmetry. apply lookup_ge_None. apply lookup_ge_None in Hcp.
      rewrite length_zip. lia.
Qed.

(** X30: A summary the constructor returns has trigger descriptors exactly for
    the channels listed in the production summary, and the collection of a
    channel is what [Add] makes of the patterns listed for the channel, in
    their order, starting from a new collection.  Its jet-energy corrector is
    stored exactly when the name of the uncertainty source is not empty. *)
Theorem new_SummaryInfo_spec (_summary : ProdSummary)
    (_uncertainties_source : string) (this : SummaryInfo) :
  new_SummaryInfo _summary _uncertainties_source = inr this ->
  (forall channel,
     channel ∉ triggers_channel _summary ->
     GetTriggerDescriptors this channel
     = inl (exception_channel "Information for channel %1% not found." channel)) /\
  (forall channel,
     channel ∈ triggers_channel _summary ->
     exists d,
       GetTriggerDescriptors this channel = inr d /\
       add_all new_TriggerDescriptorCollection
         (channel_patterns _summary channel) = inr d) /\
  (_uncertainties_source = EmptyString ->
   GetJecUncertainties this
   = inl (analysis_exception "Jec Uncertainties not stored.")) /\
  (_uncertainties_source <> EmptyString ->
   exists jec,
     new_JECUncertaintiesWrapper _uncertainties_source = inr jec /\
     GetJecUncertainties this = inr jec).
Proof.
  unfold Summary.new_SummaryInfo.
  destruct (add_triggers _summary _ ∅) as [e | td] eqn:Htd; [discriminate |].
  simpl.
  destruct (add_triggers_grouped _ _ _ _ Htd) as (cps & Hcps & Hg).
  destruct (Forall2_seq_zip _ _ Hcps) as [Hfst Hzip].
  intros H.
  assert (triggerDescriptors _ this = td /\
          jecUncertainties _ this
          = (if bool_decide (_uncertainties_source = EmptyString) then None
             else match new_JECUncertaintiesWrapper _uncertainties_source with
                  | inr jec => Some jec
                  | inl _ => None
                  end) /\
          (_uncertainties_source <> EmptyString ->
           exists jec,
             new_JECUncertaintiesWrapper _uncertainties_source = inr jec))
    as (Ht & Hj & Hjec).
  { case_bool_decide as Hsrc; simpl in H.
    - injection H as <-. by repeat split.
    - destruct (new_JECUncertaintiesWrapper _uncertainties_source)
        as [e | jec]; [discriminate |].
      simpl in H. injection H as <-.
      repeat split. intros _. by exists jec. }
  unfold Summary.GetTriggerDescriptors, Summary.GetJecUncertainties.
  rewrite Ht, Hj. split; [| split; [| split]].
  - intros channel Hn. specialize (Hg channel).
    destruct (td !! channel) as [d |]; [| reflexivity].
    destruct Hg as [[[? Hs] | Hin] _].
    + by rewrite lookup_empty in Hs.
    + rewrite Hfst in Hin. by destruct Hn.
  - intros channel Hin. specialize (Hg channel).
    destruct (td !! channel) as [d |].
    + destruct Hg as [_ Hadd]. exists d. split; [reflexivity |].
      rewrite lookup_empty in Hadd. simpl in Hadd.
      unfold Summary.channel_patterns. by rewrite <- Hzip.
    + destruct Hg as [_ Hnin]. rewrite Hfst in Hnin. by destruct Hnin.
  - intros ->. reflexivity.
  - intros Hsrc. destruct (Hjec Hsrc) as [jec Hjec'].
    exists jec. split; [exact Hjec' |].
    rewrite bool_decide_eq_false_2 by exact Hsrc. by rewrite Hjec'.
Qed.

(** The constructor reads the pattern of every listed channel: a summary
    with fewer patterns than channels makes it throw, [std::out_of_range]
    unless adding one of the patterns before threw first. *)
Lemma new_SummaryInfo_short_patterns (_summary : ProdSummary)
    (_uncertainties_source : string) :
  (length (triggers_pattern _summary)
   < length (triggers_channel _summary))%nat ->
  exists e, new_SummaryInfo _summary _uncertainties_source = inl e.
Proof.
  intros Hlen. unfold Summary.new_SummaryInfo.
  destruct (add_triggers _summary _ ∅) as [e | td] eqn:Htd;
    [by exists e |].
  exfalso.
  destruct (add_triggers_grouped _ _ _ _ Htd) as (cps & Hcps & _).
  set (k := length (triggers_pattern _summary)) in *.
  assert (seq 0 (length (triggers_channel _summary)) !! k = Some k) as Hk
    by (by apply lookup_seq_lt).
  destruct (Forall2_lookup_l _ _ _ _ _ Hcps Hk) as (cp & _ & _ & Hp).
  apply lookup_lt_Some in Hp. subst k. lia.
Qed.

End Summary.

End SummaryFacts.

(** * The theorems on concrete records *)

Section Examples.
#[local] Existing Instance toy_kinematics.
#[local] Existing Instance toy_jet_tools.
#[local] Existing Instance toy_collaborators.

Lemma wf_event_one_jet : wf_event event_one_jet.
Proof. split; [simpl; lia | by vm_compute]. Defined.

Lemma wf_event_one_b : wf_event event_one_b.
Proof. split; [simpl; lia | by vm_compute]. Defined.

Lemma wf_event_fallback : wf_event event_fallback.
Proof. split; [simpl; lia | by vm_compute]. Defined.

Lemma wf_event_three_jets : wf_event event_three_jets.
Proof. split; [simpl; lia | by vm_compute]. Defined.

Lemma wf_event_vbf : wf_event event_vbf.
Proof. split; [simpl; lia | by vm_compute]. Defined.

(** The constructor returns on each of the records. *)
Lemma construct_returns :
  construct event_one_jet = inr (instance_of event_one_jet) /\
  construct event_three_jets = inr (instance_of event_three_jets) /\
  construct event_vbf = inr (instance_of event_vbf).
Proof. repeat split; reflexivity. Qed.

(** C3, as stated, fails on the record with one jet: the returned b-jet
    pair holds the valid index 0 next to the undefined index, so it is
    neither fully defined nor fully undefined. *)
Lemma SelectSignalJets_partial_pair :
  wf_event event_one_jet /\
  exists sel,
    SelectSignalJets event_one_jet tt tt = inr sel /\
    ~ (pair_defined (selectedBjetPair sel) (size (jets_p4 event_one_jet)) \/
       pair_undefined (selectedBjetPair sel) (size (jets_p4 event_one_jet))).
Proof.
  split; [exact wf_event_one_jet |].
  exists (mkSelected (0, size_t_max) UndefinedJetPair 1).
  split; [reflexivity |].
  unfold pair_defined, pair_undefined.
  change (size (jets_p4 event_one_jet)) with 1.
  cbn [selectedBjetPair fst snd]. unfold size_t_max. lia.
Qed.

Lemma SelectSignalJets_pair_shapes_witness :
  wf_event event_one_jet /\
  exists sel,
    SelectSignalJets event_one_jet tt tt = inr sel /\
    (pair_defined (selectedVBFjetPair sel) (size (jets_p4 event_one_jet)) \/
     pair_undefined (selectedVBFjetPair sel) (size (jets_p4 event_one_jet))) /\
    (pair_defined (selectedBjetPair sel) (size (jets_p4 event_one_jet)) \/
     pair_undefined (selectedBjetPair sel) (size (jets_p4 event_one_jet)) \/
     (n_passing event_one_jet tt tt = 1%nat /\
      (selectedBjetPair sel).1 < size (jets_p4 event_one_jet) /\
      (selectedBjetPair sel).2 = size_t_max /\
      ~ (selectedBjetPair sel).2 < size (jets_p4 event_one_jet))).
Proof.
  split; [exact wf_event_one_jet |].
  exact (SelectSignalJets_pair_shapes (JT := toy_jet_tools) event_one_jet tt tt wf_event_one_jet).
Defined.

Lemma SelectSignalJets_pairs_disjoint_witness :
  wf_event event_vbf /\
  exists sel,
    SelectSignalJets event_vbf tt tt = inr sel /\
    HasBjetPair sel (size (jets_p4 event_vbf)) = true /\
    HasVBFPair sel (size (jets_p4 event_vbf)) = true /\
    (selectedBjetPair sel).1 <> (selectedVBFjetPair sel).1 /\
    (selectedBjetPair sel).1 <> (selectedVBFjetPair sel).2 /\
    (selectedBjetPair sel).2 <> (selectedVBFjetPair sel).1 /\
    (selectedBjetPair sel).2 <> (selectedVBFjetPair sel).2.
Proof.
  split; [exact wf_event_vbf |].
  destruct (SelectSignalJets_pairs_disjoint (JT := toy_jet_tools) event_vbf tt tt wf_event_vbf)
    as (sel & Hsel & Hdisjoint).
  exists sel. split; [exact Hsel |].
  assert (inr sel = inr (mkSelected (0, 1) (2, 3) 2)) as [= ->]
    by (rewrite <- Hsel; reflexivity).
  split; [reflexivity |]. split; [reflexivity |].
  apply Hdisjoint; reflexivity.
Defined.

Lemma SelectSignalJets_fallback_coverage_witness :
  (wf_event event_one_b /\ n_passing event_one_b tt tt = 1%nat /\
   exists sel,
     SelectSignalJets event_one_b tt tt = inr sel /\
     (selectedBjetPair sel).2 = size_t_max /\
     ~ (selectedBjetPair sel).2 < size (jets_p4 event_one_b) /\
     selectedVBFjetPair sel = UndefinedJetPair /\
     HasVBFPair sel (size (jets_p4 event_one_b)) = false) /\
  (wf_event event_fallback /\ (2 <= n_passing event_fallback tt tt)%nat /\
   exists j0 j1 r sel,
     bjets_ranking event_fallback tt tt = inr (j0 :: j1 :: r) /\
     SelectSignalJets event_fallback tt tt = inr sel /\
     Pass tt tt event_fallback (index j1) = false /\
     (selectedBjetPair
        (select_bjets event_fallback tt tt (j0 :: j1 :: r)
           SelectedSignalJets_default)).2 = size_t_max /\
     (selectedBjetPair sel).2 < size (jets_p4 event_fallback) /\
     HasBjetPair sel (size (jets_p4 event_fallback)) = true).
Proof.
  split.
  - split; [exact wf_event_one_b |]. split; [reflexivity |].
    apply (SelectSignalJets_fallback_coverage (JT := toy_jet_tools) event_one_b tt tt wf_event_one_b).
    reflexivity.
  - assert (2 <= n_passing event_fallback tt tt)%nat as Htwo
      by (apply Nat.leb_le; reflexivity).
    split; [exact wf_event_fallback |]. split; [exact Htwo |].
    destruct (proj2 (SelectSignalJets_fallback_coverage (JT := toy_jet_tools)
                       event_fallback tt tt wf_event_fallback) Htwo)
      as (j0 & j1 & r & sel & Hrank & Hsel & Hfallback).
    exists j0, j1, r, sel.
    split; [exact Hrank |]. split; [exact Hsel |].
    assert (Pass tt tt event_fallback (index j1) = false) as Hfail.
    { assert (inr (j0 :: j1 :: r)
              = inr [mkJetInfo central_b.1.1 0 (9 # 10);
                     mkJetInfo central_light.1.1 1 (1 # 5)]) as [= -> -> ->]
        by (rewrite <- Hrank; reflexivity).
      reflexivity. }
    split; [exact Hfail |]. apply Hfallback. exact Hfail.
Defined.

Lemma SelectSignalJets_vbf_maximal_witness :
  wf_event event_vbf /\
  exists Lb Lv sel n h a b,
    bjets_ranking event_vbf tt tt = inr Lb /\
    vbf_ranking event_vbf tt tt
      (select_bjets event_vbf tt tt Lb SelectedSignalJets_default) = inr Lv /\
    SelectSignalJets event_vbf tt tt = inr sel /\
    HasVBFPair sel (size (jets_p4 event_vbf)) = true /\
    (n < h)%nat /\ Lv !! n = Some a /\ Lv !! h = Some b /\
    selectedVBFjetPair sel = (index a, index b) /\
    (forall n' h' a' b', (n' < h')%nat ->
       Lv !! n' = Some a' -> Lv !! h' = Some b' -> (mjj a' b' <= mjj a b)%Q) /\
    (forall n' h' a' b', (n' < h')%nat -> visited_before (n', h') (n, h) ->
       Lv !! n' = Some a' -> Lv !! h' = Some b' -> (mjj a' b' < mjj a b)%Q).
Proof.
  split; [exact wf_event_vbf |].
  destruct (SelectSignalJets_vbf_maximal (JT := toy_jet_tools) event_vbf tt tt wf_event_vbf)
    as (Lb & Lv & sel & HLb & HLv & Hsel & _ & Hmax).
  assert (HasVBFPair sel (size (jets_p4 event_vbf)) = true) as Hvbf.
  { assert (inr sel = inr (mkSelected (0, 1) (2, 3) 2)) as [= ->]
      by (rewrite <- Hsel; reflexivity).
    reflexivity. }
  destruct (Hmax Hvbf) as (n & h & a & b & H).
  exists Lb, Lv, sel, n, h, a, b.
  split; [exact HLb |]. split; [exact HLv |]. split; [exact Hsel |].
  split; [exact Hvbf | exact H].
Defined.

Lemma SelectSignalJets_three_jets_witness :
  wf_event event_three_jets /\
  length (jets_p4 event_three_jets) = 3%nat /\
  passes_bjet_cuts event_three_jets tt tt 0 = true /\
  passes_bjet_cuts event_three_jets tt tt 1 = true /\
  (BTag tt tt event_three_jets 1 < BTag tt tt event_three_jets 0)%Q /\
  Pass tt tt event_three_jets 1 = true /\
  (forall p2, jets_p4 event_three_jets !! 2%nat = Some p2 ->
              Qltb (PtCut tt tt) (Pt p2) = false) /\
  exists Lv sel,
    SelectSignalJets event_three_jets tt tt = inr sel /\
    selectedBjetPair sel = (0, 1) /\
    n_bjets sel = 2 /\
    vbf_ranking event_three_jets tt tt
      (set_bjet_second
         (set_bjet_first (set_n_bjets SelectedSignalJets_default 2) 0) 1)
    = inr Lv /\
    (length Lv < 2)%nat /\
    selectedVBFjetPair sel = UndefinedJetPair /\
    HasVBFPair sel (size (jets_p4 event_three_jets)) = false.
Proof.
  assert (forall p2, jets_p4 event_three_jets !! 2%nat = Some p2 ->
                     Qltb (PtCut tt tt) (Pt p2) = false) as Hsoft
    by (intros p2 [= <-]; reflexivity).
  assert (BTag tt tt event_three_jets 1 < BTag tt tt event_three_jets 0)%Q
    as Htag by reflexivity.
  split; [exact wf_event_three_jets |].
  do 3 (split; [reflexivity |]). split; [exact Htag |].
  split; [reflexivity |]. split; [exact Hsoft |].
  exact (SelectSignalJets_three_jets (JT := toy_jet_tools) event_three_jets tt tt
           wf_event_three_jets eq_refl eq_refl eq_refl Htag eq_refl Hsoft).
Defined.

(** C4, as stated, fails: GetBJet(3) on an instance with a b-jet pair and
    GetBJet(1) on an instance without one throw the same exception, so the
    invalid index is not told apart from the missing pair. *)
Lemma GetBJet_errors_coincide :
  HasBjetPair (selected_signal_jets (instance_of event_vbf))
    (instance_njets (instance_of event_vbf)) = true /\
  HasBjetPair (selected_signal_jets (instance_of event_one_jet))
    (instance_njets (instance_of event_one_jet)) = false /\
  ~ (GetBJet 3 (instance_of event_vbf)).1
    <> (GetBJet 1 (instance_of event_one_jet)).1.
Proof.
  split; [reflexivity |]. split; [reflexivity |].
  intros H. apply H. reflexivity.
Qed.

Lemma accessor_errors_witness :
  HasBjetPair (selected_signal_jets (instance_of event_one_jet))
    (instance_njets (instance_of event_one_jet)) = false /\
  (3 : N) <> 1 /\ (3 : N) <> 2 /\
  GetHiggsBB (instance_of event_one_jet)
  = (inl (analysis_exception "Can't create H->bb candidate."),
     instance_of event_one_jet) /\
  GetBJet 3 (instance_of event_vbf)
  = (inl (analysis_exception "B jet not found."), instance_of event_vbf) /\
  GetBJet 1 (instance_of event_one_jet)
  = (inl (analysis_exception "B jet not found."), instance_of event_one_jet) /\
  GetResonanceMomentum true true (instance_of event_vbf)
  = (inl (analysis_exception "Can't add MET and with SVfit applied."),
     instance_of event_vbf) /\
  analysis_exception "Can't create H->bb candidate."
  <> analysis_exception "B jet not found." /\
  analysis_exception "B jet not found."
  <> analysis_exception "Can't add MET and with SVfit applied." /\
  analysis_exception "Can't create H->bb candidate."
  <> analysis_exception "Can't add MET and with SVfit applied.".
Proof.
  assert ((3 : N) <> 1) as H1 by lia.
  assert ((3 : N) <> 2) as H2 by lia.
  split; [reflexivity |]. split; [exact H1 |]. split; [exact H2 |].
  exact (accessor_errors (instance_of event_vbf) (instance_of event_one_jet)
           3 1 eq_refl H1 H2).
Defined.

Lemma GetKinFitResults_spec_witness :
  (HasBjetPair (selected_signal_jets (instance_of event_one_jet))
     (instance_njets (instance_of event_one_jet)) = false /\
   GetKinFitResults (instance_of event_one_jet)
   = (inl (analysis_exception "Can't retrieve KinFit results."),
      instance_of event_one_jet)) /\
  (HasBjetPair (selected_signal_jets (instance_of event_vbf))
     (instance_njets (instance_of event_vbf)) = true /\
   kinfit_results (instance_of event_vbf) = None /\
   kinFit_jetPairId event_vbf !! 1%nat
   = Some (CombinationPairToIndex (0, 1) 5) /\
   GetKinFitResults (instance_of event_vbf)
   = (inr (mkFitResults 1 3 (TMath_Prob 3 2) 350),
      set_kinfit_results (instance_of event_vbf)
        (Some (mkFitResults 1 3 (TMath_Prob 3 2) 350)))) /\
  (HasBjetPair (selected_signal_jets (instance_of event_three_jets))
     (instance_njets (instance_of event_three_jets)) = true /\
   kinfit_results (instance_of event_three_jets) = None /\
   ((CombinationPairToIndex (0, 1) 3) ∉ kinFit_jetPairId event_three_jets) /\
   let fit := fit_three_jets in
   exists this',
     GetKinFitResults (instance_of event_three_jets) = (inr fit, this') /\
     kinfit_results this' = Some fit /\
     immutables this' = immutables (instance_of event_three_jets)).
Proof.
  split; [| split].
  - split; [reflexivity |].
    apply (GetKinFitResults_spec (instance_of event_one_jet)). reflexivity.
  - split; [reflexivity |]. split; [reflexivity |]. split; [reflexivity |].
    apply (proj2 (GetKinFitResults_spec (instance_of event_vbf))
             eq_refl eq_refl) with (index := 1%nat); try reflexivity.
    intros [| j] Hj; [discriminate | lia].
  - assert (CombinationPairToIndex (0, 1) 3
            ∉ kinFit_jetPairId event_three_jets) as Hmiss
      by apply not_elem_of_nil.
    split; [reflexivity |]. split; [reflexivity |]. split; [exact Hmiss |].
    exact (proj2 (proj2 (GetKinFitResults_spec (instance_of event_three_jets))
                    eq_refl eq_refl)
             Hmiss _ _ _ _ _ eq_refl eq_refl eq_refl eq_refl eq_refl).
Defined.



(** An instance whose cache holds jets and the Higgs-bb composite. *)
Lemma ApplyShift_fresh_cache_witness :
  let source := (GetHiggsBB (instance_of event_vbf)).2 in
  let r := JEC_ApplyShift (1 # 20)%Q (record_jets event_vbf) tt 1%Z
             (other_jets_p4 event_vbf) (met_momentum (record_met event_vbf)) in
  is_Some (higgs_bb source) /\
  summaryInfo source = Some toy_summary /\
  jecUncertainties toy_summary = Some (1 # 20)%Q /\
  exists shifted,
    ApplyShift tt 1%Z source = (inr shifted, source) /\
    jets shifted = Some r.1 /\
    met shifted
    = Some (mkMET (mkTupleMet PF) r.2
              (met_covariance (record_met event_vbf))) /\
    leg1 shifted = None /\ leg2 shifted = None /\
    fatJets shifted = None /\ higgs_bb shifted = None /\
    kinfit_results shifted = None /\ mt2 shifted = None /\
    event shifted = event source /\
    selected_signal_jets shifted = selected_signal_jets source /\
    period shifted = period source /\
    jet_ordering shifted = jet_ordering source /\
    selected_htt_index shifted = selected_htt_index source /\
    summaryInfo shifted = summaryInfo source /\
    (forall this2,
       immutables this2 = immutables source ->
       (ApplyShift tt 1%Z this2).1 = inr shifted).
Proof.
  intros source r.
  split; [by eexists |]. split; [reflexivity |]. split; [reflexivity |].
  exact (ApplyShift_fresh_cache source tt 1%Z toy_summary (1 # 20)%Q
           eq_refl eq_refl).
Defined.

(** A store that holds the jets, the Higgs-bb composite and the
    missing-energy candidate of the source. *)
Lemma ApplyShift_isolation_witness :
  let s0 := (shared_instance_of event_vbf, ∅) in
  let s := (Shared.GetMET (Shared.GetHiggsBB s0).2).2 in
  let source := s.1 in
  let μ := Shared.mkMemory {[ 1%positive := source ]} s.2 in
  (1 <> 2)%positive /\
  Shared.instances μ !! 1%positive = Some source /\
  is_Some (Shared.cached (Shared.objects μ) source Shared.jets) /\
  is_Some (Shared.cached (Shared.objects μ) source Shared.higgs_bb) /\
  is_Some (Shared.cached (Shared.objects μ) source Shared.met) /\
  exists r μ1,
    Shared.assign_ApplyShift 2 1 tt 1%Z μ = Some (r, μ1) /\
    Shared.instances μ1 !! 1%positive = Some source /\
    Shared.objects μ ⊆ Shared.objects μ1 /\
    (r = inr tt ->
     forall cs, exists μ2,
       Shared.run_calls 2 cs μ1 = Some μ2 /\
       Shared.instances μ2 !! 1%positive = Some source /\
       Shared.objects μ ⊆ Shared.objects μ2 /\
       forall m o,
         Shared.cached (Shared.objects μ) source m = Some o ->
         Shared.cached (Shared.objects μ2) source m = Some o).
Proof.
  intros s0 s source μ.
  assert ((1 <> 2)%positive) as Hne by discriminate.
  assert (Shared.instances μ !! 1%positive = Some source) as Hsrc
    by apply lookup_singleton_eq.
  split; [exact Hne |]. split; [exact Hsrc |].
  split; [vm_compute; eexists; reflexivity |].
  split; [vm_compute; eexists; reflexivity |].
  split; [vm_compute; eexists; reflexivity |].
  exact (SharedFacts.ApplyShift_isolation (Col := toy_collaborators)
           μ 1 2 source tt 1%Z Hne Hsrc).
Defined.

(** Two instances whose members point to the same jets, Higgs-bb composite
    and missing-energy candidate; the kinematic fit is asked of the
    second. *)
Lemma member_functions_write_new_objects_witness :
  let s0 := (shared_instance_of event_vbf, ∅) in
  let s := (Shared.GetMET (Shared.GetHiggsBB s0).2).2 in
  let μ := Shared.mkMemory {[ 1%positive := s.1; 2%positive := s.1 ]} s.2 in
  (forall new_met_p4,
     Shared.call_GetKinFitResults <> Shared.call_SetMetMomentum new_met_p4) /\
  is_Some (Shared.cached (Shared.objects μ) s.1 Shared.jets) /\
  exists r μ',
    Shared.call 2 (Shared.invoke Shared.call_GetKinFitResults) μ
    = Some (r, μ') /\
    Shared.objects μ ⊆ Shared.objects μ' /\
    forall other e,
      other <> 2%positive -> Shared.instances μ !! other = Some e ->
      Shared.instances μ' !! other = Some e /\
      forall m o,
        Shared.cached (Shared.objects μ) e m = Some o ->
        Shared.cached (Shared.objects μ') e m = Some o.
Proof.
  intros s0 s μ.
  assert (forall new_met_p4,
            Shared.call_GetKinFitResults
            <> Shared.call_SetMetMomentum new_met_p4) as Hc by discriminate.
  split; [exact Hc |].
  split; [vm_compute; eexists; reflexivity |].
  eexists _, _.
  assert (Shared.call 2 (Shared.invoke Shared.call_GetKinFitResults) μ
          = Some ((Shared.invoke Shared.call_GetKinFitResults (s.1, s.2)).1,
                  Shared.mkMemory
                    (<[2%positive :=
                         (Shared.invoke Shared.call_GetKinFitResults
                            (s.1, s.2)).2.1]> (Shared.instances μ))
                    (Shared.invoke Shared.call_GetKinFitResults
                       (s.1, s.2)).2.2)) as Hcall.
  { unfold Shared.call. subst μ. cbn [Shared.instances Shared.objects].
    rewrite lookup_insert_ne by discriminate.
    by rewrite lookup_singleton_eq. }
  split; [exact Hcall |].
  exact (SharedFacts.member_functions_write_new_objects
           (Col := toy_collaborators) μ _ 2 Shared.call_GetKinFitResults _
           Hc Hcall).
Defined.

(** ** Further theorems on concrete records *)

Lemma wf_event_no_b : wf_event event_no_b.
Proof. split; [simpl; lia | by vm_compute]. Defined.

Lemma SelectSignalJets_n_bjets_witness :
  wf_event event_vbf /\
  exists sel,
    SelectSignalJets event_vbf tt tt = inr sel /\
    n_bjets sel = N.of_nat (n_passing event_vbf tt tt).
Proof.
  split; [exact wf_event_vbf |].
  exact (SelectSignalJets_n_bjets (JT := toy_jet_tools) event_vbf tt tt
           wf_event_vbf).
Defined.

Lemma SelectSignalJets_vbf_needs_bjets_witness :
  wf_event event_vbf /\
  exists sel,
    SelectSignalJets event_vbf tt tt = inr sel /\
    (HasVBFPair sel (size (jets_p4 event_vbf)) = true ->
     HasBjetPair sel (size (jets_p4 event_vbf)) = true).
Proof.
  split; [exact wf_event_vbf |].
  exact (SelectSignalJets_vbf_needs_bjets (JT := toy_jet_tools) event_vbf tt tt
           wf_event_vbf).
Defined.

Lemma SelectSignalJets_bjets_pass_cuts_witness :
  wf_event event_fallback /\
  exists sel,
    SelectSignalJets event_fallback tt tt = inr sel /\
    forall i, isSelectedBjet sel i = true -> i < size (jets_p4 event_fallback) ->
      exists n, i = N.of_nat n /\ passes_bjet_cuts event_fallback tt tt n = true.
Proof.
  split; [exact wf_event_fallback |].
  exact (SelectSignalJets_bjets_pass_cuts (JT := toy_jet_tools) event_fallback
           tt tt wf_event_fallback).
Defined.

Lemma SelectSignalJets_first_bjet_top_tag_witness :
  wf_event event_vbf /\ (1 <= n_passing event_vbf tt tt)%nat /\
  exists sel n0,
    SelectSignalJets event_vbf tt tt = inr sel /\
    (selectedBjetPair sel).1 = N.of_nat n0 /\
    passes_bjet_cuts event_vbf tt tt n0 = true /\
    forall n, passes_bjet_cuts event_vbf tt tt n = true ->
      (BTag tt tt event_vbf (N.of_nat n)
       <= BTag tt tt event_vbf (N.of_nat n0))%Q.
Proof.
  assert (1 <= n_passing event_vbf tt tt)%nat as Hn
    by (apply Nat.leb_le; reflexivity).
  split; [exact wf_event_vbf |]. split; [exact Hn |].
  exact (SelectSignalJets_first_bjet_top_tag (JT := toy_jet_tools) event_vbf
           tt tt wf_event_vbf Hn).
Defined.

Lemma SelectSignalJets_no_passing_jet_witness :
  wf_event event_no_b /\ n_passing event_no_b tt tt = 0%nat /\
  SelectSignalJets event_no_b tt tt = inr SelectedSignalJets_default.
Proof.
  split; [exact wf_event_no_b |]. split; [reflexivity |].
  exact (SelectSignalJets_no_passing_jet (JT := toy_jet_tools) event_no_b
           tt tt wf_event_no_b eq_refl).
Defined.

Lemma SelectSignalJets_medium_pair_witness :
  let j0 := mkJetInfo (mkP4 50 (1 # 2) 60 5) 0 (toy_BTag event_vbf 0) in
  let j1 := mkJetInfo (mkP4 40 (- 1) 65 4) 1 (toy_BTag event_vbf 1) in
  let s := select_bjets event_vbf tt tt [j0; j1] SelectedSignalJets_default in
  wf_event event_vbf /\
  bjets_ranking event_vbf tt tt = inr [j0; j1] /\
  Pass tt tt event_vbf (index j1) = true /\
  exists Lv,
    vbf_ranking event_vbf tt tt s = inr Lv /\
    SelectSignalJets event_vbf tt tt = inr (select_vbf_pair Lv s) /\
    selectedBjetPair (select_vbf_pair Lv s) = (index j0, index j1) /\
    HasBjetPair (select_vbf_pair Lv s) (size (jets_p4 event_vbf)) = true.
Proof.
  intros j0 j1 s.
  assert (bjets_ranking event_vbf tt tt = inr [j0; j1]) as Hr by reflexivity.
  assert (Pass tt tt event_vbf (index j1) = true) as Hp by reflexivity.
  split; [exact wf_event_vbf |]. split; [exact Hr |]. split; [exact Hp |].
  exact (SelectSignalJets_medium_pair (JT := toy_jet_tools) event_vbf tt tt
           j0 j1 [] wf_event_vbf Hr Hp).
Defined.

Lemma SelectSignalJets_out_of_range_witness :
  (length (jets_pu_id event_ragged) < length (jets_p4 event_ragged))%nat /\
  size (jets_p4 event_ragged) <= size_t_max /\
  SelectSignalJets event_ragged tt tt = inl std_out_of_range.
Proof.
  assert (length (jets_pu_id event_ragged) < length (jets_p4 event_ragged))%nat
    as Hlen by (simpl; lia).
  assert (size (jets_p4 event_ragged) <= size_t_max) as Hmax by (by vm_compute).
  split; [exact Hlen |]. split; [exact Hmax |].
  exact (SelectSignalJets_out_of_range (JT := toy_jet_tools) event_ragged tt tt
           Hlen Hmax).
Defined.

Lemma GetKinFitResults_throw_past_allocation_witness :
  let this := instance_of event_short_fit in
  let this' := set_kinfit_results this (Some FitResults_default) in
  HasBjetPair (selected_signal_jets this) (instance_njets this) = true /\
  kinfit_results this = None /\
  find_index
    (CombinationPairToIndex (selectedBjetPair (selected_signal_jets this))
       (instance_njets this))
    (kinFit_jetPairId (event this)) = Some 1%nat /\
  kinFit_convergence (event this) !! 1%nat = None /\
  GetKinFitResults this = (inl std_out_of_range, this') /\
  GetKinFitResults this' = (inr FitResults_default, this').
Proof.
  intros this this'.
  assert (HasBjetPair (selected_signal_jets this) (instance_njets this) = true)
    as H1 by reflexivity.
  assert (kinfit_results this = None) as H2 by reflexivity.
  assert (find_index
            (CombinationPairToIndex
               (selectedBjetPair (selected_signal_jets this))
               (instance_njets this))
            (kinFit_jetPairId (event this)) = Some 1%nat) as H3
    by reflexivity.
  assert (kinFit_convergence (event this) !! 1%nat = None) as H4
    by reflexivity.
  split; [exact H1 |]. split; [exact H2 |]. split; [exact H3 |].
  split; [exact H4 |].
  exact (GetKinFitResults_throw_past_allocation (Col := toy_collaborators)
           this 1 H1 H2 H3 H4).
Defined.

Lemma GetJets_from_record_witness :
  let this := instance_of event_vbf in
  jets this = None /\
  exists (js : list JetCandidate) this',
    GetJets this = (inr js, this') /\
    jets this' = Some js /\
    length js = length (jets_p4 (event this)) /\
    (forall n, (n < length (jets_p4 (event this)))%nat ->
       js !! n
       = Some (new_JetCandidate (event this) (mkTupleJet (N.of_nat n)))) /\
    immutables this' = immutables this.
Proof.
  intros this. split; [reflexivity |].
  exact (GetJets_from_record (Col := toy_collaborators) this eq_refl).
Defined.

Lemma GetBJet_from_record_witness :
  let this := instance_of event_vbf in
  let sel := selected_signal_jets this in
  HasBjetPair sel (instance_njets this) = true /\ jets this = None /\
  (GetBJet 1 this).1
  = inr (new_JetCandidate (event this) (mkTupleJet (selectedBjetPair sel).1)) /\
  (GetBJet 2 this).1
  = inr (new_JetCandidate (event this) (mkTupleJet (selectedBjetPair sel).2)).
Proof.
  intros this sel. split; [reflexivity |]. split; [reflexivity |].
  exact (GetBJet_from_record (Col := toy_collaborators) this eq_refl eq_refl).
Defined.

Lemma GetBJet_after_SetJets_out_of_range_witness :
  let this := instance_of event_vbf in
  let sel := selected_signal_jets this in
  let this' := (SetJets [] this).2 in
  HasBjetPair sel (instance_njets this) = true /\
  size ([] : JetCollection) <= (selectedBjetPair sel).1 /\
  higgs_bb this = None /\
  GetBJet 1 this' = (inl std_out_of_range, this') /\
  GetHiggsBB this' = (inl std_out_of_range, this').
Proof.
  intros this sel this'.
  assert (size ([] : JetCollection) <= (selectedBjetPair sel).1) as Hs
    by (by vm_compute).
  split; [reflexivity |]. split; [exact Hs |]. split; [reflexivity |].
  exact (GetBJet_after_SetJets_out_of_range (Col := toy_collaborators) this []
           eq_refl Hs eq_refl).
Defined.

Lemma GetHiggsBB_daughters_witness :
  let this := instance_of event_vbf in
  let b1 := new_JetCandidate event_vbf (mkTupleJet 0) in
  let b2 := new_JetCandidate event_vbf (mkTupleJet 1) in
  higgs_bb this = None /\
  (GetBJet 1 this).1 = inr b1 /\ (GetBJet 2 this).1 = inr b2 /\
  exists this',
    GetHiggsBB this = (inr (mkHiggsBB b1 b2), this') /\
    higgs_bb this' = Some (mkHiggsBB b1 b2).
Proof.
  intros this b1 b2.
  assert ((GetBJet 1 this).1 = inr b1) as H1 by reflexivity.
  assert ((GetBJet 2 this).1 = inr b2) as H2 by reflexivity.
  split; [reflexivity |]. split; [exact H1 |]. split; [exact H2 |].
  exact (GetHiggsBB_daughters (Col := toy_collaborators) this b1 b2
           eq_refl H1 H2).
Defined.

Lemma GetResonanceMomentum_addMET_witness :
  let this := instance_of event_vbf in
  let p := p4_add (p4_add (p4_at (lep_p4 event_vbf) 0)
                     (p4_at (lep_p4 event_vbf) 1))
             (p4_add (p4_at (jets_p4 event_vbf) 0)
                (p4_at (jets_p4 event_vbf) 1)) in
  (GetResonanceMomentum false false this).1 = inr p /\
  exists m,
    (GetMET this).1 = inr m /\
    (GetResonanceMomentum false true this).1 = inr (p4_add p (met_momentum m)).
Proof.
  intros this p.
  assert ((GetResonanceMomentum false false this).1 = inr p) as H
    by reflexivity.
  split; [exact H |].
  exact (GetResonanceMomentum_addMET (Col := toy_collaborators) this p H).
Defined.

Lemma GetMT2_failure_stores_nothing_witness :
  let this := instance_of event_one_jet in
  let e := analysis_exception "Can't create H->bb candidate." in
  (GetMT2 this).1 = inl e /\ mt2 (GetMT2 this).2 = None.
Proof.
  intros this e.
  assert ((GetMT2 this).1 = inl e) as H by reflexivity.
  split; [exact H |].
  exact (GetMT2_failure_stores_nothing (Col := toy_collaborators) this e H).
Defined.

Lemma SelectJets_selects_witness :
  let this := instance_of event_vbf in
  let all_jets : list JetCandidate := record_jets event_vbf in
  (GetJets this).1 = inr all_jets /\
  (length all_jets <= length (jets_pu_id (event this)))%nat /\
  exists (ns : list nat) (js : list JetCandidate),
    (SelectJets unit tt toy_PassWP 20 5 true false tt {[ 0 ]} 0 this).1
    = inr js /\
    NoDup ns /\
    Forall2 (fun n jet => all_jets !! n = Some jet) ns js /\
    forall n, n ∈ ns <->
      exists jet pu,
        all_jets !! n = Some jet /\
        jets_pu_id (event this) !! n = Some pu /\
        PassEcalNoiceVetoJets (jet_momentum jet) (period this) pu = true /\
        (N.of_nat n ∉ ({[ 0 ]} : gset N)) /\
        (true = true -> (Z.land pu 2 =? 0)%Z = false) /\
        Qltb (Qabs (eta (jet_momentum jet))) 0 = false /\
        (false = true ->
         toy_PassWP (period this) tt (event this) (N.of_nat n) tt = true) /\
        Qltb 20 (Pt (jet_momentum jet)) = true /\
        Qltb (Qabs (eta (jet_momentum jet))) 5 = true.
Proof.
  intros this all_jets.
  assert ((GetJets this).1 = inr all_jets) as Hj by reflexivity.
  assert (length all_jets <= length (jets_pu_id (event this)))%nat as Hlen
    by (apply Nat.leb_le; reflexivity).
  split; [exact Hj |]. split; [exact Hlen |].
  exact (SelectJets_selects (Col := toy_collaborators) unit tt toy_PassWP this
           all_jets 20 5 true false tt {[ 0 ]} 0 Hj Hlen).
Defined.

Lemma SelectJets_out_of_range_witness :
  let this := (SetJets (record_jets event_vbf) (instance_of event_one_jet)).2 in
  let all_jets : list JetCandidate := record_jets event_vbf in
  (GetJets this).1 = inr all_jets /\
  (length (jets_pu_id (event this)) < length all_jets)%nat /\
  (SelectJets unit tt toy_PassWP 20 5 true false tt ∅ 0 this).1
  = inl std_out_of_range.
Proof.
  intros this all_jets.
  assert ((GetJets this).1 = inr all_jets) as Hj by reflexivity.
  assert (length (jets_pu_id (event this)) < length all_jets)%nat as Hlen
    by (apply Nat.ltb_lt; reflexivity).
  split; [exact Hj |]. split; [exact Hlen |].
  exact (SelectJets_out_of_range (Col := toy_collaborators) unit tt toy_PassWP
           this all_jets 20 5 true false tt ∅ 0 Hj Hlen).
Defined.

Lemma GetHT_zero_or_above_cut_witness :
  let this := instance_of event_vbf in
  let ht := (0 + 60 + 45 + 35)%Q in
  (GetHT unit tt toy_PassWP tt 0 false true this).1 = inr ht /\
  (ht = 0%Q \/ (20 < ht)%Q).
Proof.
  intros this ht.
  assert ((GetHT unit tt toy_PassWP tt 0 false true this).1 = inr ht) as H
    by reflexivity.
  split; [exact H |].
  exact (GetHT_zero_or_above_cut (Col := toy_collaborators) unit tt toy_PassWP
           tt 0 this false true ht H).
Defined.

Lemma GetHT_monotone_witness :
  let this := instance_of event_vbf in
  let ht_without := (0 + 60 + 45 + 35)%Q in
  let ht_with := (0 + 50 + 40 + 60 + 45 + 35)%Q in
  (GetHT unit tt toy_PassWP tt 0 false true this).1 = inr ht_without /\
  (GetHT unit tt toy_PassWP tt 0 true true this).1 = inr ht_with /\
  (ht_without <= ht_with)%Q.
Proof.
  intros this ht_without ht_with.
  assert ((GetHT unit tt toy_PassWP tt 0 false true this).1 = inr ht_without)
    as H1 by reflexivity.
  assert ((GetHT unit tt toy_PassWP tt 0 true true this).1 = inr ht_with)
    as H2 by reflexivity.
  split; [exact H1 |]. split; [exact H2 |].
  exact (GetHT_monotone (Col := toy_collaborators) unit tt toy_PassWP tt 0
           this true ht_without ht_with H1 H2).
Defined.

Lemma TupleStore_counts_users_witness :
  let cs := [TupleStore.Get; TupleStore.Get; TupleStore.Release;
             TupleStore.Release; TupleStore.Get] in
  let s := TupleStore.run unit tt cs (TupleStore.initial unit) in
  (Z.of_nat (length cs) <= TupleStore.int_max)%Z /\
  (0 <= TupleStore.tuple_counter unit s <= Z.of_nat (length cs))%Z /\
  (TupleStore.eventTuple_ptr unit s = None
   <-> TupleStore.tuple_counter unit s = 0%Z) /\
  exists k,
    TupleStore.effects unit s
    = TupleStore.cycles k
      ++ match TupleStore.eventTuple_ptr unit s with
         | Some _ => [TupleStore.CreateEventTuple]
         | None => []
         end.
Proof.
  intros cs s.
  assert (Z.of_nat (length cs) <= TupleStore.int_max)%Z as H
    by (by vm_compute).
  split; [exact H |].
  exact (TupleStoreFacts.TupleStore_counts_users unit tt cs H).
Defined.

Lemma Isolation_clamps_neutral_witness :
  (0 < BaseTupleProducer.lepton_pt toy_lepton)%Q /\
  (BaseTupleProducer.sumChargedHadronPt toy_lepton
   / BaseTupleProducer.lepton_pt toy_lepton
   <= BaseTupleProducer.Isolation toy_lepton)%Q /\
  ((BaseTupleProducer.sumNeutralHadronEt toy_lepton
    + BaseTupleProducer.sumPhotonEt toy_lepton
    <= 0.5 * BaseTupleProducer.sumPUPt toy_lepton)%Q ->
   (BaseTupleProducer.Isolation toy_lepton
    == BaseTupleProducer.sumChargedHadronPt toy_lepton
       / BaseTupleProducer.lepton_pt toy_lepton)%Q) /\
  ((0.5 * BaseTupleProducer.sumPUPt toy_lepton
    <= BaseTupleProducer.sumNeutralHadronEt toy_lepton
       + BaseTupleProducer.sumPhotonEt toy_lepton)%Q ->
   (BaseTupleProducer.Isolation toy_lepton
    == (BaseTupleProducer.sumChargedHadronPt toy_lepton
        + BaseTupleProducer.sumNeutralHadronEt toy_lepton
        + BaseTupleProducer.sumPhotonEt toy_lepton
        - 0.5 * BaseTupleProducer.sumPUPt toy_lepton)
       / BaseTupleProducer.lepton_pt toy_lepton)%Q).
Proof.
  assert (0 < BaseTupleProducer.lepton_pt toy_lepton)%Q as H by reflexivity.
  split; [exact H |].
  exact (BaseTupleProducerFacts.Isolation_clamps_neutral toy_lepton H).
Defined.

Lemma FillHiggsDaughtersIndexes_appends_witness :
  let higgses_pair_indexes : list (N * N) := [(0, 0); (1, 0)] in
  let columns : list N * list N := ([0], [2]) in
  let filled :=
    BaseTupleProducer.FillHiggsDaughtersIndexes higgses_pair_indexes 2
      columns in
  N.of_nat (length higgses_pair_indexes) < 2 ^ 32 /\
  length filled.1 = (length columns.1 + length higgses_pair_indexes)%nat /\
  length filled.2 = (length columns.2 + length higgses_pair_indexes)%nat /\
  forall n higgs_pair,
    higgses_pair_indexes !! n = Some higgs_pair ->
    filled.1 !! (length columns.1 + n)%nat = Some higgs_pair.1 /\
    filled.2 !! (length columns.2 + n)%nat
    = Some (BaseTupleProducer.size_t_add 2 higgs_pair.2).
Proof.
  intros higgses_pair_indexes columns filled.
  assert (N.of_nat (length higgses_pair_indexes) < 2 ^ 32) as H
    by (by vm_compute).
  split; [exact H |].
  exact (BaseTupleProducerFacts.FillHiggsDaughtersIndexes_appends
           higgses_pair_indexes 2 columns H).
Defined.

Lemma new_SummaryInfo_spec_witness :
  let this : Summary.SummaryInfo (list string) :=
    Summary.mkSummaryInfo (list string) toy_prod_summary
      (<[2%Z := ["HLT_b"%string]]>
         (<[1%Z := ["HLT_a"; "HLT_c"]%string]> ∅))
      (Some (1 # 20)%Q) in
  Summary.new_SummaryInfo (list string) [] toy_Add toy_new_JEC
    toy_prod_summary "Total" = inr this /\
  (forall channel,
     channel ∉ Summary.triggers_channel toy_prod_summary ->
     Summary.GetTriggerDescriptors (list string) this channel
     = inl (Summary.exception_channel
              "Information for channel %1% not found." channel)) /\
  (forall channel,
     channel ∈ Summary.triggers_channel toy_prod_summary ->
     exists d,
       Summary.GetTriggerDescriptors (list string) this channel = inr d /\
       Summary.add_all (list string) toy_Add []
         (Summary.channel_patterns toy_prod_summary channel) = inr d) /\
  ("Total"%string = EmptyString ->
   Summary.GetJecUncertainties (list string) this
   = inl (analysis_exception "Jec Uncertainties not stored.")) /\
  ("Total"%string <> EmptyString ->
   exists jec,
     toy_new_JEC "Total" = inr jec /\
     Summary.GetJecUncertainties (list string) this = inr jec).
Proof.
  intros this.
  assert (Summary.new_SummaryInfo (list string) [] toy_Add toy_new_JEC
            toy_prod_summary "Total" = inr this) as H.
  { reflexivity. }
  split; [exact H |].
  exact (SummaryFacts.new_SummaryInfo_spec (Col := toy_collaborators)
           (list string) [] toy_Add toy_new_JEC toy_prod_summary "Total"
           this H).
Defined.

End Examples.
